(** * harmonise.py: normalisation of brownfield-site register rows

    A shallow embedding of [bin/harmonise.py] and of the parts of the Python
    library it calls ([str] methods, [int], [decimal.Decimal],
    [datetime.strptime]), followed by the properties of the normalisers.

    Text is modelled by [string]; the model covers ASCII text (code points
    below 128): a character above 127 is treated as an opaque symbol that is
    neither white space, nor a digit, nor a letter.  Python integers are [Z].
    Dictionaries are [gmap]s.  A function that can raise returns an
    [outcome], which keeps the state reached when the exception left it.

    Two error paths of the program are outside the model: every cell of a
    row is text (for a row shorter than the header [csv.DictReader] gives
    [None], and [value.lower()] raises [AttributeError]), and every strip
    pattern of the schema is a valid regular expression (for another one
    [re.sub] raises [re.error]). *)

From Stdlib Require Import ZArith NArith Lia Bool List Ascii String.
From stdpp Require Import base option strings gmap.

Open Scope string_scope.
Open Scope Z_scope.

(** ** Characters and [str] methods *)

Module Text.

Definition code (c : ascii) : N := N_of_ascii c.

Definition in_range (lo hi : N) (c : ascii) : bool :=
  ((lo <=? code c) && (code c <=? hi))%N.

Definition is_digit (c : ascii) : bool := in_range 48 57 c.

Definition digit_val (c : ascii) : N := (code c - 48)%N.

Definition is_upper (c : ascii) : bool := in_range 65 90 c.

(** [str.isspace] on ASCII: TAB..CR, FS..US and the space. *)
Definition is_space (c : ascii) : bool :=
  in_range 9 13 c || in_range 28 32 c.

(** C's [isspace], which [int()] uses on an ASCII string: TAB..CR, space. *)
Definition is_cspace (c : ascii) : bool :=
  in_range 9 13 c || in_range 32 32 c.

Definition lower_char (c : ascii) : ascii :=
  if is_upper c then ascii_of_N (code c + 32) else c.

(** [s.lower()] *)
Fixpoint lower (s : string) : string :=
  match s with
  | EmptyString => EmptyString
  | String c r => String (lower_char c) (lower r)
  end.

(** [p(c)] for every character of [s] *)
Fixpoint forallb_str (p : ascii -> bool) (s : string) : bool :=
  match s with
  | EmptyString => true
  | String c r => p c && forallb_str p r
  end.

(** Keep the characters that satisfy [p]. *)
Fixpoint filter_str (p : ascii -> bool) (s : string) : string :=
  match s with
  | EmptyString => EmptyString
  | String c r => if p c then String c (filter_str p r) else filter_str p r
  end.

(** ["".join(s.split())]: [split()] cuts at runs of white space and drops
    them, so joining the pieces on the empty string keeps exactly the
    characters that are not white space. *)
Definition join_split (s : string) : string :=
  filter_str (fun c => negb (is_space c)) s.

(** [s.lstrip(chars)], [s.rstrip(chars)], [s.strip(chars)], the set of
    characters given as a predicate. *)
Fixpoint lstrip (p : ascii -> bool) (s : string) : string :=
  match s with
  | EmptyString => EmptyString
  | String c r => if p c then lstrip p r else s
  end.

Fixpoint rstrip (p : ascii -> bool) (s : string) : string :=
  match s with
  | EmptyString => EmptyString
  | String c r =>
      match rstrip p r with
      | EmptyString => if p c then EmptyString else String c EmptyString
      | r' => String c r'
      end
  end.

Definition strip (p : ascii -> bool) (s : string) : string :=
  rstrip p (lstrip p s).

Definition char_in (set : string) (c : ascii) : bool :=
  negb (forallb_str (fun d => negb (Ascii.eqb c d)) set).

(** [x in s] for strings: substring test. *)
Fixpoint contains (needle s : string) : bool :=
  String.prefix needle s ||
  match s with
  | EmptyString => false
  | String _ r => contains needle r
  end.

(** [s.replace(old, new)] for a non-empty [old]: left to right, without
    overlap.  [fuel] bounds the number of characters still to read. *)
Fixpoint drop (n : nat) (s : string) : string :=
  match n, s with
  | O, _ => s
  | S n', String _ r => drop n' r
  | S _, EmptyString => EmptyString
  end.

Fixpoint replace_fuel (fuel : nat) (old new s : string) : string :=
  match fuel with
  | O => s
  | S fuel' =>
      match s with
      | EmptyString => EmptyString
      | String c r =>
          if String.prefix old s
          then new ++ replace_fuel fuel' old new (drop (String.length old) s)
          else String c (replace_fuel fuel' old new r)
      end
  end.

Definition replace (old new s : string) : string :=
  replace_fuel (String.length s) old new s.

(** Decimal digits of a natural number, most significant first: [str(n)]
    for [n >= 0]. *)
Definition digit_char (d : N) : ascii := ascii_of_N (48 + d).

Fixpoint digits_fuel (fuel : nat) (n : N) (acc : string) : string :=
  match fuel with
  | O => acc
  | S fuel' =>
      let acc' := String (digit_char (n mod 10)) acc in
      if (n <? 10)%N then acc' else digits_fuel fuel' (n / 10) acc'
  end.

Definition digits (n : N) : string :=
  digits_fuel (S (N.to_nat (N.log2 n))) n "".

(** Number of decimal digits: [len(str(n))]. *)
Definition ndigits (n : N) : Z := Z.of_nat (String.length (digits n)).

(** Value of a run of decimal digits read left to right. *)
Fixpoint digits_val (s : string) (acc : N) : N :=
  match s with
  | EmptyString => acc
  | String c r => digits_val r (acc * 10 + digit_val c)%N
  end.

Fixpoint repeat_char (c : ascii) (n : nat) : string :=
  match n with
  | O => EmptyString
  | S n' => String c (repeat_char c n')
  end.

(** [str(z)] for an integer. *)
Definition str_of_Z (z : Z) : string :=
  match z with
  | Z0 => "0"
  | Zpos p => digits (Npos p)
  | Zneg p => String "-" (digits (Npos p))
  end.

End Text.

(** ** [int(s)] and [str(n)] *)

Module PyInt.
Import Text.

(** A run [d (_? d)*] of digits with single underscores between them;
    [prev] tells whether the character just read was a digit. *)
Fixpoint read_digits (s : string) (prev : bool) (acc : N) : option N :=
  match s with
  | EmptyString => if prev then Some acc else None
  | String c r =>
      if is_digit c then read_digits r true (acc * 10 + digit_val c)%N
      else if Ascii.eqb c "_" && prev then read_digits r false acc
      else None
  end.

(** The number of digits in a text, underscores and the like not counted. *)
Fixpoint count_digits (s : string) : N :=
  match s with
  | EmptyString => 0%N
  | String c r => ((if is_digit c then 1 else 0) + count_digits r)%N
  end.

(** [sys.get_int_max_str_digits()], as set by default. *)
Definition max_str_digits : N := 4300.

(** The digits of [int(s)]: more than [max_str_digits] of them are
    refused, leading zeros counted. *)
Definition read_limited (r : string) : option N :=
  if (max_str_digits <? count_digits r)%N then None else read_digits r false 0%N.

(** [int(s)] in base 10: white space around, an optional sign, digits.
    [None] stands for [ValueError]. *)
Definition of_string (s : string) : option Z :=
  match rstrip is_cspace (lstrip is_cspace s) with
  | String "-" r => option_map (fun n => - Z.of_N n) (read_limited r)
  | String "+" r => option_map Z.of_N (read_limited r)
  | r => option_map Z.of_N (read_limited r)
  end.

Definition to_string (z : Z) : string := str_of_Z z.

End PyInt.

(** ** [decimal.Decimal] in the default context

    [prec = 28], [rounding = ROUND_HALF_EVEN], [Emax = 999999],
    [Emin = -999999], traps on [InvalidOperation].  A function that returns
    [None] raises [InvalidOperation]. *)

Module Dec.
Import Text.

Inductive decimal : Type :=
  | Finite (sign : bool) (coeff : N) (exp : Z)
  | Infinity (sign : bool)
  | NaN (sign : bool) (signalling : bool) (payload : N).

Definition prec : Z := 28.
Definition Emax : Z := 999999.
Definition Emin : Z := -999999.
Definition Etiny : Z := Emin - (prec - 1).

(** Limits of the exact conversion from a string. *)
Definition MAX_EMAX : Z := 999999999999999999.
Definition MIN_ETINY : Z := -1999999999999999997.

(** Longest prefix of digits, and what follows it. *)
Fixpoint span_digits (s : string) : string * string :=
  match s with
  | EmptyString => (EmptyString, EmptyString)
  | String c r =>
      if is_digit c
      then let '(d, rest) := span_digits r in (String c d, rest)
      else (EmptyString, s)
  end.

Definition split_sign (s : string) : bool * string :=
  match s with
  | String "-" r => (true, r)
  | String "+" r => (false, r)
  | _ => (false, s)
  end.

Definition signed (neg : bool) (n : N) : Z :=
  if neg then - Z.of_N n else Z.of_N n.

(** [inf], [infinity], [nan<digits>], [snan<digits>], in any case. *)
Definition parse_special (neg : bool) (s : string) : option decimal :=
  let l := lower s in
  if String.eqb l "inf" || String.eqb l "infinity" then Some (Infinity neg)
  else if String.prefix "nan" l then
    let p := drop 3 l in
    if forallb_str is_digit p then Some (NaN neg false (digits_val p 0)) else None
  else if String.prefix "snan" l then
    let p := drop 4 l in
    if forallb_str is_digit p then Some (NaN neg true (digits_val p 0)) else None
  else None.

(** The triple of a numeric string, when it is exactly representable. *)
Definition mk_finite (neg : bool) (ip fp : string) (e : Z) : option decimal :=
  let c := digits_val (ip ++ fp) 0 in
  let x := e - Z.of_nat (String.length fp) in
  if (MIN_ETINY <=? x) && (x + ndigits c - 1 <=? MAX_EMAX)
  then Some (Finite neg c x) else None.

Definition parse_exponent (s : string) : option Z :=
  match s with
  | EmptyString => Some 0
  | String c r =>
      if Ascii.eqb (lower_char c) "e" then
        let '(eneg, r1) := split_sign r in
        let '(ed, r2) := span_digits r1 in
        match ed, r2 with
        | String _ _, EmptyString => Some (signed eneg (digits_val ed 0))
        | _, _ => None
        end
      else None
  end.

Definition parse_number (neg : bool) (s : string) : option decimal :=
  let '(ip, r1) := span_digits s in
  let '(fp, r2) :=
    match r1 with
    | String "." r => span_digits r
    | _ => (EmptyString, r1)
    end in
  match ip ++ fp with
  | EmptyString => None
  | _ =>
      match parse_exponent r2 with
      | Some e => mk_finite neg ip fp e
      | None => None
      end
  end.

(** [Decimal(s)]: white space is stripped from both ends, every underscore
    is dropped, then the numeric grammar applies. *)
Definition of_string (s : string) : option decimal :=
  let s1 := filter_str (fun c => negb (Ascii.eqb c "_")) (strip is_space s) in
  let '(neg, s2) := split_sign s1 in
  match parse_special neg s2 with
  | Some d => Some d
  | None => parse_number neg s2
  end.

(** A quiet NaN keeps its last [prec] payload digits ([_fix_nan]). *)
Definition fix_nan (neg : bool) (payload : N) : decimal :=
  NaN neg false (payload mod 10 ^ 28)%N.

(** [ROUND_HALF_EVEN] of [c / 10^k] for [k > 0]. *)
Definition round_half_even (c : N) (k : Z) : N :=
  let p := (10 ^ Z.to_N k)%N in
  let q := (c / p)%N in
  let r := (c mod p)%N in
  if (p <? 2 * r)%N then (q + 1)%N
  else if (2 * r =? p)%N && N.odd q then (q + 1)%N
  else q.

(** [_rescale(exp, ROUND_HALF_EVEN)] of a non-zero finite number:
    pad with zeros when the exponent goes down, round when it goes up; a
    number below a tenth of the last place rounds to zero. *)
Definition rescale (c : N) (e target : Z) : N :=
  if target <=? e then (c * 10 ^ Z.to_N (e - target))%N
  else if ndigits c + e - target <? 0 then 0%N
  else round_half_even c (target - e).

(** [d.quantize(Decimal((0, (1,), -n)))], which is [round(d, n)]. *)
Definition quantize (d : decimal) (n : Z) : option decimal :=
  match d with
  | NaN neg true _ => None
  | NaN neg false p => Some (fix_nan neg p)
  | Infinity _ => None
  | Finite neg c e =>
      let target := - n in
      if negb ((Etiny <=? target) && (target <=? Emax)) then None
      else if (c =? 0)%N then Some (Finite neg 0 target)
      else if Emax <? e + ndigits c - 1 then None
      else if prec <? ndigits c + e - target then None
      else
        let c' := rescale c e target in
        if prec <? ndigits c' then None else Some (Finite neg c' target)
  end.

(** Drop trailing zeros of the coefficient while the exponent is below
    [Emax]; [fuel] bounds the number of digits. *)
Fixpoint strip_zeros (fuel : nat) (c : N) (e : Z) : N * Z :=
  match fuel with
  | O => (c, e)
  | S fuel' =>
      if ((c mod 10 =? 0)%N) && (e <? Emax)
      then strip_zeros fuel' (c / 10)%N (e + 1)
      else (c, e)
  end.

(** [d.normalize()] for a number that fits the context, as every result of
    [quantize] does (then [_fix] returns its argument). *)
Definition normalize (d : decimal) : option decimal :=
  match d with
  | NaN neg true _ => None
  | NaN neg false p => Some (fix_nan neg p)
  | Infinity neg => Some (Infinity neg)
  | Finite neg c e =>
      if (c =? 0)%N then Some (Finite neg 0 0)
      else let '(c', e') := strip_zeros (Z.to_nat (ndigits c)) c e in
           Some (Finite neg c' e')
  end.

Definition sign_str (neg : bool) : string := if neg then "-" else "".

(** [s[:n]] and [s[n:]] *)
Fixpoint take (n : nat) (s : string) : string :=
  match n, s with
  | S n', String c r => String c (take n' r)
  | _, _ => EmptyString
  end.

(** ["%+d" % z] *)
Definition signed_str (z : Z) : string :=
  if z <? 0 then str_of_Z z else String "+" (str_of_Z z).

(** [str(d)] (scientific notation, [capitals = 1]). *)
Definition to_string (d : decimal) : string :=
  match d with
  | Infinity neg => sign_str neg ++ "Infinity"
  | NaN neg sig p =>
      sign_str neg ++ (if sig then "sNaN" else "NaN")
      ++ (if (p =? 0)%N then "" else digits p)
  | Finite neg c e =>
      let ds := digits c in
      let len := Z.of_nat (String.length ds) in
      let leftdigits := e + len in
      let dotplace := if (e <=? 0) && (-6 <? leftdigits) then leftdigits else 1 in
      let intpart :=
        if dotplace <=? 0 then "0"
        else if len <=? dotplace then ds ++ repeat_char "0" (Z.to_nat (dotplace - len))
        else take (Z.to_nat dotplace) ds in
      let fracpart :=
        if dotplace <=? 0 then String "." (repeat_char "0" (Z.to_nat (- dotplace)) ++ ds)
        else if len <=? dotplace then ""
        else String "." (drop (Z.to_nat dotplace) ds) in
      let exp :=
        if leftdigits =? dotplace then ""
        else String "E" (signed_str (leftdigits - dotplace)) in
      sign_str neg ++ intpart ++ fracpart ++ exp
  end.

(** Comparison of a decimal with the number [t / 2] for an integer [t]
    (the constants of [within_england] are halves of integers, and exact as
    floats).  [None] is the [InvalidOperation] of an ordering with a NaN. *)
Definition scaled (c : N) (e : Z) : Z * Z :=
  (2 * Z.of_N c * 10 ^ Z.max e 0, 10 ^ Z.max (- e) 0).

Definition gt_half (d : decimal) (t : Z) : option bool :=
  match d with
  | NaN _ _ _ => None
  | Infinity neg => Some (negb neg)
  | Finite neg c e =>
      let '(num, den) := scaled c e in
      Some (t * den <? (if neg then - num else num))
  end.

Definition lt_half (d : decimal) (t : Z) : option bool :=
  match d with
  | NaN _ _ _ => None
  | Infinity neg => Some neg
  | Finite neg c e =>
      let '(num, den) := scaled c e in
      Some ((if neg then - num else num) <? t * den)
  end.

End Dec.

(** ** Floats, as far as the program sees them

    A finite float is a dyadic rational [± num / 2^k]
    ([float.as_integer_ratio]); the results of the coordinate transformation
    are floats. *)

Module Float.

Inductive pyfloat : Type :=
  | Fin (neg : bool) (num : N) (k : N)
  | FInf (neg : bool)
  | FNan.

(** [Decimal(f)]: the exact value, [num * 5^k] with exponent [-k]. *)
Definition to_decimal (f : pyfloat) : Dec.decimal :=
  match f with
  | Fin neg num k => Dec.Finite neg (num * 5 ^ k)%N (- Z.of_N k)
  | FInf neg => Dec.Infinity neg
  | FNan => Dec.NaN false false 0
  end.

(** [f > t / 2] and [f < t / 2]; an ordering with a NaN is false. *)
Definition gt_half (f : pyfloat) (t : Z) : bool :=
  match f with
  | Fin neg num k => t * 2 ^ Z.of_N k <? Dec.signed neg (2 * num)
  | FInf neg => negb neg
  | FNan => false
  end.

Definition lt_half (f : pyfloat) (t : Z) : bool :=
  match f with
  | Fin neg num k => Dec.signed neg (2 * num) <? t * 2 ^ Z.of_N k
  | FInf neg => neg
  | FNan => false
  end.

End Float.

(** ** [datetime.strptime] and [strftime] (C locale) *)

Module Strptime.
Import Text.

Inductive directive : Type := dY | dm | dd | dH | dM | dS | dy | db | dB.

Inductive item : Type :=
  | Lit (c : ascii)
  | Spaces
  | Dir (d : directive).

Definition directive_of (c : ascii) : option directive :=
  if Ascii.eqb c "Y" then Some dY else if Ascii.eqb c "m" then Some dm
  else if Ascii.eqb c "d" then Some dd else if Ascii.eqb c "H" then Some dH
  else if Ascii.eqb c "M" then Some dM else if Ascii.eqb c "S" then Some dS
  else if Ascii.eqb c "y" then Some dy else if Ascii.eqb c "b" then Some db
  else if Ascii.eqb c "B" then Some dB else None.

(** The regular expression of a format: a directive becomes its group, a
    run of white space becomes [\s+], any other character stands for itself.
    [None] is the [ValueError] of a bad directive. *)
Fixpoint compile (fmt : string) : option (list item) :=
  match fmt with
  | EmptyString => Some []
  | String "%" (String c r) =>
      match directive_of c, compile r with
      | Some d, Some l => Some (Dir d :: l)
      | _, _ => None
      end
  | String c r =>
      match compile r with
      | Some l =>
          if is_space c
          then Some (match l with Spaces :: _ => l | _ => Spaces :: l end)
          else Some (Lit c :: l)
      | None => None
      end
  end.

(** Character classes of the groups. *)
Definition cls : Type := ascii -> bool.
Definition one (c : ascii) : cls := fun x => Ascii.eqb x c.
Definition rng (a b : ascii) : cls := fun x => in_range (code a) (code b) x.
Definition digit : cls := is_digit.
(** a letter under [re.IGNORECASE] *)
Definition ci (c : ascii) : cls := fun x => Ascii.eqb (lower_char x) c.

Fixpoint word (w : string) : list cls :=
  match w with
  | EmptyString => []
  | String c r => ci c :: word r
  end.

Definition a_month : list string :=
  ["jan"; "feb"; "mar"; "apr"; "may"; "jun"; "jul"; "aug"; "sep"; "oct"; "nov"; "dec"].

Definition f_month : list string :=
  ["january"; "february"; "march"; "april"; "may"; "june"; "july"; "august";
   "september"; "october"; "november"; "december"].

(** The alternatives of each group, in the order the regular expression
    lists them (month names longest first). *)
Definition regex_of (d : directive) : list (list cls) :=
  match d with
  | dY => [[digit; digit; digit; digit]]
  | dm => [[one "1"; rng "0" "2"]; [one "0"; rng "1" "9"]; [rng "1" "9"]]
  | dd => [[one "3"; rng "0" "1"]; [rng "1" "2"; digit]; [one "0"; rng "1" "9"];
           [rng "1" "9"]; [one " "; rng "1" "9"]]
  | dH => [[one "2"; rng "0" "3"]; [rng "0" "1"; digit]; [digit]]
  | dM => [[rng "0" "5"; digit]; [digit]]
  | dS => [[one "6"; rng "0" "1"]; [rng "0" "5"; digit]; [digit]]
  | dy => [[digit; digit]]
  | db => map word a_month
  | dB => map word
            ["september"; "february"; "november"; "december"; "january"; "october";
             "august"; "march"; "april"; "june"; "july"; "may"]
  end.

(** The text matched by a sequence of classes at the head of [s], and the
    rest of [s]. *)
Fixpoint match_cls (cs : list cls) (s : string) : option (string * string) :=
  match cs with
  | [] => Some (EmptyString, s)
  | p :: cs' =>
      match s with
      | EmptyString => None
      | String x r =>
          if p x then
            match match_cls cs' r with
            | Some (t, rest) => Some (String x t, rest)
            | None => None
            end
          else None
      end
  end.

(** Ordered choice with backtracking: the first alternative that matches
    and lets the continuation succeed. *)
Fixpoint first_alt {R : Type} (alts : list (list cls)) (s : string)
    (k : string -> string -> option R) : option R :=
  match alts with
  | [] => None
  | a :: more =>
      match match_cls a s with
      | Some (t, rest) =>
          match k t rest with
          | Some x => Some x
          | None => first_alt more s k
          end
      | None => first_alt more s k
      end
  end.

(** The rest of a greedy [\s+], one white space being already read. *)
Fixpoint more_spaces {R : Type} (k : string -> option R) (s : string) : option R :=
  match s with
  | EmptyString => k EmptyString
  | String c r =>
      if is_space c then
        match more_spaces k r with
        | Some x => Some x
        | None => k s
        end
      else k s
  end.

(** [regex.match]: the groups found, in order of appearance, and the text
    left unread. *)
Fixpoint match_items (items : list item) (s : string)
    (found : list (directive * string)) : option (list (directive * string) * string) :=
  match items with
  | [] => Some (found, s)
  | Lit c :: rest =>
      match s with
      | String x r =>
          if Ascii.eqb (lower_char x) (lower_char c) then match_items rest r found else None
      | EmptyString => None
      end
  | Spaces :: rest =>
      match s with
      | String x r =>
          if is_space x then more_spaces (fun s' => match_items rest s' found) r else None
      | EmptyString => None
      end
  | Dir d :: rest =>
      first_alt (regex_of d) s (fun t s' => match_items rest s' (found ++ [(d, t)]))
  end.

Record fields : Type := Fields {
  f_year : option Z; f_month_ : Z; f_day : Z;
  f_hour : Z; f_minute : Z; f_second : Z }.

Definition initial : fields := Fields None 1 1 0 0 0.

(** [list.index], counted from 1. *)
Fixpoint index_of (w : string) (l : list string) (i : Z) : option Z :=
  match l with
  | [] => None
  | x :: r => if String.eqb x w then Some i else index_of w r (i + 1)
  end.

(** The assignment a group makes; [None] is a [ValueError]. *)
Definition assign (f : fields) (g : directive * string) : option fields :=
  let '(d, t) := g in
  let '(Fields y mo da h mi s) := f in
  match d with
  | dy => match PyInt.of_string t with
          | Some v => Some (Fields (Some (if v <=? 68 then v + 2000 else v + 1900)) mo da h mi s)
          | None => None
          end
  | dY => match PyInt.of_string t with
          | Some v => Some (Fields (Some v) mo da h mi s)
          | None => None
          end
  | dm => match PyInt.of_string t with
          | Some v => Some (Fields y v da h mi s)
          | None => None
          end
  | dB => match index_of (lower t) f_month 1 with
          | Some v => Some (Fields y v da h mi s)
          | None => None
          end
  | db => match index_of (lower t) a_month 1 with
          | Some v => Some (Fields y v da h mi s)
          | None => None
          end
  | dd => match PyInt.of_string t with
          | Some v => Some (Fields y mo v h mi s)
          | None => None
          end
  | dH => match PyInt.of_string t with
          | Some v => Some (Fields y mo da v mi s)
          | None => None
          end
  | dM => match PyInt.of_string t with
          | Some v => Some (Fields y mo da h v s)
          | None => None
          end
  | dS => match PyInt.of_string t with
          | Some v => Some (Fields y mo da h mi v)
          | None => None
          end
  end.

Fixpoint assign_all (f : fields) (gs : list (directive * string)) : option fields :=
  match gs with
  | [] => Some f
  | g :: r => match assign f g with Some f' => assign_all f' r | None => None end
  end.

Record date : Type := Date { year : Z; month : Z; day : Z }.

Definition is_leap (y : Z) : bool :=
  (y mod 4 =? 0) && (negb (y mod 100 =? 0) || (y mod 400 =? 0)).

Definition days_in_month (y m : Z) : Z :=
  if m =? 2 then (if is_leap y then 29 else 28)
  else if (m =? 4) || (m =? 6) || (m =? 9) || (m =? 11) then 30
  else 31.

(** The checks of the [date] and [datetime] constructors. *)
Definition valid (y m d h mi s : Z) : bool :=
  (1 <=? y) && (y <=? 9999) && (1 <=? m) && (m <=? 12)
  && (1 <=? d) && (d <=? days_in_month y m)
  && (0 <=? h) && (h <=? 23) && (0 <=? mi) && (mi <=? 59) && (0 <=? s) && (s <=? 59).

(** Without a year in the pattern the year is 1900; for 29 February
    [_strptime] computes the day of the week with 1904 and sets the year
    back to 1900, which the [datetime] constructor refuses. *)
Definition build (f : fields) : option date :=
  let '(Fields y mo da h mi s) := f in
  let y' :=
    match y with
    | Some v => v
    | None => 1900
    end in
  if valid y' mo da h mi s then Some (Date y' mo da) else None.

(** [datetime.strptime(data, fmt)], as far as the date goes; [None] is
    [ValueError]. *)
Definition strptime (data fmt : string) : option date :=
  match compile fmt with
  | Some items =>
      match match_items items data [] with
      | Some (found, EmptyString) =>
          match assign_all initial found with
          | Some f => build f
          | None => None
          end
      | _ => None
      end
  | None => None
  end.

Definition pad2 (z : Z) : string :=
  if z <? 10 then String "0" (str_of_Z z) else str_of_Z z.

(** [d.strftime("%Y-%m-%d")]; how the C library writes a year below 1000
    differs between platforms, so the rendering of [%Y] is a parameter. *)
Definition strftime (render_year : Z -> string) (d : date) : string :=
  render_year (year d) ++ "-" ++ pad2 (month d) ++ "-" ++ pad2 (day d).

End Strptime.

(** ** The program *)

Module Harmonise.
Import Text.
Export Dec Float.

Inductive exn : Type :=
  | KeyError (key : string)
  | NameError (name : string)
  | InvalidOperation.

(** A row of the issue log. *)
Record issue : Type := Issue {
  issue_row_number : Z;
  issue_field : string;
  issue_datatype : string;
  issue_value : string }.

(** The module's global variables that change during a run: the index
    [organisation_uri], the rows written by [log_writer], [row_number], and
    [field], the variable of the loop over the field names in the main
    block, which is unbound until that loop starts. *)
Record globals : Type := Globals {
  organisation_uri : gmap string string;
  log : list issue;
  row_number : Z;
  field : option string }.

Inductive outcome (A : Type) : Type :=
  | Return (a : A) (g : globals)
  | Raise (e : exn) (g : globals).
Arguments Return {A} a g.
Arguments Raise {A} e g.

Definition M (A : Type) : Type := globals -> outcome A.

Definition ret {A : Type} (a : A) : M A := fun g => Return a g.
Definition raise {A : Type} (e : exn) : M A := fun g => Raise e g.
Definition bind {A B : Type} (m : M A) (k : A -> M B) : M B :=
  fun g => match m g with
           | Return a g' => k a g'
           | Raise e g' => Raise e g'
           end.

Notation "'let*' x := m 'in' k" := (bind m (fun x => k))
  (at level 10, x pattern, m at level 100, k at level 200).

(** [d[key]] *)
Definition getitem {V : Type} (d : gmap string V) (key : string) : M V :=
  match d !! key with
  | Some v => ret v
  | None => raise (KeyError key)
  end.

(** A field of the schema: [field.get("type", "")],
    [field.get("format", "")] and the ["digital-land"] block. *)
Record extras_def : Type := Extras {
  precision : option Z;
  strip : option (list string) }.

Record field_def : Type := Field {
  name : string;
  type : option string;
  format : option string;
  digital_land : option extras_def }.

Definition LF : ascii := ascii_of_N 10.
Definition DQUOTE : ascii := ascii_of_N 34.

(** A number held by [geox], [geoy], [lon], [lat]. *)
Inductive number : Type :=
  | Dnum (d : decimal)
  | Fnum (f : pyfloat).

Definition num_gt_half (x : number) (t : Z) : option bool :=
  match x with
  | Dnum d => Dec.gt_half d t
  | Fnum f => Some (Float.gt_half f t)
  end.

Definition num_lt_half (x : number) (t : Z) : option bool :=
  match x with
  | Dnum d => Dec.lt_half d t
  | Fnum f => Some (Float.lt_half f t)
  end.

(** [a and b], the right operand evaluated only when the left one holds. *)
Definition and_then (a : option bool) (b : option bool) : option bool :=
  match a with
  | Some true => b
  | other => other
  end.

(** [within_england]: [geoy > 49.5 and geoy < 56.0 and geox > -7.0 and
    geox < 2]; [None] is the [InvalidOperation] of comparing a NaN. *)
Definition within_england (geox geoy : number) : option bool :=
  and_then (num_gt_half geoy 99)
    (and_then (num_lt_half geoy 112)
       (and_then (num_gt_half geox (-14)) (num_lt_half geox 4))).

(** [normalise_integer.regex.sub("", value, 1)] for the pattern [\.0+$]:
    the leftmost dot that is followed by zeros only up to the end of the
    text, or up to a line feed that ends the text, goes with its zeros. *)
Fixpoint zeros_to_end (s : string) (seen : bool) : option string :=
  match s with
  | EmptyString => if seen then Some EmptyString else None
  | String c r =>
      if Ascii.eqb c "0" then zeros_to_end r true
      else if seen && Ascii.eqb c LF && String.eqb r EmptyString then Some s
      else None
  end.

Fixpoint sub_dot_zeros (s : string) : string :=
  match s with
  | EmptyString => EmptyString
  | String c r =>
      if Ascii.eqb c "." then
        match zeros_to_end r false with
        | Some tail => tail
        | None => String c (sub_dot_zeros r)
        end
      else String c (sub_dot_zeros r)
  end.

(** [end_of_uri.regex.sub("", s)] for the pattern [.*/]: in every line, the
    text up to the last slash goes.  Read from the right: the flag tells
    whether a slash follows on the same line. *)
Fixpoint sub_upto_slash (s : string) : string * bool :=
  match s with
  | EmptyString => (EmptyString, false)
  | String c r =>
      let '(out, slash) := sub_upto_slash r in
      if Ascii.eqb c LF then (String c out, false)
      else if Ascii.eqb c "/" then (out, true)
      else if slash then (out, true)
      else (String c out, false)
  end.

Definition lower_uri (value : string) : string := lower (join_split value).

Definition end_of_uri (value : string) : string :=
  fst (sub_upto_slash (lower (rstrip (fun c => Ascii.eqb c "/") value))).

Definition format_integer (value : Z) : string := PyInt.to_string value.

(** [Decimal(value)] for a value that is a number already. *)
Definition Decimal_of_number (x : number) : decimal :=
  match x with
  | Dnum d => d
  | Fnum f => Float.to_decimal f
  end.

Definition or_invalid {A : Type} (o : option A) : M A :=
  match o with
  | Some a => ret a
  | None => raise InvalidOperation
  end.

Definition format_decimal (value : number) (precision : Z) : M string :=
  let* r := or_invalid (Dec.quantize (Decimal_of_number value) precision) in
  let* n := or_invalid (Dec.normalize r) in
  ret (Dec.to_string n).

Definition log_issue (field datatype value : string) : M unit :=
  fun g =>
    Return tt
      (Globals (organisation_uri g)
         (log g ++ [Issue (row_number g) field datatype value])
         (row_number g) (Harmonise.field g)).

Definition normalise_integer (field value : string) : M string :=
  let value := sub_dot_zeros value in
  match PyInt.of_string value with
  | None => let* _ := log_issue field "integer" value in ret ""
  | Some n => ret (format_integer n)
  end.

(** The call [format_decimal(d)] leaves [precision] to its default. *)
Definition normalise_decimal (field value : string) (precision : Z) : M string :=
  match Dec.of_string value with
  | None => let* _ := log_issue field "decimal" value in ret ""
  | Some d => format_decimal (Dnum d) 6
  end.

Definition normalise_organisation_uri (field fieldvalue : string) : M string :=
  fun g =>
    let value := lower_uri fieldvalue in
    match organisation_uri g !! value with
    | Some u => Return u g
    | None =>
        let s := end_of_uri value in
        match organisation_uri g !! s with
        | Some u => Return u g
        | None =>
            (let* _ := log_issue field "opendatacommunities-uri" fieldvalue in ret "") g
        end
    end.

Definition date_patterns : list string :=
  [ "%Y-%m-%d"; "%Y%m%d"; "%Y-%m-%dT%H:%M:%S.000Z"; "%Y-%m-%dT%H:%M:%SZ";
    "%Y-%m-%dT%H:%M:%S"; "%Y-%m-%d %H:%M:%S"; "%Y/%m/%d"; "%Y %m %d";
    "%Y.%m.%d"; "%Y-%d-%m"; "%Y"; "%Y.0"; "%d/%m/%Y %H:%M:%S";
    "%d/%m/%Y %H:%M"; "%d-%m-%Y"; "%d-%m-%y"; "%d-%m-%Y"; "%d.%m.%Y";
    "%d.%m.%y"; "%d/%m/%Y"; "%d/%m/%y"; "%d-%b-%Y"; "%d-%b-%y"; "%d %B %Y";
    "%b %d, %Y"; "%b %d, %y"; "%b-%y"; "%m/%d/%Y" ].

(** The global [field], or [NameError] while it is unbound. *)
Definition global_field : M string :=
  fun g =>
    match Harmonise.field g with
    | Some f => Return f g
    | None => Raise (NameError "field") g
    end.

(** [organisation_uri[key] = value] *)
Definition set_organisation_uri (key value : string) : M unit :=
  fun g =>
    Return tt
      (Globals (<[key := value]> (organisation_uri g)) (log g) (row_number g)
         (Harmonise.field g)).

(** [for x in l: body(x)], the loop's local state threaded through. *)
Fixpoint for_each {A S : Type} (l : list A) (body : S -> A -> M S) (s : S) : M S :=
  match l with
  | [] => ret s
  | x :: r => let* s' := body s x in for_each r body s'
  end.

(** [dl_url] of the first loop of [load_organisations], for the row whose
    [organisation] is [id]. *)
Definition dl_url (id : string) : string :=
  let dl_url := "https://digital-land.github.io/organisation/" ++ id ++ "/" in
  replace "-eng:" "-eng/" (lower dl_url).

(** The body of the first loop of [load_organisations]; [organisation] is
    the function's local dictionary. *)
Definition load_reference_row (organisation : gmap string (gmap string string))
    (row : gmap string string) : M (gmap string (gmap string string)) :=
  let* id := getitem row "organisation" in
  let organisation := <[id := row]> organisation in
  match row !! "opendatacommunities" with
  | Some raw =>
      let uri := lower raw in
      let* _ := set_organisation_uri uri uri in
      let* _ := set_organisation_uri (end_of_uri uri) uri in
      let* code := getitem row "statistical-geography" in
      let* _ := set_organisation_uri (lower code) uri in
      if contains "local-authority-eng" id then
        let* _ := set_organisation_uri (dl_url id) uri in
        ret organisation
      else ret organisation
  | None => ret organisation
  end.

(** The body of the second loop. *)
Definition load_patch_row (organisation : gmap string (gmap string string))
    (row : gmap string string) : M (gmap string (gmap string string)) :=
  let* v := getitem row "value" in
  let value := lower_uri v in
  let* id := getitem row "organisation" in
  if String.eqb id "" then ret organisation
  else
    let* entry := getitem organisation id in
    let* uri := getitem entry "opendatacommunities" in
    let* _ := set_organisation_uri value uri in
    ret organisation.

(** [load_organisations], the rows of the two tables given as read by
    [csv.DictReader]. *)
Definition load_organisations (organisation_csv patch_csv : list (gmap string string))
    : M unit :=
  let* organisation := for_each organisation_csv load_reference_row ∅ in
  let* _ := for_each patch_csv load_patch_row organisation in
  ret tt.

Section Program.

(** The schema file, and what the libraries outside the model compute:
    [re.sub(pattern, "", value)], [validators.url], the transformation
    [osgb_to_wgs84.transform], which returns the pair [(lat, lon)], and the
    text the platform's [strftime] writes for [%Y]. *)
Variable schema : list field_def.
Variable re_sub : string -> string -> string.
Variable validators_url : string -> bool.
Variable transform : number -> number -> pyfloat * pyfloat.
Variable strftime_Y : Z -> string.

(** [fields = {field["name"]: field for field in schema["fields"]}] *)
Definition fields : gmap string field_def :=
  fold_left (fun m f => <[name f := f]> m) schema ∅.

Definition fieldnames : list string := map name schema.

(** The loop over the patterns of [normalise_date]: the first one that
    parses decides. *)
Fixpoint first_date (patterns : list string) (value : string) : option Strptime.date :=
  match patterns with
  | [] => None
  | pattern :: rest =>
      match Strptime.strptime value pattern with
      | Some date => Some date
      | None => first_date rest value
      end
  end.

(** The issue is logged under the global [field], not under [context]. *)
Definition normalise_date (context fieldvalue : string) : M string :=
  let value := Text.strip (char_in (String " " (String DQUOTE ","))) fieldvalue in
  match first_date date_patterns value with
  | Some date => ret (Strptime.strftime strftime_Y date)
  | None =>
      let* field := global_field in
      let* _ := log_issue field "date" fieldvalue in
      ret ""
  end.

Definition normalise_uri (field value : string) : M string :=
  let uri := join_split value in
  if validators_url uri then ret uri
  else let* _ := log_issue field "uri" value in ret "".

Definition null_values : list string := [""; "-"; "n/a"; "#n/a"; "???"; "<null>"].

Definition string_in (s : string) (l : list string) : bool :=
  existsb (String.eqb s) l.

Definition normalise (fieldname value : string) : M string :=
  if string_in (lower value) null_values then ret ""
  else
    let* field := getitem fields fieldname in
    let extras := default (Extras None None) (digital_land field) in
    let value := fold_left (fun v strip => re_sub strip v) (default [] (strip extras)) value in
    if String.eqb fieldname "OrganisationURI" then normalise_organisation_uri fieldname value
    else if String.eqb (default "" (type field)) "integer" then normalise_integer fieldname value
    else if String.eqb (default "" (type field)) "number"
      then normalise_decimal fieldname value (default 6 (precision extras))
    else if String.eqb (default "" (format field)) "uri" then normalise_uri fieldname value
    else if String.eqb (default "" (type field)) "date" then normalise_date fieldname value
    else ret value.

(** A row is a dictionary from field names to text. *)
Definition normalise_geometry (row : gmap string string) : M (gmap string string) :=
  if String.eqb (default "" (row !! "GeoX")) "" || String.eqb (default "" (row !! "GeoY")) ""
  then ret row
  else
    let* x := getitem row "GeoX" in
    let* geox := or_invalid (Dec.of_string x) in
    let* y := getitem row "GeoY" in
    let* geoy := or_invalid (Dec.of_string y) in
    let row := <["GeoY" := ""]> (<["GeoX" := ""]> row) in
    let accept (lon lat : number) : M (gmap string string) :=
      let* gx := format_decimal lon 6 in
      let row := <["GeoX" := gx]> row in
      let* gy := format_decimal lat 6 in
      ret (<["GeoY" := gy]> row) in
    let* direct := or_invalid (within_england (Dnum geox) (Dnum geoy)) in
    if direct then accept (Dnum geox) (Dnum geoy)
    else
      let* swapped := or_invalid (within_england (Dnum geoy) (Dnum geox)) in
      if swapped then accept (Dnum geoy) (Dnum geox)
      else
        let '(lat, lon) := transform (Dnum geox) (Dnum geoy) in
        let* ok := or_invalid (within_england (Fnum lon) (Fnum lat)) in
        if ok then accept (Fnum lon) (Fnum lat)
        else
          let '(lat, lon) := transform (Dnum geoy) (Dnum geox) in
          let* ok := or_invalid (within_england (Fnum lon) (Fnum lat)) in
          if ok then accept (Fnum lon) (Fnum lat)
          else
            let* gx := getitem row "GeoX" in
            let* gy := getitem row "GeoY" in
            let* _ := log_issue "GeoX,GeoY" "OSGB" (gx ++ "," ++ gy) in
            ret row.

Definition set_row_number (n : Z) : M unit :=
  fun g => Return tt (Globals (organisation_uri g) (log g) n (Harmonise.field g)).

Definition set_field (f : string) : M unit :=
  fun g => Return tt (Globals (organisation_uri g) (log g) (row_number g) (Some f)).

Definition get_row_number : M Z := fun g => Return (row_number g) g.

(** The body of the loop over the rows of the main block; the rows written
    so far are the loop's state. *)
Definition process_row (written : list (gmap string string)) (row : gmap string string)
    : M (list (gmap string string)) :=
  let* n := get_row_number in
  let* _ := set_row_number (n + 1) in
  let* o :=
    for_each fieldnames
      (fun (o : gmap string string) f =>
         let* _ := set_field f in
         let* raw := getitem row f in
         let* v := normalise f raw in
         ret (<[f := v]> o)) ∅ in
  let* o := normalise_geometry o in
  ret (written ++ [o])%list.

(** The main block: the index is loaded, then every row is processed. *)
Definition main (organisation_csv patch_csv input : list (gmap string string))
    : M (list (gmap string string)) :=
  let* _ := load_organisations organisation_csv patch_csv in
  for_each input process_row [].

End Program.

End Harmonise.

(** ** Sample data for the examples *)

Module Sample.
Import Text Harmonise.

(** [re.sub(pattern, "", value)] for a pattern without metacharacters. *)
Definition sub_literal (pattern value : string) : string :=
  replace pattern "" value.

(** A validator that accepts what starts with a scheme. *)
Definition url_with_scheme (uri : string) : bool :=
  String.prefix "http://" uri || String.prefix "https://" uri.

(** Every grid reference taken to the false origin of the National Grid,
    about 49.75 N, 7.5 W, which is outside the bounding box. *)
Definition to_origin (x y : number) : pyfloat * pyfloat :=
  (Fin false 199 2, Fin true 15 1).

Definition row_of (l : list (string * string)) : gmap string string :=
  list_to_map l.

Definition nothing : globals := Globals ∅ [] 0 None.

(** In the row loop: row 1, the index empty, [field] bound. *)
Definition in_loop (f : string) : globals := Globals ∅ [] 1 (Some f).

Definition schema : list field_def :=
  [ Field "OrganisationURI" (Some "string") (Some "uri") None;
    Field "SiteReference" (Some "string") None None;
    Field "SiteplanURL" (Some "string") (Some "uri") None;
    Field "GeoX" (Some "number") None (Some (Extras (Some 6) None));
    Field "GeoY" (Some "number") None (Some (Extras (Some 6) None));
    Field "Hectares" (Some "number") None (Some (Extras (Some 2) (Some ["ha"])));
    Field "MinNetDwellings" (Some "integer") None None;
    Field "FirstAddedDate" (Some "date") None None;
    Field "Notes" (Some "string") None (Some (Extras None (Some ["--"]))) ].

(** Two councils of the reference table, and patch rows: a spelling of the
    first council's name, and the first council's URI given to the second. *)
Definition council_a : gmap string string :=
  row_of [ ("organisation", "local-authority-eng:AAA");
           ("opendatacommunities", "http://opendatacommunities.org/id/district-council/Aaa");
           ("statistical-geography", "E07000001") ].

Definition council_b : gmap string string :=
  row_of [ ("organisation", "local-authority-eng:BBB");
           ("opendatacommunities", "http://opendatacommunities.org/id/district-council/bbb");
           ("statistical-geography", "E07000002") ].

Definition patch_name : gmap string string :=
  row_of [ ("value", "Aaa District Council"); ("organisation", "local-authority-eng:AAA") ].

Definition patch_override : gmap string string :=
  row_of [ ("value", "http://opendatacommunities.org/id/district-council/aaa");
           ("organisation", "local-authority-eng:BBB") ].

(** The state a run reaches once the tables are loaded, whether the load
    returned or raised. *)
Definition loaded (organisation_csv patch_csv : list (gmap string string)) : globals :=
  match load_organisations organisation_csv patch_csv nothing with
  | Return _ g => g
  | Raise _ g => g
  end.

End Sample.

(** ** Notions used in the statements

    Predicates and functions of the statements below; none of them is part
    of the program. *)

Module Notions.
Import Text Harmonise.

(** Text without white space, and text without capital letters. *)
Definition no_space (s : string) : bool := forallb_str (fun c => negb (is_space c)) s.

Definition no_upper (s : string) : bool := forallb_str (fun c => negb (is_upper c)) s.

(** The null test of the specification: the value trimmed, then folded. *)
Definition trimmed_null (value : string) : bool :=
  string_in (lower (Text.strip is_space value)) null_values.

(** The state once one more issue is logged. *)
Definition with_issue (g : globals) (i : issue) : globals :=
  Globals (organisation_uri g) (log g ++ [i]) (row_number g) (field g).

(** The value a normaliser receives: the raw value after the strip
    patterns of the field were applied in turn. *)
Definition stripped (re_sub : string -> string -> string) (fd : field_def) (value : string)
    : string :=
  fold_left (fun v pattern => re_sub pattern v)
    (default [] (strip (default (Extras None None) (digital_land fd)))) value.

(** The datatypes under which [normalise] logs. *)
Definition scalar_kinds : list string :=
  ["integer"; "decimal"; "date"; "uri"; "opendatacommunities-uri"].

Definition is_slash (c : ascii) : bool := Ascii.eqb c "/".

Definition no_slash (s : string) : bool := forallb_str (fun c => negb (is_slash c)) s.

(** Text without a line feed, which is what [.] of [re] does not match. *)
Definition no_LF (s : string) : bool := forallb_str (fun c => negb (Ascii.eqb c LF)) s.

(** The text after the final slash of [value] once its trailing slashes are
    removed, in the case of [value]. *)
Definition last_segment (value : string) : string :=
  fst (sub_upto_slash (rstrip is_slash value)).

(** Whether a row of the reference table writes the key [k]. *)
Definition ref_registers (k : string) (row : gmap string string) : bool :=
  match row !! "opendatacommunities" with
  | None => false
  | Some raw =>
      String.eqb (lower raw) k || String.eqb (end_of_uri (lower raw)) k
      || match row !! "statistical-geography" with
         | Some code => String.eqb (lower code) k
         | None => false
         end
      || match row !! "organisation" with
         | Some id => contains "local-authority-eng" id && String.eqb (dl_url id) k
         | None => false
         end
  end.

(** Whether a row of the patch table writes the key [k]. *)
Definition patch_registers (k : string) (row : gmap string string) : bool :=
  match row !! "value", row !! "organisation" with
  | Some v, Some id => String.eqb (lower_uri v) k && negb (String.eqb id "")
  | _, _ => false
  end.

(** The keys under which a row of the reference table is looked for: its
    URI, the last segment of its URI, its statistical-geography code. *)
Definition keys_of (raw code : string) : list string :=
  [lower raw; end_of_uri (lower raw); lower code].

(** The characters [normalise_date] trims: space, double quote, comma. *)
Definition date_trim : ascii -> bool := char_in (String " " (String DQUOTE ",")).

(** Four digits, a hyphen, two digits, a hyphen, two digits. *)
Definition iso_shape (s : string) : bool :=
  match s with
  | String y1 (String y2 (String y3 (String y4 (String h1
      (String m1 (String m2 (String h2 (String d1 (String d2 EmptyString))))))))) =>
      is_digit y1 && is_digit y2 && is_digit y3 && is_digit y4 && Ascii.eqb h1 "-"
      && is_digit m1 && is_digit m2 && Ascii.eqb h2 "-" && is_digit d1 && is_digit d2
  | _ => false
  end.



(** [q] is the integer nearest to [c * 10^(e+6)], the even one of the two
    when they are equally near. *)
Definition nearest_even (c : N) (e : Z) (q : N) : Prop :=
  if -6 <=? e then q = (c * 10 ^ Z.to_N (e + 6))%N
  else
    let p := (10 ^ Z.to_N (- 6 - e))%N in
    (2 * q * p <= 2 * c + p)%N /\ (2 * c <= 2 * q * p + p)%N /\
    ((2 * q * p = 2 * c + p)%N \/ (2 * c = 2 * q * p + p)%N -> N.even q = true).

(** [c * 10^e'] is [q * 10^-6] without trailing zeros in [c]. *)
Definition normal_form (q c : N) (e' : Z) : Prop :=
  (q = 0%N /\ c = 0%N /\ e' = 0) \/
  (q <> 0%N /\ -6 <= e' /\ (c * 10 ^ Z.to_N (e' + 6))%N = q /\ (c mod 10)%N <> 0%N).

(** The characters of a number written by [str]. *)
Definition numeric_char (c : ascii) : bool :=
  is_digit c || Ascii.eqb c "." || Ascii.eqb c "E" || Ascii.eqb c "+" || Ascii.eqb c "-"
  || Ascii.eqb c "N" || Ascii.eqb c "a".

(** Text that does not start with a digit. *)
Definition not_digit_head (s : string) : Prop :=
  match s with
  | EmptyString => True
  | String c _ => is_digit c = false
  end.

(** The fraction as [str] writes it, when there is one. *)
Definition frac_str (fp : option string) : string :=
  match fp with
  | Some f => String "." f
  | None => ""
  end.

(** The exponent, when there is one. *)
Definition exp_str (ev : option N) : string :=
  match ev with
  | Some x => String "E" (String "+" (digits x))
  | None => ""
  end.

(** The null test of [normalise]. *)
Definition is_null (value : string) : bool := string_in (lower value) null_values.

(** The pattern [%m-%d] compiled. *)
Definition month_day_items : list Strptime.item :=
  [Strptime.Dir Strptime.dm; Strptime.Lit "-"; Strptime.Dir Strptime.dd].


(** The date the Date Normaliser reads from a value. *)
Definition date_read (value : string) : option Strptime.date :=
  first_date date_patterns (Text.strip date_trim value).

(** [n] zeros. *)
Definition zeros (n : nat) : string := repeat_char "0" n.

(** Text that holds a decimal point. *)
Definition has_dot (s : string) : bool :=
  negb (forallb_str (fun c => negb (Ascii.eqb c ".")) s).

(** The numbers [round(d, 6)] refuses in the default context: an infinity,
    a signalling NaN, and a finite number whose coefficient, once rounded
    to six places, has more than 28 digits. *)
Definition overflows (d : decimal) : bool :=
  match d with
  | Infinity _ => true
  | NaN _ signalling _ => signalling
  | Finite _ c e => (10 ^ 28 <=? Dec.rescale c e (-6))%N
  end.

(** [u] is the URI of a row of the reference table, as the table writes it
    or lower-cased. *)
Definition from_reference (refs : list (gmap string string)) (u : string) : Prop :=
  exists row raw,
    In row refs /\ row !! "opendatacommunities" = Some raw /\ (u = lower raw \/ u = raw).

(** Two states with the same issue log, row number and loop variable. *)
Definition same_progress (g g' : globals) : Prop :=
  log g' = log g /\ row_number g' = row_number g /\ field g' = field g.

(** The state an outcome carries, whether it returns or raises. *)
Definition state_of {A : Type} (o : outcome A) : globals :=
  match o with
  | Return _ g => g
  | Raise _ g => g
  end.

(** From [g] to [g'] the index is untouched and the log has grown by
    issues whose row numbers are above [lo] and at most [hi]. *)
Definition logged_between (lo hi : Z) (g g' : globals) : Prop :=
  organisation_uri g' = organisation_uri g /\
  exists l, log g' = (log g ++ l)%list /\
            Forall (fun i => lo < issue_row_number i <= hi) l.

(** From [g] to [g'] the row number is kept and the new issues carry it. *)
Definition stamped (g g' : globals) : Prop :=
  row_number g' = row_number g /\
  logged_between (row_number g - 1) (row_number g) g g'.

(** A row that has exactly the fields of the schema. *)
Definition has_fields (schema : list field_def) (o : gmap string string) : Prop :=
  forall k, o !! k <> None <-> In k (fieldnames schema).

(** The body of the loop over the field names in the main block. *)
Definition field_step (schema : list field_def) (re_sub : string -> string -> string)
    (validators_url : string -> bool) (strftime_Y : Z -> string)
    (row : gmap string string) (o : gmap string string) (f : string)
    : M (gmap string string) :=
  let* _ := set_field f in
  let* raw := getitem row f in
  let* v := normalise schema re_sub validators_url strftime_Y f raw in
  ret (<[f := v]> o).

(** What an outcome returns, or [d] when it raises. *)
Definition returned {A : Type} (o : outcome A) (d : A) : A :=
  match o with
  | Return a _ => a
  | Raise _ _ => d
  end.

(** A small schema and a row for it, whose second value is no integer. *)
Definition site_schema : list field_def :=
  [ Field "SiteReference" (Some "string") None None;
    Field "MinNetDwellings" (Some "integer") None None ].

Definition site_row : gmap string string :=
  Sample.row_of [("SiteReference", "BF-1"); ("MinNetDwellings", "ten")].

(** The characters the Date Normaliser trims, named one by one: the space,
    the double quote and the comma. *)
Definition trim_char (c : ascii) : bool :=
  Ascii.eqb c " " || Ascii.eqb c DQUOTE || Ascii.eqb c ",".

(** The last character of [String d s]. *)
Fixpoint last_char (s : string) (d : ascii) : ascii :=
  match s with
  | EmptyString => d
  | String c r => last_char r c
  end.

(** Text that neither starts nor ends with a character that is trimmed. *)
Definition bare (s : string) : bool :=
  match s with
  | EmptyString => true
  | String c r => negb (trim_char c) && negb (trim_char (last_char r c))
  end.

(** The last [width] decimal digits of [n], zeros in front. *)
Fixpoint fixed_width (width : nat) (n : N) : string :=
  match width with
  | O => EmptyString
  | S w => fixed_width w (n / 10) ++ String (digit_char (n mod 10)) EmptyString
  end.

(** A date written YYYY-MM-DD. *)
Definition iso_text (d : Strptime.date) : string :=
  fixed_width 4 (Z.to_N (Strptime.year d)) ++ "-"
  ++ fixed_width 2 (Z.to_N (Strptime.month d)) ++ "-"
  ++ fixed_width 2 (Z.to_N (Strptime.day d)).

(** A date as [%Y-%m-%d] writes it, the year as the platform writes [%Y]:
    month and day always have two digits. *)
Definition date_text (strftime_Y : Z -> string) (d : Strptime.date) : string :=
  strftime_Y (Strptime.year d) ++ "-"
  ++ fixed_width 2 (Z.to_N (Strptime.month d)) ++ "-"
  ++ fixed_width 2 (Z.to_N (Strptime.day d)).

(** [%Y] as [strftime] of the GNU C library writes it: the year without
    leading zeros. *)
Definition glibc_Y (y : Z) : string := str_of_Z y.





(** The exception is a [NameError]. *)
Definition is_name_error (e : exn) : bool :=
  match e with
  | NameError _ => true
  | _ => false
  end.

End Notions.

(** ** Loops *)

Module LoopFacts.
Import Text Harmonise Notions.

Lemma for_each_app {A S : Type} (l1 l2 : list A) (body : S -> A -> M S) (s : S) (g : globals) :
  for_each (l1 ++ l2)%list body s g =
  match for_each l1 body s g with
  | Return s' g' => for_each l2 body s' g'
  | Raise e g' => Raise e g'
  end.
Proof.
  revert s g. induction l1 as [|x l1 IH]; intros s g; simpl.
  - reflexivity.
  - unfold bind. destruct (body s x g) as [s' g'|e g']; [apply IH | reflexivity].
Qed.

End LoopFacts.

(** ** Facts about text *)

Module TextFacts.
Import Text Notions.

Lemma app_cons (c : ascii) (s t : string) : String c s ++ t = String c (s ++ t).
Proof. reflexivity. Qed.

Lemma app_nil_l (s : string) : "" ++ s = s.
Proof. reflexivity. Qed.

Lemma app_nil_r (s : string) : s ++ "" = s.
Proof.
  induction s as [|c s IH]; [reflexivity | rewrite app_cons, IH; reflexivity].
Qed.

Lemma app_assoc (a b c : string) : (a ++ b) ++ c = a ++ b ++ c.
Proof.
  induction a as [|x a IH]; [reflexivity | rewrite !app_cons, IH; reflexivity].
Qed.

Lemma length_app (a b : string) :
  String.length (a ++ b) = (String.length a + String.length b)%nat.
Proof.
  induction a as [|x a IH]; [reflexivity | rewrite app_cons; simpl; rewrite IH; reflexivity].
Qed.

Lemma forallb_app p (a b : string) :
  forallb_str p (a ++ b) = forallb_str p a && forallb_str p b.
Proof.
  induction a as [|x a IH]; [reflexivity|].
  rewrite app_cons. simpl. rewrite IH, andb_assoc. reflexivity.
Qed.

Lemma forallb_impl (p q : ascii -> bool) (s : string) :
  (forall c, p c = true -> q c = true) ->
  forallb_str p s = true -> forallb_str q s = true.
Proof.
  intros Hpq. induction s as [|c s IH]; simpl; [reflexivity|].
  intros H. apply andb_true_iff in H as [Hc Hs].
  rewrite (Hpq c Hc), (IH Hs). reflexivity.
Qed.

(** Facts about single characters are checked on all 256 of them. *)
Ltac all_chars c := destruct c as [[] [] [] [] [] [] [] []]; reflexivity.

Lemma lower_char_idem c : lower_char (lower_char c) = lower_char c.
Proof. all_chars c. Qed.

Lemma is_space_lower_char c : is_space (lower_char c) = is_space c.
Proof. all_chars c. Qed.

Lemma is_upper_lower_char c : is_upper (lower_char c) = false.
Proof. all_chars c. Qed.

Lemma lower_char_not_upper c : is_upper c = false -> lower_char c = c.
Proof. unfold lower_char. intros ->. reflexivity. Qed.

Lemma lower_idem (s : string) : lower (lower s) = lower s.
Proof.
  induction s as [|c s IH]; simpl; [reflexivity | rewrite lower_char_idem, IH; reflexivity].
Qed.

Lemma join_split_no_space (s : string) : no_space s = true -> join_split s = s.
Proof.
  unfold no_space, join_split. induction s as [|c s IH]; simpl; [reflexivity|].
  intros H. apply andb_true_iff in H as [Hc Hs]. rewrite Hc, (IH Hs). reflexivity.
Qed.

Lemma no_space_join_split (s : string) : no_space (join_split s) = true.
Proof.
  unfold no_space, join_split. induction s as [|c s IH]; simpl; [reflexivity|].
  destruct (is_space c) eqn:Hc; simpl; [exact IH | rewrite Hc, IH; reflexivity].
Qed.

Lemma no_space_lower (s : string) : no_space (lower s) = no_space s.
Proof.
  unfold no_space. induction s as [|c s IH]; simpl; [reflexivity|].
  rewrite is_space_lower_char, IH. reflexivity.
Qed.

Lemma no_upper_lower (s : string) : no_upper (lower s) = true.
Proof.
  unfold no_upper. induction s as [|c s IH]; simpl; [reflexivity|].
  rewrite is_upper_lower_char, IH. reflexivity.
Qed.

Lemma lower_no_upper (s : string) : no_upper s = true -> lower s = s.
Proof.
  unfold no_upper. induction s as [|c s IH]; simpl; [reflexivity|].
  intros H. apply andb_true_iff in H as [Hc Hs].
  apply negb_true_iff in Hc. rewrite (lower_char_not_upper c Hc), (IH Hs). reflexivity.
Qed.

Lemma join_split_idem (s : string) : join_split (join_split s) = join_split s.
Proof. apply join_split_no_space, no_space_join_split. Qed.

Lemma lower_join_split (s : string) : lower (join_split s) = join_split (lower s).
Proof.
  unfold join_split. induction s as [|c s IH]; simpl; [reflexivity|].
  rewrite is_space_lower_char. destruct (is_space c); simpl; rewrite IH; reflexivity.
Qed.

(** [rstrip] and [lstrip] only remove characters, at the ends. *)
Lemma rstrip_forallb p q (s : string) :
  forallb_str q s = true -> forallb_str q (rstrip p s) = true.
Proof.
  induction s as [|c s IH]; simpl; [reflexivity|].
  intros H. apply andb_true_iff in H as [Hc Hs]. specialize (IH Hs).
  destruct (rstrip p s) as [|d r].
  - destruct (p c); simpl; [reflexivity | rewrite Hc; reflexivity].
  - change (forallb_str q (String c (String d r)) = true).
    simpl in *. rewrite Hc, IH. reflexivity.
Qed.

Lemma lstrip_forallb p q (s : string) :
  forallb_str q s = true -> forallb_str q (lstrip p s) = true.
Proof.
  induction s as [|c s IH]; simpl; [reflexivity|].
  intros H. destruct (p c).
  - apply andb_true_iff in H as [_ Hs]. apply IH, Hs.
  - exact H.
Qed.

Lemma rstrip_lower p (s : string) :
  (forall c, p (lower_char c) = p c) ->
  rstrip p (lower s) = lower (rstrip p s).
Proof.
  intros Hp. induction s as [|c s IH]; simpl; [reflexivity|].
  rewrite IH. destruct (rstrip p s) as [|d r]; simpl.
  - rewrite Hp. destruct (p c); reflexivity.
  - reflexivity.
Qed.

(** A text without a character of [p] at either end is left alone. *)
Lemma lstrip_id p (c : ascii) (s : string) : p c = false -> lstrip p (String c s) = String c s.
Proof. intros H. simpl. rewrite H. reflexivity. Qed.

Lemma rstrip_none p (s : string) :
  forallb_str (fun c => negb (p c)) s = true -> rstrip p s = s.
Proof.
  induction s as [|c s IH]; simpl; [reflexivity|].
  intros H. apply andb_true_iff in H as [Hc Hs]. rewrite (IH Hs).
  apply negb_true_iff in Hc. rewrite Hc. destruct s; reflexivity.
Qed.

Lemma strip_none p (s : string) :
  forallb_str (fun c => negb (p c)) s = true -> strip p s = s.
Proof.
  intros H. unfold strip.
  assert (Hl : lstrip p s = s).
  { destruct s as [|c s]; [reflexivity|]. simpl in H.
    apply andb_true_iff in H as [Hc _]. apply negb_true_iff in Hc.
    apply lstrip_id, Hc. }
  rewrite Hl. apply rstrip_none, H.
Qed.

End TextFacts.

(** ** Decimal digits *)

Module DigitFacts.
Import Text Notions TextFacts.

Open Scope N_scope.

Lemma code_digit_char d : d < 10 -> code (digit_char d) = 48 + d.
Proof.
  intros H. unfold code, digit_char. apply N_ascii_embedding. lia.
Qed.

Lemma is_digit_digit_char d : d < 10 -> is_digit (digit_char d) = true.
Proof.
  intros H. unfold is_digit, in_range. rewrite (code_digit_char d H).
  apply andb_true_iff. split; apply N.leb_le; lia.
Qed.

Lemma digit_val_digit_char d : d < 10 -> digit_val (digit_char d) = d.
Proof. intros H. unfold digit_val. rewrite (code_digit_char d H). lia. Qed.

Lemma digit_char_digit_val c : is_digit c = true -> digit_char (digit_val c) = c.
Proof.
  unfold is_digit, in_range, digit_char, digit_val, code. intros H.
  apply andb_true_iff in H as [H1 H2]. apply N.leb_le in H1. apply N.leb_le in H2.
  replace (48 + (N_of_ascii c - 48)) with (N_of_ascii c) by lia.
  apply ascii_N_embedding.
Qed.


Lemma log2_div10 n : 10 <= n -> N.log2 (n / 10) < N.log2 n.
Proof.
  intros H.
  assert (H2 : n / 10 <= n / 2).
  { apply N.div_le_compat_l. lia. }
  assert (H3 : N.log2 (n / 2) = N.log2 n - 1).
  { rewrite <- N.div2_div. rewrite N.div2_spec. apply N.log2_shiftr. }
  assert (H4 : 0 < N.log2 n) by (apply N.log2_pos; lia).
  pose proof (N.log2_le_mono _ _ H2). lia.
Qed.

Lemma digits_fuel_acc fuel : forall n acc,
  digits_fuel fuel n acc = (digits_fuel fuel n "" ++ acc)%string.
Proof.
  induction fuel as [|fuel IH]; intros n acc; simpl.
  - reflexivity.
  - destruct (n <? 10); [reflexivity|].
    rewrite (IH (n / 10) (String _ acc)), (IH (n / 10) (String _ "")).
    rewrite app_assoc. reflexivity.
Qed.

Lemma digits_fuel_enough f1 : forall f2 n acc,
  (N.to_nat (N.log2 n) < f1)%nat -> (N.to_nat (N.log2 n) < f2)%nat ->
  digits_fuel f1 n acc = digits_fuel f2 n acc.
Proof.
  induction f1 as [|f1 IH]; intros f2 n acc H1 H2; [lia|].
  destruct f2 as [|f2]; [lia|]. simpl.
  destruct (N.ltb_spec n 10) as [Hlt|Hge]; [reflexivity|].
  pose proof (log2_div10 n Hge). apply IH; lia.
Qed.

Lemma digits_small n : n < 10 -> digits n = String (digit_char n) "".
Proof.
  intros H. unfold digits. simpl.
  destruct (N.ltb_spec n 10); [|lia]. rewrite N.mod_small by lia. reflexivity.
Qed.

Lemma digits_step n :
  10 <= n -> digits n = (digits (n / 10) ++ String (digit_char (n mod 10)) "")%string.
Proof.
  intros H. unfold digits at 1. simpl.
  destruct (N.ltb_spec n 10); [lia|].
  rewrite digits_fuel_acc. f_equal. unfold digits.
  pose proof (log2_div10 n H). apply digits_fuel_enough; lia.
Qed.

(** Induction on a number through its decimal digits. *)
Lemma decimal_ind (P : N -> Prop) :
  (forall n, n < 10 -> P n) ->
  (forall n, 10 <= n -> P (n / 10) -> P n) ->
  forall n, P n.
Proof.
  intros Hsmall Hstep n. induction n as [n IH] using (well_founded_induction N.lt_wf_0).
  destruct (N.ltb_spec n 10) as [Hlt|Hge]; [apply Hsmall, Hlt|].
  apply Hstep; [exact Hge|]. apply IH. apply N.div_lt; lia.
Qed.

Lemma digits_val_app a : forall b acc,
  digits_val (a ++ b) acc = digits_val b (digits_val a acc).
Proof.
  induction a as [|c a IH]; intros b acc; [reflexivity|].
  rewrite app_cons. simpl. apply IH.
Qed.

Lemma digits_all_digit n : forallb_str is_digit (digits n) = true.
Proof.
  induction n as [n Hn|n Hn IH] using decimal_ind.
  - rewrite (digits_small n Hn). simpl. rewrite (is_digit_digit_char n Hn). reflexivity.
  - rewrite (digits_step n Hn), forallb_app, IH. simpl.
    rewrite is_digit_digit_char; [reflexivity|]. apply N.mod_lt. lia.
Qed.

(** Reading back the digits of a number gives the number. *)
Lemma digits_val_digits n : digits_val (digits n) 0 = n.
Proof.
  induction n as [n Hn|n Hn IH] using decimal_ind.
  - rewrite (digits_small n Hn). simpl. rewrite (digit_val_digit_char n Hn). lia.
  - rewrite (digits_step n Hn), digits_val_app, IH. simpl.
    rewrite digit_val_digit_char by (apply N.mod_lt; lia).
    pose proof (N.div_mod n 10). lia.
Qed.

Lemma digits_nonempty n : digits n <> ""%string.
Proof.
  destruct (N.ltb_spec n 10) as [Hlt|Hge].
  - rewrite (digits_small n Hlt). discriminate.
  - rewrite (digits_step n Hge). destruct (digits (n / 10)); discriminate.
Qed.

Lemma length_digits_step n :
  10 <= n -> String.length (digits n) = S (String.length (digits (n / 10))).
Proof.
  intros H. rewrite (digits_step n H), length_app. simpl. lia.
Qed.

(** A number has at most [k] digits exactly when it is below [10^k]. *)
Lemma length_digits_le n : forall k,
  (1 <= k)%nat -> ((String.length (digits n) <= k)%nat <-> n < 10 ^ N.of_nat k).
Proof.
  induction n as [n Hn|n Hn IH] using decimal_ind; intros k Hk.
  - rewrite (digits_small n Hn). simpl. split; intros _; [|lia].
    assert (10 ^ 1 <= 10 ^ N.of_nat k) by (apply N.pow_le_mono_r; lia).
    change (10 ^ 1) with 10 in *. lia.
  - rewrite (length_digits_step n Hn).
    destruct k as [|k]; [lia|].
    destruct k as [|k].
    + change (10 ^ N.of_nat 1) with 10. pose proof (digits_nonempty (n / 10)).
      destruct (digits (n / 10)); [contradiction|]. simpl. split; intros; lia.
    + specialize (IH (S k) ltac:(lia)).
      replace (N.of_nat (S (S k))) with (N.succ (N.of_nat (S k))) by lia.
      rewrite N.pow_succ_r'.
      split; intros H.
      * assert (H' : n / 10 < 10 ^ N.of_nat (S k)) by (apply IH; lia).
        pose proof (N.div_mod n 10). pose proof (N.mod_lt n 10). lia.
      * assert (H' : n / 10 < 10 ^ N.of_nat (S k)).
        { apply N.Div0.div_lt_upper_bound; lia. }
        apply IH in H'. lia.
Qed.

Lemma ndigits_pos n : (1 <= ndigits n)%Z.
Proof.
  unfold ndigits. pose proof (digits_nonempty n). destruct (digits n); [contradiction|].
  simpl. lia.
Qed.

Lemma ndigits_le n k : (1 <= k)%Z -> ((ndigits n <= k)%Z <-> n < 10 ^ Z.to_N k).
Proof.
  intros Hk. unfold ndigits.
  pose proof (length_digits_le n (Z.to_nat k) ltac:(lia)) as H.
  replace (N.of_nat (Z.to_nat k)) with (Z.to_N k) in H by lia.
  rewrite <- H. lia.
Qed.

Close Scope N_scope.

(** [int()] reads a run of digits as [digits_val] does. *)
Lemma read_digits_digits s : forall prev acc,
  forallb_str is_digit s = true -> s <> "" \/ prev = true ->
  PyInt.read_digits s prev acc = Some (digits_val s acc).
Proof.
  induction s as [|c s IH]; intros prev acc Hd Hne.
  - destruct Hne as [Hne| ->]; [contradiction | reflexivity].
  - simpl in *. apply andb_true_iff in Hd as [Hc Hs]. rewrite Hc.
    apply IH; [exact Hs | right; reflexivity].
Qed.

Lemma count_digits_all (s : string) :
  forallb_str is_digit s = true -> PyInt.count_digits s = N.of_nat (String.length s).
Proof.
  induction s as [|c s IH]; intros H; [reflexivity|].
  simpl in H. apply andb_true_iff in H as [Hc Hs].
  simpl PyInt.count_digits. rewrite Hc, (IH Hs). simpl String.length. lia.
Qed.

Lemma read_limited_digits n :
  (ndigits n <= 4300)%Z -> PyInt.read_limited (digits n) = Some n.
Proof.
  intros Hn. unfold PyInt.read_limited, PyInt.max_str_digits.
  rewrite (count_digits_all _ (digits_all_digit n)).
  unfold ndigits in Hn.
  destruct (N.ltb_spec 4300 (N.of_nat (String.length (digits n)))) as [H|_]; [lia|].
  rewrite read_digits_digits;
    [rewrite digits_val_digits; reflexivity | apply digits_all_digit | left; apply digits_nonempty].
Qed.

(** [int(str(z))] is [z], for an integer of at most 4300 digits. *)
Lemma of_string_str_of_Z z :
  (ndigits (Z.abs_N z) <= 4300)%Z -> PyInt.of_string (str_of_Z z) = Some z.
Proof.
  intros Hz. unfold PyInt.of_string.
  assert (Hstrip : forall s, forallb_str is_digit s = true ->
            forallb_str (fun x => negb (is_cspace x)) s = true).
  { intros s. apply forallb_impl.
    intros c. destruct c as [[] [] [] [] [] [] [] []]; intros H; try reflexivity; discriminate H. }
  destruct z as [|p|p]; [reflexivity| |].
  - simpl str_of_Z. change (Z.abs_N (Z.pos p)) with (Npos p) in Hz.
    pose proof (digits_all_digit (Npos p)) as Hd. pose proof (digits_nonempty (Npos p)) as Hne.
    pose proof (read_limited_digits (Npos p) Hz) as Hread.
    destruct (digits (Npos p)) as [|c r] eqn:E; [contradiction|].
    pose proof (Hstrip _ Hd) as Hns.
    change (rstrip is_cspace (lstrip is_cspace (String c r)))
      with (strip is_cspace (String c r)).
    rewrite (strip_none is_cspace _ Hns).
    assert (Hc : is_digit c = true) by (simpl in Hd; apply andb_true_iff in Hd; tauto).
    destruct c as [[] [] [] [] [] [] [] []]; try discriminate Hc;
      rewrite Hread; reflexivity.
  - simpl str_of_Z. change (Z.abs_N (Z.neg p)) with (Npos p) in Hz.
    pose proof (digits_all_digit (Npos p)) as Hd.
    assert (Hns : forallb_str (fun x => negb (is_cspace x)) (String "-" (digits (Npos p))) = true).
    { simpl. apply Hstrip, Hd. }
    change (rstrip is_cspace (lstrip is_cspace (String "-" (digits (Npos p)))))
      with (strip is_cspace (String "-" (digits (Npos p)))).
    rewrite (strip_none is_cspace _ Hns).
    rewrite (read_limited_digits (Npos p) Hz). reflexivity.
Qed.




End DigitFacts.

(** ** Null values *)

Module NullValues.
Import Text Harmonise Notions LoopFacts.

(** C4, as stated, fails: a value that is a null value only once trimmed is
    not blanked; in a text field it passes through with its spaces. *)
Lemma C4_trimmed_value_passes_through :
  trimmed_null " - " = true /\
  normalise Sample.schema Sample.sub_literal Sample.url_with_scheme Text.str_of_Z
    "SiteReference" " - " Sample.nothing = Return " - " Sample.nothing.
Proof. split; vm_compute; reflexivity. Qed.

(** C4, amended: a value whose lower-cased form, untrimmed, is one of the
    null values is returned as the empty text at once: nothing is logged,
    and the schema is not even consulted. *)
Theorem C4_null_value_is_blank :
  forall schema re_sub validators_url strftime_Y fieldname value g,
    string_in (lower value) null_values = true ->
    normalise schema re_sub validators_url strftime_Y fieldname value g = Return "" g.
Proof.
  intros schema re_sub validators_url strftime_Y fieldname value g H.
  unfold normalise. rewrite H. reflexivity.
Qed.

Lemma C4_null_value_is_blank_witness :
  string_in (lower "#N/A") null_values = true /\
  normalise [] Sample.sub_literal Sample.url_with_scheme Text.str_of_Z
    "Hectares" "#N/A" Sample.nothing = Return "" Sample.nothing.
Proof.
  split; [reflexivity | apply C4_null_value_is_blank; reflexivity].
Defined.

End NullValues.

(** ** What an issue records *)

Module Issues.
Import Text Harmonise Notions LoopFacts.

Lemma format_decimal_state x p g r g' :
  format_decimal x p g = Return r g' -> g' = g.
Proof.
  unfold format_decimal, bind, or_invalid, ret, raise.
  destruct (quantize (Decimal_of_number x) p) as [q|]; [|discriminate].
  destruct (normalize q); [|discriminate]. congruence.
Qed.

(** C3, as stated, fails: the issue carries the value left by the strip
    patterns of the schema, and for an integer the value left by the
    normaliser's own removal of a trailing [.0]. *)
Lemma C3_issue_value_is_stripped :
  (normalise Sample.schema Sample.sub_literal Sample.url_with_scheme str_of_Z
     "Hectares" "about 2ha" (Sample.in_loop "Hectares")
   = Return "" (with_issue (Sample.in_loop "Hectares") (Issue 1 "Hectares" "decimal" "about 2")))
  /\
  (normalise Sample.schema Sample.sub_literal Sample.url_with_scheme str_of_Z
     "MinNetDwellings" "ten.0" (Sample.in_loop "MinNetDwellings")
   = Return "" (with_issue (Sample.in_loop "MinNetDwellings")
                  (Issue 1 "MinNetDwellings" "integer" "ten"))).
Proof. split; vm_compute; reflexivity. Qed.

(** C3, amended: a call of [normalise] that returns logs at most one issue,
    of one of the five scalar kinds, and returns the empty text with it;
    when the kind is decimal, date, uri or opendatacommunities-uri, the
    value of the issue is the raw value after the strip patterns of the
    schema, before anything the normaliser itself removes. *)
Theorem C3_issue_value :
  forall schema re_sub validators_url strftime_Y fieldname value g r g' fd,
    fields schema !! fieldname = Some fd ->
    normalise schema re_sub validators_url strftime_Y fieldname value g = Return r g' ->
    g' = g \/
    exists f kind v,
      g' = with_issue g (Issue (row_number g) f kind v) /\ r = "" /\
      In kind scalar_kinds /\
      (kind <> "integer" -> v = stripped re_sub fd value).
Proof.
  intros schema re_sub validators_url strftime_Y fieldname value g r g' fd Hfd Hrun.
  unfold normalise in Hrun.
  destruct (string_in (lower value) null_values).
  { left. unfold ret in Hrun. congruence. }
  unfold bind, getitem in Hrun. rewrite Hfd in Hrun. unfold ret at 1 in Hrun.
  fold (stripped re_sub fd value) in Hrun.
  set (v := stripped re_sub fd value) in *.
  destruct (String.eqb fieldname "OrganisationURI").
  { unfold normalise_organisation_uri in Hrun.
    destruct (organisation_uri g !! lower_uri v); [left; congruence|].
    destruct (organisation_uri g !! end_of_uri (lower_uri v)); [left; congruence|].
    right. exists fieldname, "opendatacommunities-uri", v.
    unfold bind, log_issue, ret in Hrun. injection Hrun as <- <-.
    repeat split; [simpl; tauto]. }
  destruct (String.eqb (default "" (type fd)) "integer").
  { unfold normalise_integer in Hrun.
    destruct (PyInt.of_string (sub_dot_zeros v)); [left; unfold ret in Hrun; congruence|].
    right. exists fieldname, "integer", (sub_dot_zeros v).
    unfold bind, log_issue, ret in Hrun. injection Hrun as <- <-.
    repeat split; [simpl; tauto | congruence]. }
  destruct (String.eqb (default "" (type fd)) "number").
  { unfold normalise_decimal in Hrun.
    destruct (Dec.of_string v); [left; eapply format_decimal_state; exact Hrun|].
    right. exists fieldname, "decimal", v.
    unfold bind, log_issue, ret in Hrun. injection Hrun as <- <-.
    repeat split; [simpl; tauto]. }
  destruct (String.eqb (default "" (format fd)) "uri").
  { unfold normalise_uri in Hrun.
    destruct (validators_url (join_split v)); [left; unfold ret in Hrun; congruence|].
    right. exists fieldname, "uri", v.
    unfold bind, log_issue, ret in Hrun. injection Hrun as <- <-.
    repeat split; [simpl; tauto]. }
  destruct (String.eqb (default "" (type fd)) "date").
  { unfold normalise_date in Hrun.
    destruct (first_date date_patterns _); [left; unfold ret in Hrun; congruence|].
    unfold bind, global_field in Hrun.
    destruct (field g) as [f|] eqn:Hf; [|discriminate].
    right. exists f, "date", v.
    unfold log_issue, ret in Hrun. injection Hrun as <- <-.
    repeat split; [simpl; tauto]. }
  left. unfold ret in Hrun. congruence.
Qed.

Lemma C3_issue_value_witness :
  with_issue (Sample.in_loop "Hectares") (Issue 1 "Hectares" "decimal" "about 2")
  = Sample.in_loop "Hectares" \/
  exists f kind v,
    with_issue (Sample.in_loop "Hectares") (Issue 1 "Hectares" "decimal" "about 2")
    = with_issue (Sample.in_loop "Hectares") (Issue 1 f kind v) /\ "" = "" /\
    In kind scalar_kinds /\
    (kind <> "integer" ->
     v = stripped Sample.sub_literal
           (Field "Hectares" (Some "number") None (Some (Extras (Some 2) (Some ["ha"]))))
           "about 2ha").
Proof.
  refine (C3_issue_value Sample.schema Sample.sub_literal Sample.url_with_scheme str_of_Z
            "Hectares" "about 2ha" (Sample.in_loop "Hectares") "" _ _ _ _);
    vm_compute; reflexivity.
Defined.

End Issues.

(** ** Geometry *)

Module Geometry.
Import Text Harmonise Notions LoopFacts.

Lemma eqb_neq_false (a b : string) : a <> b -> String.eqb a b = false.
Proof. intros H. destruct (String.eqb_spec a b); [contradiction | reflexivity]. Qed.

(** C2: when a pair that is not blank fails the direct test, the swapped
    test and both reprojections, both fields are left blank and one issue
    of kind OSGB is logged under [GeoX,GeoY]; but its value is read from
    the row after the two fields were blanked, so it is a lone comma and
    not the original pair. *)
Theorem C2_unresolved_pair :
  forall transform (row : gmap string string) g x y geox geoy,
    row !! "GeoX" = Some x -> row !! "GeoY" = Some y ->
    x <> "" -> y <> "" ->
    Dec.of_string x = Some geox -> Dec.of_string y = Some geoy ->
    within_england (Dnum geox) (Dnum geoy) = Some false ->
    within_england (Dnum geoy) (Dnum geox) = Some false ->
    within_england (Fnum (snd (transform (Dnum geox) (Dnum geoy))))
                   (Fnum (fst (transform (Dnum geox) (Dnum geoy)))) = Some false ->
    within_england (Fnum (snd (transform (Dnum geoy) (Dnum geox))))
                   (Fnum (fst (transform (Dnum geoy) (Dnum geox)))) = Some false ->
    normalise_geometry transform row g
    = Return (<["GeoY" := ""]> (<["GeoX" := ""]> row))
        (with_issue g (Issue (row_number g) "GeoX,GeoY" "OSGB" ","))
    /\ "," <> x ++ "," ++ y.
Proof.
  intros transform row g x y geox geoy Hx Hy Hxn Hyn Hpx Hpy Hd Hs Ht1 Ht2.
  split.
  - unfold normalise_geometry. rewrite Hx, Hy.
    change (default "" (Some x)) with x. change (default "" (Some y)) with y.
    rewrite (eqb_neq_false x "" Hxn), (eqb_neq_false y "" Hyn). simpl orb. cbv iota.
    unfold getitem, bind, or_invalid, ret. cbv beta iota.
    rewrite Hx, Hy. cbv beta iota. rewrite Hpx, Hpy. cbv beta iota.
    rewrite Hd. cbv beta iota. rewrite Hs. cbv beta iota.
    destruct (transform (Dnum geox) (Dnum geoy)) as [lat lon]. simpl in Ht1. rewrite Ht1.
    cbv beta iota.
    destruct (transform (Dnum geoy) (Dnum geox)) as [lat' lon']. simpl in Ht2. rewrite Ht2.
    cbv beta iota.
    rewrite lookup_insert_ne by discriminate. rewrite !lookup_insert_eq.
    reflexivity.
  - destruct x as [|a x']; [contradiction|].
    simpl. intros H. injection H as _ H. destruct x'; discriminate.
Qed.

Lemma C2_unresolved_pair_witness :
  normalise_geometry Sample.to_origin (Sample.row_of [("GeoX", "0"); ("GeoY", "0")])
    (Sample.in_loop "GeoY")
  = Return (<["GeoY" := ""]> (<["GeoX" := ""]> (Sample.row_of [("GeoX", "0"); ("GeoY", "0")])))
      (with_issue (Sample.in_loop "GeoY") (Issue 1 "GeoX,GeoY" "OSGB" ","))
  /\ "," <> "0" ++ "," ++ "0".
Proof.
  refine (C2_unresolved_pair Sample.to_origin
            (Sample.row_of [("GeoX", "0"); ("GeoY", "0")]) (Sample.in_loop "GeoY")
            "0" "0" (Finite false 0 0) (Finite false 0 0) _ _ _ _ _ _ _ _ _ _);
    try reflexivity; discriminate.
Defined.

(** C5: a value that cannot be coerced does abort the run in three places.
    A pair of coordinates that is not blank and not a number reaches
    [Decimal] unguarded in the Geometry Normaliser; the rounding of the
    Decimal Normaliser is outside its [try], so an infinity raises
    [InvalidOperation]; a NaN passes the Decimal Normaliser and raises in
    the bounding-box test, which ends the whole run on that row. *)
Theorem C5_coercion_failure_aborts :
  (forall transform g,
     normalise_geometry transform (Sample.row_of [("GeoX", "east"); ("GeoY", "51.5")]) g
     = Raise InvalidOperation g) /\
  (forall field precision g,
     normalise_decimal field "Infinity" precision g = Raise InvalidOperation g) /\
  (forall transform g,
     normalise_geometry transform (Sample.row_of [("GeoX", "NaN"); ("GeoY", "51.5")]) g
     = Raise InvalidOperation g) /\
  (forall re_sub validators_url transform strftime_Y,
     main [Field "GeoX" (Some "number") None None; Field "GeoY" (Some "number") None None]
       re_sub validators_url transform strftime_Y [] []
       [Sample.row_of [("GeoX", "NaN"); ("GeoY", "51.5")];
        Sample.row_of [("GeoX", "-0.1"); ("GeoY", "51.5")]]
       Sample.nothing
     = Raise InvalidOperation (Globals ∅ [] 1 (Some "GeoY"))).
Proof.
  repeat split; intros; vm_compute; reflexivity.
Qed.

End Geometry.

(** ** Loading the organisation tables *)

Module Loading.
Import Text Harmonise Notions LoopFacts.

(** The local dictionary after the first loop knows an id only if it knew
    it before or a row of the reference table carries it. *)
Lemma reference_rows_ids refs :
  forall organisation g organisation' g' id,
    for_each refs load_reference_row organisation g = Return organisation' g' ->
    organisation !! id = None ->
    (forall r, In r refs -> r !! "organisation" <> Some id) ->
    organisation' !! id = None.
Proof.
  induction refs as [|row refs IH]; intros organisation g organisation' g' id Hrun Hnone Hrows.
  - simpl in Hrun. unfold ret in Hrun. injection Hrun as <- _. exact Hnone.
  - simpl in Hrun. unfold bind at 1 in Hrun.
    destruct (load_reference_row organisation row g) as [o1 g1|e g1] eqn:Hrow; [|discriminate].
    apply (IH o1 g1 organisation' g' id Hrun); [| intros r Hr; apply Hrows; right; exact Hr].
    assert (Hid : row !! "organisation" <> Some id) by (apply Hrows; left; reflexivity).
    unfold load_reference_row, getitem, bind in Hrow.
    destruct (row !! "organisation") as [rid|] eqn:Hrid; [|discriminate].
    unfold ret at 1 in Hrow.
    assert (Ho1 : o1 = <[rid := row]> organisation).
    { destruct (row !! "opendatacommunities"); [|unfold ret in Hrow; congruence].
      unfold set_organisation_uri in Hrow.
      destruct (row !! "statistical-geography"); [|discriminate].
      unfold ret at 1 in Hrow.
      destruct (contains "local-authority-eng" rid); unfold ret in Hrow; congruence. }
    subst o1. rewrite lookup_insert_ne; [exact Hnone | congruence].
Qed.

(** The second loop never changes the local dictionary. *)
Lemma patch_rows_keep_dictionary patch :
  forall organisation g organisation' g',
    for_each patch load_patch_row organisation g = Return organisation' g' ->
    organisation' = organisation.
Proof.
  induction patch as [|row patch IH]; intros organisation g organisation' g' Hrun.
  - simpl in Hrun. unfold ret in Hrun. congruence.
  - simpl in Hrun. unfold bind at 1 in Hrun.
    destruct (load_patch_row organisation row g) as [o1 g1|e g1] eqn:Hrow; [|discriminate].
    apply IH in Hrun. subst organisation'.
    unfold load_patch_row, getitem, bind in Hrow.
    destruct (row !! "value"); [|discriminate]. unfold ret at 1 in Hrow.
    destruct (row !! "organisation") as [id|]; [|discriminate]. unfold ret at 1 in Hrow.
    destruct (String.eqb id ""); [unfold ret in Hrow; congruence|].
    destruct (organisation !! id) as [entry|]; [|discriminate]. unfold ret at 1 in Hrow.
    destruct (entry !! "opendatacommunities"); [|discriminate]. unfold ret at 1 in Hrow.
    unfold set_organisation_uri, ret in Hrow. congruence.
Qed.

(** A patch row with a blank organisation id leaves everything as it is. *)
Lemma blank_patch_row organisation row v g :
  row !! "value" = Some v -> row !! "organisation" = Some "" ->
  load_patch_row organisation row g = Return organisation g.
Proof.
  intros Hv Hid. unfold load_patch_row, getitem, bind. rewrite Hv, Hid. reflexivity.
Qed.

(** A patch row that names an organisation the dictionary lacks raises. *)
Lemma unknown_patch_row organisation row v id g :
  row !! "value" = Some v -> row !! "organisation" = Some id ->
  id <> "" -> organisation !! id = None ->
  load_patch_row organisation row g = Raise (KeyError id) g.
Proof.
  intros Hv Hid Hne Hnone. unfold load_patch_row, getitem, bind. rewrite Hv, Hid.
  unfold ret at 1. unfold ret at 1.
  destruct (String.eqb_spec id ""); [contradiction|].
  rewrite Hnone. reflexivity.
Qed.

(** C6, as stated, fails: a patch row that names an organisation absent
    from the reference table stops the build with a [KeyError]. *)
Lemma C6_unknown_organisation_aborts :
  load_organisations []
    [Sample.row_of [("value", "Anytown Council"); ("organisation", "local-authority-eng:ANY")]]
    Sample.nothing
  = Raise (KeyError "local-authority-eng:ANY") Sample.nothing.
Proof. vm_compute. reflexivity. Qed.

(** C6, amended: a patch row whose organisation id is blank adds no mapping
    and the build goes on as if the row were not there; a patch row whose
    organisation id is not blank and is carried by no row of the reference
    table adds no mapping either, and raises [KeyError]: the build stops
    with the index as the earlier rows left it. *)
Theorem C6_patch_row_without_organisation :
  forall refs pre row rest v id g,
    row !! "value" = Some v ->
    row !! "organisation" = Some id ->
    (id = "" ->
     load_organisations refs (pre ++ row :: rest) g = load_organisations refs (pre ++ rest) g) /\
    (id <> "" ->
     (forall r, In r refs -> r !! "organisation" <> Some id) ->
     forall g1, load_organisations refs pre g = Return tt g1 ->
     load_organisations refs (pre ++ row :: rest) g = Raise (KeyError id) g1).
Proof.
  intros refs pre row rest v id g Hv Hid. split.
  - intros ->. unfold load_organisations, bind.
    destruct (for_each refs load_reference_row ∅ g) as [o1 g1|e g1]; [|reflexivity].
    rewrite !for_each_app.
    destruct (for_each pre load_patch_row o1 g1) as [o2 g2|e g2]; [|reflexivity].
    simpl. unfold bind at 1. rewrite (blank_patch_row o2 row v g2 Hv Hid). reflexivity.
  - intros Hne Hrows g1 Hpre. unfold load_organisations, bind in *.
    destruct (for_each refs load_reference_row ∅ g) as [o1 g0|e g0] eqn:Hrefs; [|discriminate].
    rewrite for_each_app.
    destruct (for_each pre load_patch_row o1 g0) as [o2 g2|e g2] eqn:Hp; [|discriminate].
    unfold ret in Hpre. injection Hpre as <-.
    apply patch_rows_keep_dictionary in Hp. subst o2.
    simpl. unfold bind at 1.
    rewrite (unknown_patch_row o1 row v id g2 Hv Hid Hne); [reflexivity|].
    apply (reference_rows_ids refs ∅ g o1 g0 id Hrefs); [apply lookup_empty | exact Hrows].
Qed.

Lemma C6_patch_row_without_organisation_witness :
  (load_organisations []
     ([] ++ Sample.row_of [("value", "x"); ("organisation", "")] :: [])
     Sample.nothing
   = load_organisations [] ([] ++ []) Sample.nothing) /\
  (load_organisations []
     ([] ++ Sample.row_of [("value", "x"); ("organisation", "la:Z")] :: [])
     Sample.nothing
   = Raise (KeyError "la:Z") Sample.nothing).
Proof.
  split.
  - apply (C6_patch_row_without_organisation [] []
             (Sample.row_of [("value", "x"); ("organisation", "")]) [] "x" "" Sample.nothing);
      reflexivity.
  - apply (C6_patch_row_without_organisation [] []
             (Sample.row_of [("value", "x"); ("organisation", "la:Z")]) [] "x" "la:Z"
             Sample.nothing); try reflexivity.
    + discriminate.
    + intros r [].
Defined.

End Loading.

(** ** The end of a URI *)

Module UriFacts.
Import Text Harmonise Notions LoopFacts TextFacts.

(** On a single line, the substitution keeps what follows the last slash. *)
Lemma sub_upto_slash_spec (s : string) :
  no_LF s = true ->
  no_slash (fst (sub_upto_slash s)) = true /\
  exists p, s = p ++ fst (sub_upto_slash s) /\
    (snd (sub_upto_slash s) = false -> p = "") /\
    (snd (sub_upto_slash s) = true -> exists p', p = p' ++ "/").
Proof.
  unfold no_LF, no_slash. induction s as [|c s IH]; intros HLF.
  - simpl. split; [reflexivity|]. exists "".
    split; [reflexivity|]. split; [reflexivity | discriminate].
  - simpl in HLF. apply andb_true_iff in HLF as [Hc Hs].
    destruct (IH Hs) as [Hout [p [Hp [Hfalse Htrue]]]]. clear IH.
    simpl. destruct (sub_upto_slash s) as [out slash]. simpl in *.
    apply negb_true_iff in Hc. rewrite Hc.
    destruct (Ascii.eqb_spec c "/") as [->|Hne]; simpl.
    + split; [exact Hout|]. exists (String "/" p). rewrite app_cons, <- Hp.
      split; [reflexivity|]. split; [discriminate|]. intros _.
      destruct slash.
      * destruct (Htrue eq_refl) as [p' ->]. exists (String "/" p'). reflexivity.
      * rewrite (Hfalse eq_refl). exists "". reflexivity.
    + destruct slash; simpl.
      * split; [exact Hout|]. exists (String c p). rewrite app_cons, <- Hp.
        split; [reflexivity|]. split; [discriminate|]. intros _.
        destruct (Htrue eq_refl) as [p' ->]. exists (String c p'). reflexivity.
      * split.
        { unfold is_slash. destruct (Ascii.eqb_spec c "/"); [contradiction|]. exact Hout. }
        exists "". rewrite (Hfalse eq_refl) in Hp. rewrite app_nil_l in Hp. subst s.
        split; [reflexivity|]. split; [reflexivity | discriminate].
Qed.

Lemma sub_upto_slash_forallb q (s : string) :
  forallb_str q s = true -> forallb_str q (fst (sub_upto_slash s)) = true.
Proof.
  induction s as [|c s IH]; [reflexivity|].
  simpl. intros H. apply andb_true_iff in H as [Hc Hs]. specialize (IH Hs).
  destruct (sub_upto_slash s) as [out slash]. simpl in IH.
  destruct (Ascii.eqb c LF); simpl; [rewrite Hc, IH; reflexivity|].
  destruct (Ascii.eqb c "/"); simpl; [exact IH|].
  destruct slash; simpl; [exact IH | rewrite Hc, IH; reflexivity].
Qed.

Lemma eqb_lower_char_LF c : Ascii.eqb (lower_char c) LF = Ascii.eqb c LF.
Proof. all_chars c. Qed.

Lemma eqb_lower_char_slash c : Ascii.eqb (lower_char c) "/" = Ascii.eqb c "/".
Proof. all_chars c. Qed.

Lemma sub_upto_slash_lower (s : string) :
  sub_upto_slash (lower s) = (lower (fst (sub_upto_slash s)), snd (sub_upto_slash s)).
Proof.
  induction s as [|c s IH]; [reflexivity|].
  simpl. rewrite IH. destruct (sub_upto_slash s) as [out slash]. simpl.
  rewrite eqb_lower_char_LF, eqb_lower_char_slash.
  destruct (Ascii.eqb c LF); [reflexivity|].
  destruct (Ascii.eqb c "/"); [reflexivity|].
  destruct slash; reflexivity.
Qed.

Lemma no_space_no_LF (s : string) : no_space s = true -> no_LF s = true.
Proof.
  apply forallb_impl. intros c. destruct c as [[] [] [] [] [] [] [] []]; intros H; try reflexivity; discriminate H.
Qed.

(** [end_of_uri] is the lower-cased last segment, also of a lower-cased
    value. *)
Lemma end_of_uri_last_segment (value : string) :
  end_of_uri value = lower (last_segment value).
Proof.
  unfold end_of_uri, last_segment. rewrite sub_upto_slash_lower. reflexivity.
Qed.

Lemma end_of_uri_lower (value : string) : end_of_uri (lower value) = end_of_uri value.
Proof.
  unfold end_of_uri.
  rewrite (rstrip_lower (fun c => Ascii.eqb c "/") value eqb_lower_char_slash).
  rewrite lower_idem. reflexivity.
Qed.

Lemma lower_uri_no_space (value : string) : no_space value = true -> lower_uri value = lower value.
Proof. intros H. unfold lower_uri. rewrite (join_split_no_space value H). reflexivity. Qed.

Lemma lower_uri_last_segment (value : string) :
  no_space value = true -> lower_uri (last_segment value) = end_of_uri value.
Proof.
  intros H. rewrite lower_uri_no_space; [symmetry; apply end_of_uri_last_segment|].
  unfold last_segment. apply sub_upto_slash_forallb, rstrip_forallb, H.
Qed.

End UriFacts.

(** ** The entries of the index *)

Module IndexFacts.
Import Text Harmonise Notions LoopFacts TextFacts UriFacts.

Lemma lookup_insert_eqb (m : gmap string string) (a v k : string) :
  <[a := v]> m !! k = if String.eqb a k then Some v else m !! k.
Proof.
  destruct (String.eqb_spec a k) as [->|Hne].
  - apply lookup_insert_eq.
  - apply lookup_insert_ne, Hne.
Qed.

Lemma reference_row_index organisation row g organisation' g' k :
  load_reference_row organisation row g = Return organisation' g' ->
  organisation_uri g' !! k =
    if ref_registers k row then option_map lower (row !! "opendatacommunities")
    else organisation_uri g !! k.
Proof.
  unfold load_reference_row, ref_registers, getitem, bind.
  destruct (row !! "organisation") as [id|]; [|discriminate]. unfold ret at 1.
  destruct (row !! "opendatacommunities") as [raw|]; [|unfold ret; intros [= _ <-]; reflexivity].
  unfold set_organisation_uri.
  destruct (row !! "statistical-geography") as [code|]; [|discriminate]. unfold ret at 1.
  remember (dl_url id) as dl eqn:Hdl. clear Hdl.
  destruct (contains "local-authority-eng" id); unfold ret; intros H;
    injection H as _ H; subst g';
    cbn [organisation_uri option_map andb];
    rewrite !lookup_insert_eqb;
    destruct (String.eqb (lower raw) k), (String.eqb (end_of_uri (lower raw)) k),
      (String.eqb (lower code) k); cbn [orb andb];
    try (destruct (String.eqb dl k)); cbn [orb andb]; reflexivity.
Qed.

Lemma reference_rows_index refs :
  forall organisation g organisation' g' k,
    for_each refs load_reference_row organisation g = Return organisation' g' ->
    (forall r, In r refs -> ref_registers k r = false) ->
    organisation_uri g' !! k = organisation_uri g !! k.
Proof.
  induction refs as [|row refs IH]; intros organisation g organisation' g' k Hrun Hno.
  - simpl in Hrun. unfold ret in Hrun. injection Hrun as _ <-. reflexivity.
  - simpl in Hrun. unfold bind at 1 in Hrun.
    destruct (load_reference_row organisation row g) as [o1 g1|e g1] eqn:Hrow; [|discriminate].
    rewrite (IH o1 g1 organisation' g' k Hrun) by (intros r Hr; apply Hno; right; exact Hr).
    rewrite (reference_row_index _ _ _ _ _ k Hrow), (Hno row) by (left; reflexivity).
    reflexivity.
Qed.

Lemma patch_row_index organisation row g organisation' g' k :
  load_patch_row organisation row g = Return organisation' g' ->
  patch_registers k row = false ->
  organisation_uri g' !! k = organisation_uri g !! k.
Proof.
  unfold load_patch_row, patch_registers, getitem, bind.
  destruct (row !! "value") as [v|]; [|discriminate]. unfold ret at 1.
  destruct (row !! "organisation") as [id|]; [|discriminate]. unfold ret at 1.
  destruct (String.eqb id ""); [unfold ret; intros [= _ <-]; reflexivity|].
  destruct (organisation !! id) as [entry|]; [|discriminate]. unfold ret at 1.
  destruct (entry !! "opendatacommunities") as [u|]; [|discriminate]. unfold ret at 1.
  unfold set_organisation_uri, ret. intros [= _ <-] Hk. simpl.
  rewrite lookup_insert_eqb. rewrite andb_true_r in Hk. rewrite Hk. reflexivity.
Qed.

Lemma patch_rows_index patch :
  forall organisation g organisation' g' k,
    for_each patch load_patch_row organisation g = Return organisation' g' ->
    (forall r, In r patch -> patch_registers k r = false) ->
    organisation_uri g' !! k = organisation_uri g !! k.
Proof.
  induction patch as [|row patch IH]; intros organisation g organisation' g' k Hrun Hno.
  - simpl in Hrun. unfold ret in Hrun. injection Hrun as _ <-. reflexivity.
  - simpl in Hrun. unfold bind at 1 in Hrun.
    destruct (load_patch_row organisation row g) as [o1 g1|e g1] eqn:Hrow; [|discriminate].
    rewrite (IH o1 g1 organisation' g' k Hrun) by (intros r Hr; apply Hno; right; exact Hr).
    apply (patch_row_index _ _ _ _ _ k Hrow), Hno. left. reflexivity.
Qed.

(** A key written by a row of the reference table and by no later row of
    either table holds that row's lower-cased URI once the index is built. *)
Lemma index_entry pre row post patch g g' raw k :
  load_organisations (pre ++ row :: post) patch g = Return tt g' ->
  row !! "opendatacommunities" = Some raw ->
  ref_registers k row = true ->
  (forall r, In r post -> ref_registers k r = false) ->
  (forall r, In r patch -> patch_registers k r = false) ->
  organisation_uri g' !! k = Some (lower raw).
Proof.
  intros Hrun Hraw Hk Hpost Hpatch.
  unfold load_organisations, bind in Hrun.
  rewrite for_each_app in Hrun.
  destruct (for_each pre load_reference_row ∅ g) as [o1 g1|e g1]; [|discriminate].
  simpl in Hrun. unfold bind at 1 in Hrun.
  destruct (load_reference_row o1 row g1) as [o2 g2|e g2] eqn:Hrow; [|discriminate].
  destruct (for_each post load_reference_row o2 g2) as [o3 g3|e g3] eqn:Hp; [|discriminate].
  destruct (for_each patch load_patch_row o3 g3) as [o4 g4|e g4] eqn:Hq; [|discriminate].
  unfold ret in Hrun. injection Hrun as <-.
  rewrite (patch_rows_index _ _ _ _ _ k Hq Hpatch).
  rewrite (reference_rows_index _ _ _ _ _ k Hp Hpost).
  rewrite (reference_row_index _ _ _ _ _ k Hrow), Hk, Hraw. reflexivity.
Qed.

Lemma resolver_hit field v g u :
  organisation_uri g !! lower_uri v = Some u ->
  normalise_organisation_uri field v g = Return u g.
Proof. intros H. unfold normalise_organisation_uri. rewrite H. reflexivity. Qed.

End IndexFacts.

(** ** The Organisation URI Resolver *)

Module Resolver.
Import Text Harmonise Notions LoopFacts TextFacts UriFacts IndexFacts.

Lemma ref_registers_keys row raw code k :
  row !! "opendatacommunities" = Some raw ->
  row !! "statistical-geography" = Some code ->
  In k (keys_of raw code) ->
  ref_registers k row = true.
Proof.
  intros Hraw Hcode Hk. unfold ref_registers. rewrite Hraw, Hcode.
  destruct Hk as [<-|[<-|[<-|[]]]]; rewrite String.eqb_refl;
    rewrite ?orb_true_r; reflexivity.
Qed.

Lemma no_space_lower_uri v : no_space (lower_uri v) = true.
Proof. unfold lower_uri. rewrite no_space_lower. apply no_space_join_split. Qed.

Lemma last_segment_forallb q v :
  forallb_str q v = true -> forallb_str q (last_segment v) = true.
Proof. intros H. apply sub_upto_slash_forallb, rstrip_forallb, H. Qed.

(** C7, as stated, fails in its last part: a patch row may give a URI of
    the reference table to another organisation, and then the first
    council's own URI resolves to the second council. *)
Lemma C7_patch_overrides_reference :
  load_organisations [Sample.council_a; Sample.council_b] [Sample.patch_override] Sample.nothing
  = Return tt (Sample.loaded [Sample.council_a; Sample.council_b] [Sample.patch_override])
  /\
  normalise_organisation_uri "OrganisationURI"
    "http://opendatacommunities.org/id/district-council/Aaa"
    (Sample.loaded [Sample.council_a; Sample.council_b] [Sample.patch_override])
  = Return "http://opendatacommunities.org/id/district-council/bbb"
      (Sample.loaded [Sample.council_a; Sample.council_b] [Sample.patch_override]).
Proof. split; vm_compute; reflexivity. Qed.

(** C7, amended.  The resolver lower-cases the value and removes its white
    space, returns the entry of the index for that text, else the entry for
    its end segment, else logs kind opendatacommunities-uri and returns the
    empty text; the end segment is what follows the last slash once the
    trailing slashes are removed.  Consequently, for a row of the reference
    table whose URI and statistical-geography code hold no white space and
    whose three keys are written by no later row of the reference table and
    by no patch row, the resolver returns the lower-cased URI of the row for
    the URI itself, its lower case, its last segment and its code. *)
Theorem C7_resolver :
  (forall field v g,
     normalise_organisation_uri field v g =
       match organisation_uri g !! lower_uri v with
       | Some u => Return u g
       | None =>
           match organisation_uri g !! end_of_uri (lower_uri v) with
           | Some u => Return u g
           | None =>
               Return ""
                 (with_issue g (Issue (row_number g) field "opendatacommunities-uri" v))
           end
       end) /\
  (forall v,
     end_of_uri (lower_uri v) = last_segment (lower_uri v) /\
     no_slash (last_segment (lower_uri v)) = true /\
     exists p, rstrip is_slash (lower_uri v) = p ++ last_segment (lower_uri v) /\
               (p = "" \/ exists p', p = p' ++ "/")) /\
  (forall pre row post patch g g' raw code,
     load_organisations (pre ++ row :: post) patch g = Return tt g' ->
     row !! "opendatacommunities" = Some raw ->
     row !! "statistical-geography" = Some code ->
     no_space raw = true -> no_space code = true ->
     (forall k r, In k (keys_of raw code) -> In r post -> ref_registers k r = false) ->
     (forall k r, In k (keys_of raw code) -> In r patch -> patch_registers k r = false) ->
     forall field v, In v [raw; lower raw; last_segment raw; code] ->
       normalise_organisation_uri field v g' = Return (lower raw) g').
Proof.
  split; [|split].
  - intros field v g. unfold normalise_organisation_uri.
    destruct (organisation_uri g !! lower_uri v); [reflexivity|].
    destruct (organisation_uri g !! end_of_uri (lower_uri v)); reflexivity.
  - intros v. split; [|].
    + rewrite end_of_uri_last_segment. apply lower_no_upper.
      apply last_segment_forallb. unfold lower_uri. apply no_upper_lower.
    + assert (HLF : no_LF (rstrip is_slash (lower_uri v)) = true).
      { apply no_space_no_LF, rstrip_forallb, no_space_lower_uri. }
      destruct (sub_upto_slash_spec _ HLF) as [Hns [p [Hp [_ Htrue]]]].
      split; [exact Hns|]. exists p. split; [exact Hp|].
      destruct (snd (sub_upto_slash (rstrip is_slash (lower_uri v)))) eqn:Hsl.
      * right. apply Htrue. reflexivity.
      * left. destruct (sub_upto_slash_spec _ HLF) as [_ [p2 [Hp2 [Hfalse _]]]].
        rewrite Hsl in Hfalse. specialize (Hfalse eq_refl). subst p2.
        rewrite app_nil_l in Hp2. rewrite Hp2 in Hp at 1.
        destruct p as [|c p]; [reflexivity|].
        apply (f_equal String.length) in Hp. rewrite length_app in Hp. simpl in Hp. lia.
  - intros pre row post patch g g' raw code Hrun Hraw Hcode Hsr Hsc Hpost Hpatch field v Hv.
    assert (Hkey : forall k, In k (keys_of raw code) -> organisation_uri g' !! k = Some (lower raw)).
    { intros k Hk.
      apply (index_entry pre row post patch g g' raw k Hrun Hraw).
      - apply (ref_registers_keys row raw code k Hraw Hcode Hk).
      - intros r Hr. apply Hpost; assumption.
      - intros r Hr. apply Hpatch; assumption. }
    apply resolver_hit.
    destruct Hv as [<-|[<-|[<-|[<-|[]]]]].
    + rewrite (lower_uri_no_space raw Hsr). apply Hkey. left. reflexivity.
    + rewrite lower_uri_no_space by (rewrite no_space_lower; exact Hsr).
      rewrite lower_idem. apply Hkey. left. reflexivity.
    + rewrite (lower_uri_last_segment raw Hsr). rewrite <- end_of_uri_lower.
      apply Hkey. right. left. reflexivity.
    + rewrite (lower_uri_no_space code Hsc). apply Hkey. right. right. left. reflexivity.
Qed.

Lemma C7_resolver_witness :
  normalise_organisation_uri "OrganisationURI" "E07000001"
    (Sample.loaded [Sample.council_a; Sample.council_b] [Sample.patch_name])
  = Return "http://opendatacommunities.org/id/district-council/aaa"
      (Sample.loaded [Sample.council_a; Sample.council_b] [Sample.patch_name]).
Proof.
  refine (proj2 (proj2 C7_resolver) [] Sample.council_a [Sample.council_b]
            [Sample.patch_name] Sample.nothing _
            "http://opendatacommunities.org/id/district-council/Aaa" "E07000001"
            _ _ _ _ _ _ _ "OrganisationURI" "E07000001" _).
  - vm_compute. reflexivity.
  - vm_compute. reflexivity.
  - vm_compute. reflexivity.
  - vm_compute. reflexivity.
  - vm_compute. reflexivity.
  - intros k r Hk [<-|[]]. destruct Hk as [<-|[<-|[<-|[]]]]; vm_compute; reflexivity.
  - intros k r Hk [<-|[]]. destruct Hk as [<-|[<-|[<-|[]]]]; vm_compute; reflexivity.
  - right. right. right. left. reflexivity.
Defined.

End Resolver.

(** ** The Date Normaliser *)

Module Dates.
Import Text Harmonise Notions LoopFacts TextFacts DigitFacts.

Lemma first_date_spec patterns value :
  match first_date patterns value with
  | Some date =>
      exists pre p post,
        patterns = (pre ++ p :: post)%list /\
        Forall (fun q => Strptime.strptime value q = None) pre /\
        Strptime.strptime value p = Some date
  | None => Forall (fun q => Strptime.strptime value q = None) patterns
  end.
Proof.
  induction patterns as [|p ps IH]; simpl.
  - constructor.
  - destruct (Strptime.strptime value p) as [d|] eqn:Hp.
    + exists [], p, ps. repeat split; [constructor | exact Hp].
    + destruct (first_date ps value) as [d|].
      * destruct IH as [pre [q [post [-> [Hpre Hq]]]]].
        exists (p :: pre), q, post. split; [reflexivity|]. split; [|exact Hq].
        constructor; assumption.
      * constructor; assumption.
Qed.

(** The digits of a number with exactly [k] digits. *)
Lemma length_digits_eq (n : N) (k : nat) :
  (1 <= k)%nat -> (10 ^ N.of_nat k <= 10 * n)%N -> (n < 10 ^ N.of_nat k)%N ->
  String.length (digits n) = k.
Proof.
  intros Hk Hlo Hhi.
  pose proof (proj2 (length_digits_le n k Hk) Hhi) as Hle.
  destruct k as [|k]; [lia|]. destruct k as [|k].
  - pose proof (digits_nonempty n). destruct (digits n); [contradiction | simpl in *; lia].
  - pose proof (length_digits_le n (S k) ltac:(lia)) as [Hlt _].
    destruct (Nat.le_gt_cases (String.length (digits n)) (S k)) as [Hc|Hc]; [|lia].
    specialize (Hlt Hc).
    replace (N.of_nat (S (S k))) with (N.succ (N.of_nat (S k))) in Hlo by lia.
    rewrite N.pow_succ_r' in Hlo. lia.
Qed.

Lemma four_digits y :
  1000 <= y <= 9999 ->
  exists a b c d, str_of_Z y = String a (String b (String c (String d ""))) /\
    is_digit a = true /\ is_digit b = true /\ is_digit c = true /\ is_digit d = true.
Proof.
  intros Hy. destruct y as [|p|p]; try lia. simpl str_of_Z.
  pose proof (digits_all_digit (Npos p)) as Hd.
  pose proof (length_digits_eq (Npos p) 4 ltac:(lia)) as Hl.
  change (10 ^ N.of_nat 4)%N with 10000%N in Hl. specialize (Hl ltac:(lia) ltac:(lia)).
  destruct (digits (Npos p)) as [|a [|b [|c [|d [|e r]]]]]; try discriminate Hl.
  exists a, b, c, d. simpl in Hd.
  repeat (apply andb_true_iff in Hd as [? Hd]). repeat split; assumption.
Qed.

Lemma pad2_shape z :
  0 <= z <= 99 ->
  exists a b, Strptime.pad2 z = String a (String b "") /\ is_digit a = true /\ is_digit b = true.
Proof.
  intros Hz. unfold Strptime.pad2.
  destruct (Z.ltb_spec z 10) as [Hlt|Hge].
  - destruct z as [|p|p]; try lia.
    + exists "0"%char, "0"%char. repeat split.
    + simpl str_of_Z. rewrite digits_small by lia.
      exists "0"%char, (digit_char (Npos p)). repeat split.
      apply is_digit_digit_char. lia.
  - destruct z as [|p|p]; try lia. simpl str_of_Z.
    pose proof (digits_all_digit (Npos p)) as Hd.
    pose proof (length_digits_eq (Npos p) 2 ltac:(lia)) as Hl.
    change (10 ^ N.of_nat 2)%N with 100%N in Hl. specialize (Hl ltac:(lia) ltac:(lia)).
    destruct (digits (Npos p)) as [|a [|b [|c r]]]; try discriminate Hl.
    exists a, b. simpl in Hd.
    repeat (apply andb_true_iff in Hd as [? Hd]). repeat split; assumption.
Qed.

(** A date that [strptime] returns passed the checks of the constructor. *)
Lemma strptime_valid value pattern d :
  Strptime.strptime value pattern = Some d ->
  1 <= Strptime.year d <= 9999 /\ 1 <= Strptime.month d <= 12 /\
  1 <= Strptime.day d <= Strptime.days_in_month (Strptime.year d) (Strptime.month d).
Proof.
  unfold Strptime.strptime.
  destruct (Strptime.compile pattern); [|discriminate].
  destruct (Strptime.match_items l value []) as [[found rest]|]; [|discriminate].
  destruct rest; [|discriminate].
  destruct (Strptime.assign_all Strptime.initial found) as [f|]; [|discriminate].
  unfold Strptime.build. destruct f as [y mo da h mi s].
  set (y' := match y with Some v => v | None => _ end).
  destruct (Strptime.valid y' mo da h mi s) eqn:Hv; [|discriminate].
  intros [= <-]. simpl. unfold Strptime.valid in Hv.
  repeat (apply andb_true_iff in Hv as [Hv ?]).
  repeat match goal with H : (_ <=? _) = true |- _ => apply Z.leb_le in H end. lia.
Qed.

Lemma days_in_month_le y m : Strptime.days_in_month y m <= 31.
Proof.
  unfold Strptime.days_in_month.
  destruct (m =? 2); [destruct (Strptime.is_leap y); lia|].
  destruct ((m =? 4) || (m =? 6) || (m =? 9) || (m =? 11)); lia.
Qed.

Lemma first_date_valid patterns value d :
  first_date patterns value = Some d ->
  1 <= Strptime.year d <= 9999 /\ 1 <= Strptime.month d <= 12 /\
  1 <= Strptime.day d <= Strptime.days_in_month (Strptime.year d) (Strptime.month d).
Proof.
  intros H. pose proof (first_date_spec patterns value) as Hs. rewrite H in Hs.
  destruct Hs as [pre [p [post [_ [_ Hp]]]]]. apply (strptime_valid value p d Hp).
Qed.

Lemma strftime_shape strftime_Y d :
  (forall y, 1000 <= y <= 9999 -> strftime_Y y = str_of_Z y) ->
  1000 <= Strptime.year d <= 9999 -> 1 <= Strptime.month d <= 12 ->
  1 <= Strptime.day d <= 31 ->
  iso_shape (Strptime.strftime strftime_Y d) = true.
Proof.
  intros HY Hy Hm Hd. unfold Strptime.strftime. rewrite (HY _ Hy).
  destruct (four_digits _ Hy) as [a [b [c [e [-> [Ha [Hb [Hc He]]]]]]]].
  destruct (pad2_shape (Strptime.month d) ltac:(lia)) as [m1 [m2 [-> [Hm1 Hm2]]]].
  destruct (pad2_shape (Strptime.day d) ltac:(lia)) as [d1 [d2 [-> [Hd1 Hd2]]]].
  repeat (rewrite app_cons || rewrite app_nil_l). unfold iso_shape.
  rewrite Ha, Hb, Hc, He, Hm1, Hm2, Hd1, Hd2. reflexivity.
Qed.

End Dates.

(** ** The Decimal Normaliser *)

Module Rounding.
Import Text Harmonise Notions LoopFacts TextFacts DigitFacts.

Lemma pow10_pos (k : N) : (0 < 10 ^ k)%N.
Proof. pose proof (N.pow_nonzero 10 k). lia. Qed.

Lemma lt_pow_ndigits (c : N) : (c < 10 ^ Z.to_N (ndigits c))%N.
Proof. apply ndigits_le; [apply ndigits_pos | lia]. Qed.

Lemma pow_ndigits_le (c : N) : c <> 0%N -> (10 ^ Z.to_N (ndigits c - 1) <= c)%N.
Proof.
  intros Hc. pose proof (ndigits_pos c) as Hp.
  destruct (Z.eq_dec (ndigits c) 1) as [E|E].
  - rewrite E. simpl. lia.
  - destruct (N.le_gt_cases (10 ^ Z.to_N (ndigits c - 1)) c) as [H|H]; [exact H|].
    apply (ndigits_le c (ndigits c - 1)) in H; lia.
Qed.

Lemma round_half_even_nearest (c : N) (k : Z) :
  0 < k ->
  let p := (10 ^ Z.to_N k)%N in
  let q := Dec.round_half_even c k in
  (2 * q * p <= 2 * c + p)%N /\ (2 * c <= 2 * q * p + p)%N /\
  ((2 * q * p = 2 * c + p)%N \/ (2 * c = 2 * q * p + p)%N -> N.even q = true).
Proof.
  intros Hk p q. subst q. unfold Dec.round_half_even. fold p.
  pose proof (pow10_pos (Z.to_N k)) as Hp. fold p in Hp.
  pose proof (N.div_mod c p ltac:(lia)) as Hdm.
  pose proof (N.mod_lt c p ltac:(lia)) as Hr.
  set (q0 := (c / p)%N) in *. set (r := (c mod p)%N) in *.
  assert (Hmul : forall x, (2 * (x + 1) * p = 2 * x * p + 2 * p)%N) by (intros; lia).
  assert (Hc : (2 * c = 2 * q0 * p + 2 * r)%N) by lia.
  destruct (N.ltb_spec p (2 * r)) as [H1|H1].
  - rewrite Hmul. split; [lia|]. split; [lia|]. intros [H|H]; lia.
  - destruct (N.eqb_spec (2 * r) p) as [H2|H2]; simpl.
    + destruct (N.odd q0) eqn:Hodd.
      * rewrite Hmul. split; [lia|]. split; [lia|]. intros _.
        rewrite N.add_1_r, N.even_succ. exact Hodd.
      * split; [lia|]. split; [lia|]. intros _.
        rewrite <- N.negb_odd, Hodd. reflexivity.
    + split; [lia|]. split; [lia|]. intros [H|H]; lia.
Qed.

Lemma rescale_nearest_even (c : N) (e : Z) : nearest_even c e (Dec.rescale c e (-6)).
Proof.
  unfold nearest_even, Dec.rescale.
  destruct (Z.leb_spec (-6) e) as [He|He].
  - replace (e - -6) with (e + 6) by lia. reflexivity.
  - destruct (Z.ltb_spec (ndigits c + e - -6) 0) as [Hd|Hd].
    + pose proof (lt_pow_ndigits c) as Hc. pose proof (ndigits_pos c) as Hn.
      assert (Hp : (10 * 10 ^ Z.to_N (ndigits c) <= 10 ^ Z.to_N (- 6 - e))%N).
      { rewrite <- N.pow_succ_r'. apply N.pow_le_mono_r; lia. }
      cbv zeta. split; [lia|]. split; [lia|]. intros [H|H]; lia.
    + replace (-6 - e) with (- 6 - e) by lia.
      apply (round_half_even_nearest c (- 6 - e)). lia.
Qed.

Lemma round_half_even_ge (c : N) (k : Z) : (c / 10 ^ Z.to_N k <= Dec.round_half_even c k)%N.
Proof.
  unfold Dec.round_half_even.
  destruct (_ <? _)%N; [lia|]. destruct (_ && _); lia.
Qed.

Lemma rescale_zero (e target : Z) : Dec.rescale 0 e target = 0%N.
Proof.
  unfold Dec.rescale. destruct (_ <=? _); [lia|]. destruct (_ <? _); [reflexivity|].
  unfold Dec.round_half_even. rewrite N.Div0.mod_0_l, N.Div0.div_0_l.
  destruct (N.ltb_spec (10 ^ Z.to_N (target - e)) (2 * 0)) as [H|H]; [lia|].
  rewrite andb_false_r. reflexivity.
Qed.

(** The rounding succeeds as soon as its result has at most 28 digits. *)
Lemma quantize_fits (neg : bool) (c : N) (e : Z) :
  (Dec.rescale c e (-6) < 10 ^ 28)%N ->
  Dec.quantize (Finite neg c e) 6 = Some (Finite neg (Dec.rescale c e (-6)) (-6)).
Proof.
  intros Hq. unfold Dec.quantize.
  change (negb ((Dec.Etiny <=? - (6)) && (- (6) <=? Dec.Emax))) with false. cbv iota.
  change (- (6)) with (-6).
  destruct (N.eqb_spec c 0) as [->|Hc].
  { rewrite rescale_zero. reflexivity. }
  pose proof (pow_ndigits_le c Hc) as Hlo. pose proof (ndigits_pos c) as Hn.
  assert (Hfit : ndigits c + e - -6 <= 28).
  { destruct (Z.le_gt_cases (ndigits c + e - -6) 28) as [H|H]; [exact H|]. exfalso.
    unfold Dec.rescale in Hq.
    destruct (Z.leb_spec (-6) e) as [He|He].
    - assert (H1 : (10 ^ Z.to_N (ndigits c - 1) * 10 ^ Z.to_N (e - -6) <= c * 10 ^ Z.to_N (e - -6))%N)
        by (apply N.mul_le_mono_r; exact Hlo).
      rewrite <- N.pow_add_r in H1.
      assert (H2 : (10 ^ 28 <= 10 ^ (Z.to_N (ndigits c - 1) + Z.to_N (e - -6)))%N)
        by (apply N.pow_le_mono_r; lia).
      lia.
    - destruct (Z.ltb_spec (ndigits c + e - -6) 0) as [Hd|Hd]; [lia|].
      pose proof (round_half_even_ge c (-6 - e)) as Hge.
      assert (H1 : (10 ^ 28 * 10 ^ Z.to_N (-6 - e) <= c)%N).
      { rewrite <- N.pow_add_r. etransitivity; [|exact Hlo]. apply N.pow_le_mono_r; lia. }
      assert (H2 : (10 ^ 28 <= c / 10 ^ Z.to_N (-6 - e))%N).
      { apply N.div_le_lower_bound; [pose proof (pow10_pos (Z.to_N (-6 - e))); lia | lia]. }
      lia. }
  destruct (Z.ltb_spec Dec.Emax (e + ndigits c - 1)) as [H|H]; [unfold Dec.Emax in H; lia|].
  destruct (Z.ltb_spec Dec.prec (ndigits c + e - -6)) as [H'|H']; [unfold Dec.prec in H'; lia|].
  assert (Hnd : ndigits (Dec.rescale c e (-6)) <= 28) by (apply ndigits_le; [lia | exact Hq]).
  destruct (Z.ltb_spec Dec.prec (ndigits (Dec.rescale c e (-6)))) as [H''|H''];
    [unfold Dec.prec in H''; lia | reflexivity].
Qed.

Lemma strip_zeros_spec fuel : forall (c : N) (e : Z),
  c <> 0%N -> (c < 10 ^ N.of_nat fuel)%N -> e + Z.of_nat fuel <= Dec.Emax ->
  let '(c', e') := Dec.strip_zeros fuel c e in
  e <= e' /\ (c' * 10 ^ Z.to_N (e' - e))%N = c /\ (c' mod 10)%N <> 0%N.
Proof.
  induction fuel as [|fuel IH]; intros c e Hc Hlt He.
  - simpl in Hlt. lia.
  - simpl Dec.strip_zeros.
    destruct (N.eqb_spec (c mod 10) 0) as [Hm|Hm]; simpl.
    + destruct (Z.ltb_spec e Dec.Emax) as [Hlt'|Hge]; [|lia].
      pose proof (N.div_mod c 10 ltac:(lia)) as Hdm.
      assert (Hc' : (c / 10)%N <> 0%N) by lia.
      assert (Hlt2 : (c / 10 < 10 ^ N.of_nat fuel)%N).
      { apply N.Div0.div_lt_upper_bound.
        replace (N.of_nat (S fuel)) with (N.succ (N.of_nat fuel)) in Hlt by lia.
        rewrite N.pow_succ_r' in Hlt. exact Hlt. }
      specialize (IH (c / 10)%N (e + 1) Hc' Hlt2 ltac:(lia)).
      destruct (Dec.strip_zeros fuel (c / 10) (e + 1)) as [c' e'].
      destruct IH as [H1 [H2 H3]]. split; [lia|]. split; [|exact H3].
      replace (Z.to_N (e' - e)) with (N.succ (Z.to_N (e' - (e + 1)))) by lia.
      rewrite N.pow_succ_r'. lia.
    + split; [lia|]. split; [|exact Hm]. replace (e - e) with 0 by lia. simpl. lia.
Qed.

Lemma normalize_normal_form (neg : bool) (q : N) :
  (q < 10 ^ 28)%N ->
  exists c' e', Dec.normalize (Finite neg q (-6)) = Some (Finite neg c' e') /\
                normal_form q c' e'.
Proof.
  intros Hq. unfold Dec.normalize.
  destruct (N.eqb_spec q 0) as [->|Hne].
  - exists 0%N, 0. split; [reflexivity|]. left. repeat split.
  - pose proof (ndigits_pos q) as Hn.
    assert (Hnd : ndigits q <= 28) by (apply ndigits_le; [lia | exact Hq]).
    pose proof (strip_zeros_spec (Z.to_nat (ndigits q)) q (-6) Hne) as Hs.
    replace (N.of_nat (Z.to_nat (ndigits q))) with (Z.to_N (ndigits q)) in Hs by lia.
    specialize (Hs (lt_pow_ndigits q) ltac:(unfold Dec.Emax; lia)).
    destruct (Dec.strip_zeros (Z.to_nat (ndigits q)) q (-6)) as [c' e'].
    destruct Hs as [H1 [H2 H3]].
    exists c', e'. split; [reflexivity|]. right.
    replace (e' + 6) with (e' - -6) by lia. repeat split; assumption.
Qed.




(** C10: the value 100 is written [1E+2] by the Decimal Normaliser, whatever
    the field, the precision and the state; and the latitude 50 of an
    accepted pair is written [5E+1] by the Geometry Normaliser. *)
Theorem C10_exponent_notation :
  (forall field precision g,
     normalise_decimal field "100" precision g = Return "1E+2" g) /\
  (forall transform g,
     normalise_geometry transform (Sample.row_of [("GeoX", "0"); ("GeoY", "50")]) g
     = Return (Sample.row_of [("GeoX", "0"); ("GeoY", "5E+1")]) g).
Proof.
  split; intros; vm_compute; reflexivity.
Qed.

End Rounding.

(** ** Reading a number back *)

Module DecFacts.
Import Text Notions TextFacts DigitFacts.
Import Dec.

Ltac digit_cases c H :=
  destruct c as [[] [] [] [] [] [] [] []]; try discriminate H; try reflexivity.

Lemma take_drop (n : nat) : forall s, take n s ++ drop n s = s.
Proof.
  induction n as [|n IH]; intros s; [destruct s; reflexivity|].
  destruct s as [|c s]; [reflexivity|]. simpl take. simpl drop. rewrite app_cons, IH.
  reflexivity.
Qed.

Lemma length_drop (n : nat) : forall s, String.length (drop n s) = (String.length s - n)%nat.
Proof.
  induction n as [|n IH]; intros s; [simpl; lia|].
  destruct s as [|c s]; [reflexivity|]. simpl. apply IH.
Qed.

Lemma length_take (n : nat) : forall s,
  (n <= String.length s)%nat -> String.length (take n s) = n.
Proof.
  induction n as [|n IH]; intros s H; [destruct s; reflexivity|].
  destruct s as [|c s]; [simpl in H; lia|]. simpl in *. rewrite IH; lia.
Qed.

Lemma forallb_take p (n : nat) : forall s,
  forallb_str p s = true -> forallb_str p (take n s) = true.
Proof.
  induction n as [|n IH]; intros s H; [destruct s; reflexivity|].
  destruct s as [|c s]; [reflexivity|]. simpl in *.
  apply andb_true_iff in H as [Hc Hs]. rewrite Hc, (IH s Hs). reflexivity.
Qed.

Lemma forallb_drop p (n : nat) : forall s,
  forallb_str p s = true -> forallb_str p (drop n s) = true.
Proof.
  induction n as [|n IH]; intros s H; [exact H|].
  destruct s as [|c s]; [reflexivity|]. simpl in *.
  apply andb_true_iff in H as [Hc Hs]. apply IH, Hs.
Qed.

Lemma forallb_repeat p c (n : nat) : p c = true -> forallb_str p (repeat_char c n) = true.
Proof. intros H. induction n as [|n IH]; simpl; [reflexivity | rewrite H, IH; reflexivity]. Qed.

Lemma length_repeat c (n : nat) : String.length (repeat_char c n) = n.
Proof. induction n as [|n IH]; simpl; [reflexivity | rewrite IH; reflexivity]. Qed.

Lemma digits_val_zeros (n : nat) : forall s, digits_val (repeat_char "0" n ++ s) 0 = digits_val s 0.
Proof.
  induction n as [|n IH]; intros s; [reflexivity|].
  simpl repeat_char. rewrite app_cons. simpl digits_val. apply IH.
Qed.

Lemma filter_id p (s : string) : forallb_str p s = true -> filter_str p s = s.
Proof.
  induction s as [|c s IH]; simpl; [reflexivity|].
  intros H. apply andb_true_iff in H as [Hc Hs]. rewrite Hc, (IH Hs). reflexivity.
Qed.

Lemma numeric_no_space c : numeric_char c = true -> negb (is_space c) = true.
Proof. intros H. digit_cases c H. Qed.

Lemma numeric_no_underscore c : numeric_char c = true -> negb (Ascii.eqb c "_") = true.
Proof. intros H. digit_cases c H. Qed.

Lemma digit_numeric c : is_digit c = true -> numeric_char c = true.
Proof. intros H. unfold numeric_char. rewrite H. reflexivity. Qed.

Lemma of_string_clean (s : string) :
  forallb_str numeric_char s = true ->
  of_string s =
    let '(neg, s2) := split_sign s in
    match parse_special neg s2 with
    | Some d => Some d
    | None => parse_number neg s2
    end.
Proof.
  intros H. unfold of_string.
  rewrite (strip_none is_space s (forallb_impl _ _ s numeric_no_space H)).
  rewrite (filter_id _ s (forallb_impl _ _ s numeric_no_underscore H)).
  reflexivity.
Qed.

Lemma span_digits_app (ip rest : string) :
  forallb_str is_digit ip = true -> not_digit_head rest ->
  span_digits (ip ++ rest) = (ip, rest).
Proof.
  intros Hip Hrest. induction ip as [|c ip IH].
  - rewrite app_nil_l. destruct rest as [|c r]; [reflexivity|].
    simpl in *. rewrite Hrest. reflexivity.
  - simpl in Hip. apply andb_true_iff in Hip as [Hc Hs].
    rewrite app_cons. simpl. rewrite Hc, (IH Hs). reflexivity.
Qed.

Lemma split_sign_digit c r : is_digit c = true -> split_sign (String c r) = (false, String c r).
Proof. intros H. digit_cases c H. Qed.

Lemma parse_special_digit neg c r : is_digit c = true -> parse_special neg (String c r) = None.
Proof. intros H. digit_cases c H. Qed.

Lemma parse_exponent_exp_str ev :
  parse_exponent (exp_str ev) = Some (Z.of_N (default 0%N ev)).
Proof.
  destruct ev as [x|]; [|reflexivity].
  unfold exp_str, parse_exponent.
  change (Ascii.eqb (lower_char "E") "e") with true. cbv iota.
  change (split_sign (String "+" (digits x))) with (false, digits x).
  cbv iota beta.
  pose proof (span_digits_app (digits x) "" (digits_all_digit x) I) as Hs.
  rewrite app_nil_r in Hs. rewrite Hs.
  pose proof (digits_nonempty x) as Hne.
  destruct (digits x) as [|c r] eqn:E; [contradiction|].
  rewrite <- E, digits_val_digits. reflexivity.
Qed.

Lemma not_digit_head_tail (fp : option string) (ev : option N) :
  not_digit_head (frac_str fp ++ exp_str ev).
Proof. destruct fp, ev; simpl; exact I || reflexivity. Qed.

Lemma parse_number_render neg (ip : string) (fp : option string) (ev : option N) :
  forallb_str is_digit ip = true -> ip <> "" ->
  forallb_str is_digit (default "" fp) = true ->
  parse_number neg (ip ++ frac_str fp ++ exp_str ev)
  = mk_finite neg ip (default "" fp) (Z.of_N (default 0%N ev)).
Proof.
  intros Hip Hne Hfp. unfold parse_number.
  rewrite (span_digits_app ip _ Hip (not_digit_head_tail fp ev)).
  destruct fp as [f|].
  - simpl frac_str. rewrite app_cons. cbv iota beta.
    change (default "" (Some f)) with f in *.
    assert (Hh : not_digit_head (exp_str ev)) by (destruct ev; simpl; exact I || reflexivity).
    rewrite (span_digits_app f _ Hfp Hh).
    destruct (ip ++ f) as [|c r] eqn:E.
    { destruct ip; [contradiction | rewrite app_cons in E; discriminate E]. }
    rewrite parse_exponent_exp_str. reflexivity.
  - simpl frac_str. rewrite app_nil_l. change (default "" None) with "".
    assert (Hm : (let '(fp0, r2) :=
                    match exp_str ev with
                    | String "." r => span_digits r
                    | _ => (EmptyString, exp_str ev)
                    end in
                  match ip ++ fp0 with
                  | EmptyString => None
                  | String _ _ =>
                      match parse_exponent r2 with
                      | Some e => mk_finite neg ip fp0 e
                      | None => None
                      end
                  end)
                 = mk_finite neg ip "" (Z.of_N (default 0%N ev))).
    { assert (Hsel : match exp_str ev with
                     | String "." r => span_digits r
                     | _ => (EmptyString, exp_str ev)
                     end = (EmptyString, exp_str ev)) by (destruct ev; reflexivity).
      rewrite Hsel. rewrite app_nil_r.
      destruct ip as [|c r]; [contradiction|].
      rewrite parse_exponent_exp_str. reflexivity. }
    exact Hm.
Qed.

Lemma numeric_render neg (ip : string) (fp : option string) (ev : option N) :
  forallb_str is_digit ip = true -> forallb_str is_digit (default "" fp) = true ->
  forallb_str numeric_char (sign_str neg ++ ip ++ frac_str fp ++ exp_str ev) = true.
Proof.
  intros Hip Hfp. rewrite !forallb_app.
  rewrite (forallb_impl _ _ ip digit_numeric Hip).
  assert (H1 : forallb_str numeric_char (sign_str neg) = true) by (destruct neg; reflexivity).
  assert (H2 : forallb_str numeric_char (frac_str fp) = true).
  { destruct fp as [f|]; [|reflexivity]. simpl in *.
    apply (forallb_impl _ _ f digit_numeric Hfp). }
  assert (H3 : forallb_str numeric_char (exp_str ev) = true).
  { destruct ev as [x|]; [|reflexivity]. simpl.
    apply (forallb_impl _ _ _ digit_numeric (digits_all_digit x)). }
  rewrite H1, H2, H3. reflexivity.
Qed.

(** A sign, digits, an optional fraction and an optional exponent are read
    as the number they write. *)
Lemma of_string_render neg (ip : string) (fp : option string) (ev : option N) :
  forallb_str is_digit ip = true -> ip <> "" ->
  forallb_str is_digit (default "" fp) = true ->
  of_string (sign_str neg ++ ip ++ frac_str fp ++ exp_str ev)
  = mk_finite neg ip (default "" fp) (Z.of_N (default 0%N ev)).
Proof.
  intros Hip Hne Hfp.
  rewrite (of_string_clean _ (numeric_render neg ip fp ev Hip Hfp)).
  destruct ip as [|c ip'] eqn:E; [contradiction|]. rewrite <- E in *.
  assert (Hc : is_digit c = true).
  { rewrite E in Hip. simpl in Hip. apply andb_true_iff in Hip. tauto. }
  assert (Hsplit : split_sign (sign_str neg ++ ip ++ frac_str fp ++ exp_str ev)
                   = (neg, ip ++ frac_str fp ++ exp_str ev)).
  { destruct neg; [reflexivity|]. rewrite app_nil_l. rewrite E, app_cons.
    apply split_sign_digit, Hc. }
  rewrite Hsplit. cbv iota beta.
  assert (Hsp : parse_special neg (ip ++ frac_str fp ++ exp_str ev) = None).
  { rewrite E, app_cons. apply parse_special_digit, Hc. }
  rewrite Hsp. apply parse_number_render; assumption.
Qed.

End DecFacts.

(** ** Writing a number *)

Module DecRender.
Import Text Notions TextFacts DigitFacts DecFacts.
Import Dec.

Lemma str_of_Z_pos z : 0 < z -> str_of_Z z = digits (Z.to_N z).
Proof. intros H. destruct z; try lia. reflexivity. Qed.

Lemma signed_str_pos z : 0 < z -> signed_str z = String "+" (digits (Z.to_N z)).
Proof.
  intros H. unfold signed_str. destruct (Z.ltb_spec z 0); [lia|].
  rewrite (str_of_Z_pos z H). reflexivity.
Qed.

(** How [str] lays out a finite number whose exponent is at least -6. *)
Lemma to_string_render neg c e :
  -6 <= e ->
  exists ip fp ev,
    to_string (Finite neg c e) = sign_str neg ++ ip ++ frac_str fp ++ exp_str ev /\
    forallb_str is_digit ip = true /\ ip <> "" /\
    forallb_str is_digit (default "" fp) = true /\
    digits_val (ip ++ default "" fp) 0 = c /\
    Z.of_N (default 0%N ev) - Z.of_nat (String.length (default "" fp)) = e.
Proof.
  intros He. unfold to_string.
  pose proof (digits_all_digit c) as Hd. pose proof (digits_nonempty c) as Hne.
  pose proof (digits_val_digits c) as Hv.
  set (ds := digits c) in *. set (len := Z.of_nat (String.length ds)).
  assert (Hlen : 1 <= len).
  { subst len. destruct ds; [contradiction | simpl; lia]. }
  cbv zeta.
  destruct (Z.leb_spec e 0) as [He0|He0].
  - destruct (Z.ltb_spec (-6) (e + len)) as [_|H]; [|lia]. simpl andb. cbv iota.
    destruct (Z.leb_spec (e + len) 0) as [Hdp|Hdp].
    + rewrite Z.eqb_refl.
      exists "0", (Some (repeat_char "0" (Z.to_nat (- (e + len))) ++ ds)), None.
      split; [reflexivity|].
      split; [reflexivity|]. split; [discriminate|].
      change (default "" (Some ?x)) with x.
      split; [rewrite forallb_app, Hd, forallb_repeat; reflexivity|].
      split.
      * change ("0" ++ ?x) with (String "0" x). simpl digits_val.
        rewrite digits_val_zeros. exact Hv.
      * rewrite length_app, length_repeat. simpl default. fold len. lia.
    + rewrite Z.eqb_refl.
      destruct (Z.leb_spec len (e + len)) as [Hl|Hl].
      * exists (ds ++ repeat_char "0" (Z.to_nat (e + len - len))), None, None.
        split; [reflexivity|].
        replace (e + len - len) with 0 by lia. simpl repeat_char.
        rewrite !app_nil_r. split; [exact Hd|]. split; [exact Hne|].
        split; [reflexivity|]. split; [exact Hv|]. simpl. lia.
      * exists (take (Z.to_nat (e + len)) ds), (Some (drop (Z.to_nat (e + len)) ds)), None.
        split; [reflexivity|].
        split; [apply forallb_take, Hd|].
        split.
        { intros E. apply (f_equal String.length) in E.
          rewrite length_take in E by (subst len; lia). simpl in E. lia. }
        change (default "" (Some ?x)) with x.
        split; [apply forallb_drop, Hd|].
        split; [rewrite take_drop; exact Hv|].
        rewrite length_drop. simpl default. fold len. lia.
  - simpl andb. cbv iota.
    destruct (Z.leb_spec 1 0) as [H|_]; [lia|].
    destruct (Z.eqb_spec (e + len) 1) as [H|_]; [lia|].
    rewrite (signed_str_pos (e + len - 1)) by lia.
    destruct (Z.leb_spec len 1) as [Hl|Hl].
    + exists (ds ++ repeat_char "0" (Z.to_nat (1 - len))), None, (Some (Z.to_N (e + len - 1))).
      split; [reflexivity|].
      replace (1 - len) with 0 by lia. simpl repeat_char.
      rewrite !app_nil_r. split; [exact Hd|]. split; [exact Hne|].
      split; [reflexivity|]. split; [exact Hv|]. simpl. lia.
    + exists (take (Z.to_nat 1) ds), (Some (drop (Z.to_nat 1) ds)), (Some (Z.to_N (e + len - 1))).
      split; [reflexivity|].
      split; [apply forallb_take, Hd|].
      split.
      { intros E. apply (f_equal String.length) in E.
        rewrite length_take in E by (subst len; lia). simpl in E. lia. }
      change (default "" (Some ?x)) with x.
      split; [apply forallb_drop, Hd|].
      split; [rewrite take_drop; exact Hv|].
      rewrite length_drop. simpl default. fold len. lia.
Qed.

(** [Decimal(str(d)) == d], with the same exponent, for a finite [d] whose
    exponent is between -6 and the limits of the conversion. *)
Lemma of_string_to_string neg c e :
  -6 <= e -> e + ndigits c - 1 <= MAX_EMAX ->
  of_string (to_string (Finite neg c e)) = Some (Finite neg c e).
Proof.
  intros He Hmax.
  destruct (to_string_render neg c e He) as [ip [fp [ev [-> [Hip [Hne [Hfp [Hv Hx]]]]]]]].
  rewrite (of_string_render neg ip fp ev Hip Hne Hfp).
  unfold mk_finite. rewrite Hv, Hx.
  destruct (Z.leb_spec MIN_ETINY e) as [_|H]; [|unfold MIN_ETINY in H; lia].
  destruct (Z.leb_spec (e + ndigits c - 1) MAX_EMAX) as [_|H]; [reflexivity | lia].
Qed.

Lemma parse_special_nan neg t :
  parse_special neg ("NaN" ++ t)
  = if forallb_str is_digit (lower t)
    then Some (NaN neg false (digits_val (lower t) 0)) else None.
Proof.
  change ("NaN" ++ t) with (String "N" (String "a" (String "N" t))).
  unfold parse_special. cbv zeta.
  change (lower (String "N" (String "a" (String "N" t))))
    with (String "n" (String "a" (String "n" (lower t)))).
  assert (Hp : String.prefix "nan" (String "n" (String "a" (String "n" (lower t)))) = true)
    by (destruct (lower t); reflexivity).
  rewrite Hp. reflexivity.
Qed.

(** A quiet NaN is read back with its payload. *)
Lemma of_string_to_string_nan neg p :
  of_string (to_string (NaN neg false p)) = Some (NaN neg false p).
Proof.
  unfold to_string.
  assert (Hnum : forallb_str numeric_char
                   (sign_str neg ++ "NaN" ++ (if (p =? 0)%N then "" else digits p)) = true).
  { rewrite !forallb_app.
    assert (H1 : forallb_str numeric_char (sign_str neg) = true) by (destruct neg; reflexivity).
    assert (H2 : forallb_str numeric_char (if (p =? 0)%N then "" else digits p) = true).
    { destruct (p =? 0)%N; [reflexivity|].
      apply (forallb_impl _ _ _ digit_numeric (digits_all_digit p)). }
    rewrite H1, H2. reflexivity. }
  rewrite (of_string_clean _ Hnum).
  assert (Hsplit : split_sign (sign_str neg ++ "NaN" ++ (if (p =? 0)%N then "" else digits p))
                   = (neg, "NaN" ++ (if (p =? 0)%N then "" else digits p)))
    by (destruct neg; reflexivity).
  rewrite Hsplit. cbv iota beta.
  set (t := if (p =? 0)%N then "" else digits p).
  assert (Ht : forallb_str is_digit t = true /\ digits_val t 0 = p).
  { subst t. destruct (N.eqb_spec p 0) as [E|Hp]; [rewrite E; split; reflexivity|].
    split; [apply digits_all_digit | apply digits_val_digits]. }
  destruct Ht as [Ht1 Ht2].
  assert (Hl : lower t = t).
  { apply lower_no_upper. revert Ht1. apply forallb_impl.
    intros c H. digit_cases c H. }
  rewrite (parse_special_nan neg t), Hl, Ht1, Ht2. reflexivity.
Qed.

End DecRender.

(** ** Values that normalise to themselves *)

Module FixedPoints.
Import Text Harmonise Notions LoopFacts TextFacts DigitFacts DecFacts DecRender Rounding.

Lemma not_null_digit c r : is_digit c = true -> is_null (String c r) = false.
Proof. intros H. digit_cases c H. Qed.

Lemma not_null_minus_digit c r : is_digit c = true -> is_null (String "-" (String c r)) = false.
Proof. intros H. digit_cases c H. Qed.

Lemma not_null_nan neg t : is_null (Dec.sign_str neg ++ "NaN" ++ t) = false.
Proof. destruct neg; reflexivity. Qed.

Lemma str_of_Z_head z :
  (exists c r, str_of_Z z = String c r /\ is_digit c = true /\ forallb_str is_digit r = true) \/
  (exists c r, str_of_Z z = String "-" (String c r) /\ is_digit c = true
               /\ forallb_str is_digit r = true).
Proof.
  destruct z as [|p|p].
  - left. exists "0"%char, "". repeat split.
  - left. simpl. pose proof (digits_all_digit (Npos p)) as Hd.
    pose proof (digits_nonempty (Npos p)) as Hne.
    destruct (digits (Npos p)) as [|c r]; [contradiction|].
    simpl in Hd. apply andb_true_iff in Hd as [Hc Hr]. exists c, r. repeat split; assumption.
  - right. simpl. pose proof (digits_all_digit (Npos p)) as Hd.
    pose proof (digits_nonempty (Npos p)) as Hne.
    destruct (digits (Npos p)) as [|c r]; [contradiction|].
    simpl in Hd. apply andb_true_iff in Hd as [Hc Hr]. exists c, r. repeat split; assumption.
Qed.


Lemma sub_dot_zeros_id (s : string) :
  forallb_str (fun c => negb (Ascii.eqb c ".")) s = true -> sub_dot_zeros s = s.
Proof.
  induction s as [|c s IH]; simpl; [reflexivity|].
  intros H. apply andb_true_iff in H as [Hc Hs]. apply negb_true_iff in Hc.
  rewrite Hc, (IH Hs). reflexivity.
Qed.

Lemma digit_not_dot c : is_digit c = true -> negb (Ascii.eqb c ".") = true.
Proof. intros H. digit_cases c H. Qed.

Lemma sub_dot_zeros_str_of_Z z : sub_dot_zeros (str_of_Z z) = str_of_Z z.
Proof.
  apply sub_dot_zeros_id.
  destruct (str_of_Z_head z) as [[c [r [-> [Hc Hr]]]]|[c [r [-> [Hc Hr]]]]]; simpl;
    rewrite (digit_not_dot c Hc), (forallb_impl _ _ r digit_not_dot Hr); reflexivity.
Qed.

(** The Integer Normaliser returns what it is given when that is the text
    of an integer. *)
Lemma normalise_integer_fixed field z g :
  ndigits (Z.abs_N z) <= 4300 ->
  normalise_integer field (str_of_Z z) g = Return (str_of_Z z) g.
Proof.
  intros Hz. unfold normalise_integer.
  rewrite sub_dot_zeros_str_of_Z, (of_string_str_of_Z z Hz). reflexivity.
Qed.


(** What the rounding returns. *)
Lemma quantize_result d qd :
  Dec.quantize d 6 = Some qd ->
  (exists neg p, d = NaN neg false p /\ qd = NaN neg false (p mod 10 ^ 28)%N) \/
  (exists neg c e, d = Finite neg c e /\ qd = Finite neg (Dec.rescale c e (-6)) (-6)
                   /\ (Dec.rescale c e (-6) < 10 ^ 28)%N).
Proof.
  destruct d as [neg c e|neg|neg sig p]; unfold Dec.quantize.
  - change (negb ((Dec.Etiny <=? - (6)) && (- (6) <=? Dec.Emax))) with false. cbv iota.
    change (- (6)) with (-6).
    destruct (N.eqb_spec c 0) as [->|Hc].
    + intros [= <-]. right. exists neg, 0%N, e. rewrite rescale_zero.
      split; [reflexivity|]. split; reflexivity.
    + destruct (Dec.Emax <? e + ndigits c - 1); [discriminate|].
      destruct (Dec.prec <? ndigits c + e - -6); [discriminate|].
      destruct (Z.ltb_spec Dec.prec (ndigits (Dec.rescale c e (-6)))) as [H|H]; [discriminate|].
      intros [= <-]. right. exists neg, c, e.
      split; [reflexivity|]. split; [reflexivity|].
      apply (ndigits_le _ 28); [lia | exact H].
  - discriminate.
  - destruct sig; [discriminate|]. intros [= <-]. left. exists neg, p. split; reflexivity.
Qed.

Lemma normal_form_bounds q c' e' :
  (q < 10 ^ 28)%N -> normal_form q c' e' -> -6 <= e' /\ e' + ndigits c' - 1 <= Dec.MAX_EMAX.
Proof.
  intros Hq [[-> [-> ->]]|[Hq0 [He [Hm Hc]]]].
  - split; [lia|]. vm_compute. discriminate.
  - split; [exact He|].
    assert (Hc0 : c' <> 0%N) by (intros ->; rewrite N.Div0.mod_0_l in Hc; contradiction).
    pose proof (pow10_pos (Z.to_N (e' + 6))) as Hp.
    assert (He28 : e' + 6 < 28).
    { destruct (Z.lt_ge_cases (e' + 6) 28) as [H|H]; [exact H|]. exfalso.
      assert (H2 : (10 ^ 28 <= 10 ^ Z.to_N (e' + 6))%N) by (apply N.pow_le_mono_r; lia).
      set (P := (10 ^ Z.to_N (e' + 6))%N) in *.
      assert (H3 : (1 * P <= c' * P)%N) by (apply N.mul_le_mono_r; lia).
      lia. }
    assert (Hcq : (c' <= q)%N).
    { set (P := (10 ^ Z.to_N (e' + 6))%N) in *.
      assert (H3 : (c' * 1 <= c' * P)%N) by (apply N.mul_le_mono_l; lia).
      lia. }
    assert (Hnd : ndigits c' <= 28).
    { apply ndigits_le; [lia|]. change (Z.to_N 28) with 28%N. lia. }
    unfold Dec.MAX_EMAX. lia.
Qed.

(** The text of a rounded and normalised number is read back as that
    number, and rounds to the same. *)
Lemma rounded_fixed d qd d' :
  Dec.quantize d 6 = Some qd -> Dec.normalize qd = Some d' ->
  Dec.of_string (Dec.to_string d') = Some d' /\ Dec.quantize d' 6 = Some qd /\
  is_null (Dec.to_string d') = false.
Proof.
  intros Hq Hn.
  destruct (quantize_result d qd Hq) as [[neg [p [-> ->]]]|[neg [c [e [-> [-> Hlt]]]]]].
  - unfold Dec.normalize, Dec.fix_nan in Hn. rewrite N.Div0.mod_mod in Hn.
    injection Hn as <-.
    split; [apply of_string_to_string_nan|]. split.
    + unfold Dec.quantize, Dec.fix_nan. rewrite N.Div0.mod_mod. reflexivity.
    + unfold Dec.to_string. apply not_null_nan.
  - destruct (normalize_normal_form neg _ Hlt) as [c' [e' [Hn' Hnf]]].
    rewrite Hn' in Hn. injection Hn as <-.
    destruct (normal_form_bounds _ _ _ Hlt Hnf) as [He Hmax].
    split; [apply of_string_to_string; assumption|]. split.
    + destruct Hnf as [[Hq0 [-> ->]]|[Hq0 [_ [Hm Hc]]]].
      * rewrite Hq0. reflexivity.
      * assert (Hr : Dec.rescale c' e' (-6) = Dec.rescale c e (-6)).
        { unfold Dec.rescale at 1. destruct (Z.leb_spec (-6) e'); [|lia].
          replace (e' - -6) with (e' + 6) by lia. exact Hm. }
        rewrite <- Hr. apply quantize_fits. rewrite Hr. exact Hlt.
    + destruct (to_string_render neg c' e' He) as [ip [fp [ev [-> [Hip [Hne _]]]]]].
      destruct ip as [|a ip']; [contradiction|].
      simpl in Hip. apply andb_true_iff in Hip as [Ha _].
      rewrite app_cons. destruct neg.
      * apply not_null_minus_digit, Ha.
      * apply not_null_digit, Ha.
Qed.



End FixedPoints.

(** ** A written date is read back *)

Module DateFacts.
Import Text Harmonise Notions LoopFacts TextFacts DigitFacts DecFacts Dates FixedPoints.

Lemma between_cases (P : Z -> Prop) (lo : Z) (n : nat) :
  (forall k, (k < n)%nat -> P (lo + Z.of_nat k)) ->
  forall z, lo <= z < lo + Z.of_nat n -> P z.
Proof.
  intros H z Hz. replace z with (lo + Z.of_nat (Z.to_nat (z - lo))) by lia.
  apply H. lia.
Qed.

Lemma range_check (b : Z -> bool) (lo : Z) (n : nat) :
  forallb (fun k => b (lo + Z.of_nat k)) (seq 0 n) = true ->
  forall z, lo <= z < lo + Z.of_nat n -> b z = true.
Proof.
  intros H. apply (between_cases (fun z => b z = true)). intros k Hk.
  rewrite forallb_forall in H. apply H, in_seq. lia.
Qed.

Lemma pad2_read z : 1 <= z <= 31 -> PyInt.of_string (Strptime.pad2 z) = Some z.
Proof.
  intros Hz.
  assert (H : (match PyInt.of_string (Strptime.pad2 z) with
               | Some r => Z.eqb r z | None => false end) = true).
  { apply (range_check (fun z => match PyInt.of_string (Strptime.pad2 z) with
                                 | Some r => Z.eqb r z | None => false end) 1 31); [|lia].
    vm_compute. reflexivity. }
  destruct (PyInt.of_string (Strptime.pad2 z)); [|discriminate H].
  apply Z.eqb_eq in H. congruence.
Qed.

(** The month and the day, written with two digits each, are matched by
    [%m-%d] whatever was found before. *)
Lemma month_day_match m d :
  1 <= m <= 12 -> 1 <= d <= 31 ->
  forall found,
    Strptime.match_items month_day_items (Strptime.pad2 m ++ "-" ++ Strptime.pad2 d) found
    = Some ((found ++ [(Strptime.dm, Strptime.pad2 m)]) ++ [(Strptime.dd, Strptime.pad2 d)],
            "")%list.
Proof.
  intros Hm Hd.
  assert (Em : m = 1 \/ m = 2 \/ m = 3 \/ m = 4 \/ m = 5 \/ m = 6 \/ m = 7 \/ m = 8
               \/ m = 9 \/ m = 10 \/ m = 11 \/ m = 12) by lia.
  assert (Ed : (d = 1 \/ d = 2 \/ d = 3 \/ d = 4 \/ d = 5 \/ d = 6 \/ d = 7 \/ d = 8
                \/ d = 9 \/ d = 10)
               \/ (d = 11 \/ d = 12 \/ d = 13 \/ d = 14 \/ d = 15 \/ d = 16 \/ d = 17
                   \/ d = 18 \/ d = 19 \/ d = 20)
               \/ (d = 21 \/ d = 22 \/ d = 23 \/ d = 24 \/ d = 25 \/ d = 26 \/ d = 27
                   \/ d = 28 \/ d = 29 \/ d = 30 \/ d = 31)) by lia.
  clear Hm Hd.
  repeat (destruct Em as [Em|Em]); repeat (destruct Ed as [Ed|Ed]);
    rewrite Em, Ed; intros found; vm_compute; reflexivity.
Qed.

Lemma match_four a b c e rest :
  is_digit a = true -> is_digit b = true -> is_digit c = true -> is_digit e = true ->
  Strptime.match_cls [Strptime.digit; Strptime.digit; Strptime.digit; Strptime.digit]
    (String a (String b (String c (String e rest))))
  = Some (String a (String b (String c (String e ""))), rest).
Proof.
  intros Ha Hb Hc He. simpl. unfold Strptime.digit. rewrite Ha, Hb, Hc, He. reflexivity.
Qed.

Lemma valid_date y m d :
  1 <= y <= 9999 -> 1 <= m <= 12 -> 1 <= d <= Strptime.days_in_month y m ->
  Strptime.valid y m d 0 0 0 = true.
Proof.
  intros Hy Hm Hd. unfold Strptime.valid.
  repeat (apply andb_true_iff; split); apply Z.leb_le; lia.
Qed.

(** [strptime(d.strftime("%Y-%m-%d"), "%Y-%m-%d")] is [d] again, for a
    year that is written with four digits. *)
Lemma strptime_strftime strftime_Y d :
  (forall y, 1000 <= y <= 9999 -> strftime_Y y = str_of_Z y) ->
  1000 <= Strptime.year d <= 9999 -> 1 <= Strptime.month d <= 12 ->
  1 <= Strptime.day d <= Strptime.days_in_month (Strptime.year d) (Strptime.month d) ->
  Strptime.strptime (Strptime.strftime strftime_Y d) "%Y-%m-%d" = Some d.
Proof.
  intros HY Hy Hm Hd. destruct d as [y m dd]. simpl in Hy, Hm, Hd.
  pose proof (days_in_month_le y m) as Hle.
  unfold Strptime.strftime. simpl Strptime.year. simpl Strptime.month. simpl Strptime.day.
  rewrite (HY y Hy).
  assert (Hyear : PyInt.of_string (str_of_Z y) = Some y).
  { apply of_string_str_of_Z. apply (ndigits_le (Z.abs_N y) 4300); [lia|].
    apply (N.lt_le_trans _ (10 ^ 4)%N); [change (10 ^ 4)%N with 10000%N; lia|].
    apply N.pow_le_mono_r; lia. }
  destruct (four_digits y Hy) as [a [b [c [e [E [Ha [Hb [Hc He]]]]]]]].
  rewrite E in *.
  unfold Strptime.strptime.
  change (Strptime.compile "%Y-%m-%d")
    with (Some (Strptime.Dir Strptime.dY :: Strptime.Lit "-" :: month_day_items)).
  cbv iota beta.
  assert (Hmatch :
    Strptime.match_items
      (Strptime.Dir Strptime.dY :: Strptime.Lit "-" :: month_day_items)
      (String a (String b (String c (String e "")))
         ++ "-" ++ Strptime.pad2 m ++ "-" ++ Strptime.pad2 dd) []
    = Some ([(Strptime.dY, String a (String b (String c (String e ""))));
             (Strptime.dm, Strptime.pad2 m); (Strptime.dd, Strptime.pad2 dd)], "")).
  { rewrite !app_cons, app_nil_l.
    change (Strptime.match_items (Strptime.Dir Strptime.dY :: ?rest) ?s ?f)
      with (Strptime.first_alt (Strptime.regex_of Strptime.dY) s
              (fun t s' => Strptime.match_items rest s' (f ++ [(Strptime.dY, t)]))).
    change (Strptime.regex_of Strptime.dY)
      with [[Strptime.digit; Strptime.digit; Strptime.digit; Strptime.digit]].
    unfold Strptime.first_alt.
    rewrite (match_four a b c e _ Ha Hb Hc He).
    change ("-" ++ ?x) with (String "-" x).
    change (Strptime.match_items (Strptime.Lit "-" :: month_day_items) (String "-" ?s) ?f)
      with (Strptime.match_items month_day_items s f).
    rewrite (month_day_match m dd Hm ltac:(lia)). reflexivity. }
  rewrite Hmatch.
  unfold Strptime.assign_all, Strptime.assign, Strptime.initial.
  rewrite Hyear, (pad2_read m ltac:(lia)), (pad2_read dd ltac:(lia)).
  unfold Strptime.build. rewrite (valid_date y m dd ltac:(lia) Hm Hd). reflexivity.
Qed.

Lemma shape_length s : iso_shape s = true -> String.length s = 10%nat.
Proof.
  unfold iso_shape.
  destruct s as [|? [|? [|? [|? [|? [|? [|? [|? [|? [|? [|? ?]]]]]]]]]]]; try discriminate.
  reflexivity.
Qed.

Lemma shape_chars s :
  iso_shape s = true ->
  forallb_str (fun c => is_digit c || Ascii.eqb c "-") s = true.
Proof.
  unfold iso_shape.
  destruct s as [|y1 [|y2 [|y3 [|y4 [|h1 [|m1 [|m2 [|h2 [|d1 [|d2 [|? ?]]]]]]]]]]];
    try discriminate.
  intros H. do 9 (apply andb_true_iff in H as [H ?]).
  simpl. repeat match goal with Hx : _ = true |- _ => rewrite Hx; clear Hx end.
  rewrite ?orb_true_r. reflexivity.
Qed.

Lemma date_char_not_trimmed c :
  is_digit c || Ascii.eqb c "-" = true -> negb (date_trim c) = true.
Proof. intros H. digit_cases c H. Qed.

Lemma null_length s : is_null s = true -> (String.length s <= 6)%nat.
Proof.
  unfold is_null, string_in, null_values. intros H.
  assert (Hl : String.length (lower s) = String.length s).
  { clear H. induction s as [|c s IH]; simpl; [reflexivity | rewrite IH; reflexivity]. }
  rewrite <- Hl. simpl in H.
  repeat (apply orb_true_iff in H as [H|H];
          [apply String.eqb_eq in H; rewrite H; simpl; lia|]).
  discriminate H.
Qed.

(** The Date Normaliser returns what it is given when that is one of its
    results for a year from 1000 on. *)
Lemma normalise_date_fixed strftime_Y context d g :
  (forall y, 1000 <= y <= 9999 -> strftime_Y y = str_of_Z y) ->
  1000 <= Strptime.year d <= 9999 -> 1 <= Strptime.month d <= 12 ->
  1 <= Strptime.day d <= Strptime.days_in_month (Strptime.year d) (Strptime.month d) ->
  is_null (Strptime.strftime strftime_Y d) = false /\
  normalise_date strftime_Y context (Strptime.strftime strftime_Y d) g
  = Return (Strptime.strftime strftime_Y d) g.
Proof.
  intros HY Hy Hm Hd.
  pose proof (days_in_month_le (Strptime.year d) (Strptime.month d)) as Hle.
  pose proof (strftime_shape strftime_Y d HY Hy Hm ltac:(lia)) as Hshape.
  split.
  - destruct (is_null (Strptime.strftime strftime_Y d)) eqn:E; [|reflexivity].
    apply null_length in E. rewrite (shape_length _ Hshape) in E. lia.
  - unfold normalise_date. fold date_trim.
    rewrite (strip_none date_trim _
               (forallb_impl _ _ _ date_char_not_trimmed (shape_chars _ Hshape))).
    unfold date_patterns.
    match goal with
    | |- context [first_date (?p :: ?rest) ?v] =>
        change (first_date (p :: rest) v)
          with (match Strptime.strptime v p with
                | Some date => Some date
                | None => first_date rest v
                end)
    end.
    rewrite (strptime_strftime strftime_Y d HY Hy Hm Hd). reflexivity.
Qed.

End DateFacts.

(** ** Idempotence *)

Module Idempotence.
Import Text Harmonise Notions LoopFacts TextFacts DigitFacts DecFacts Dates FixedPoints DateFacts.





(** Where [%Y] is written without leading zeros, as the GNU C library
    does, a year before 1000 is not read back. *)
Lemma early_year_not_read_back :
  normalise Sample.schema Sample.sub_literal Sample.url_with_scheme str_of_Z
    "FirstAddedDate" "0999-01-01" (Sample.in_loop "FirstAddedDate")
  = Return "999-01-01" (Sample.in_loop "FirstAddedDate")
  /\
  normalise Sample.schema Sample.sub_literal Sample.url_with_scheme str_of_Z
    "FirstAddedDate" "999-01-01" (Sample.in_loop "FirstAddedDate")
  = Return ""
      (Globals ∅ [Issue 1 "FirstAddedDate" "date" "999-01-01"] 1 (Some "FirstAddedDate")).
Proof. split; vm_compute; reflexivity. Qed.



End Idempotence.

(** ** Keys of the index *)

Module UriProperties.
Import Text Harmonise Notions LoopFacts TextFacts UriFacts.

Lemma no_slash_sub_upto_slash (s : string) : no_slash (fst (sub_upto_slash s)) = true.
Proof.
  unfold no_slash, is_slash.
  induction s as [|c s IH]; simpl; [reflexivity|].
  destruct (sub_upto_slash s) as [out slash]. simpl in IH.
  destruct (Ascii.eqb c LF) eqn:ELF.
  - simpl. rewrite IH.
    apply Ascii.eqb_eq in ELF. subst c. reflexivity.
  - destruct (Ascii.eqb c "/") eqn:Esl; [exact IH|].
    destruct slash; [exact IH|]. simpl. rewrite Esl, IH. reflexivity.
Qed.

Lemma sub_upto_slash_no_slash (s : string) :
  no_slash s = true -> sub_upto_slash s = (s, false).
Proof.
  unfold no_slash, is_slash.
  induction s as [|c s IH]; simpl; [reflexivity|].
  intros H. apply andb_true_iff in H as [Hc Hs]. apply negb_true_iff in Hc.
  rewrite (IH Hs), Hc. destruct (Ascii.eqb c LF); reflexivity.
Qed.

Lemma rstrip_app_one p (s : string) (c : ascii) :
  p c = true -> rstrip p (s ++ String c "") = rstrip p s.
Proof.
  intros Hc. unfold rstrip.
  induction s as [|a s IH].
  - simpl. rewrite Hc. reflexivity.
  - rewrite app_cons. simpl. rewrite IH. reflexivity.
Qed.

Lemma no_upper_sub_upto_slash (s : string) :
  no_upper s = true -> no_upper (fst (sub_upto_slash s)) = true.
Proof. apply sub_upto_slash_forallb. Qed.

Lemma no_upper_end_of_uri v : no_upper (end_of_uri v) = true.
Proof. unfold end_of_uri. apply no_upper_sub_upto_slash, no_upper_lower. Qed.

Lemma no_slash_end_of_uri v : no_slash (end_of_uri v) = true.
Proof. unfold end_of_uri. apply no_slash_sub_upto_slash. Qed.

(** X1: [lower_uri] gives a canonical key: its result holds no white space
    and no capital letter, and [lower_uri] leaves it as it is. *)
Theorem X1_lower_uri_canonical :
  forall v,
    no_space (lower_uri v) = true /\
    no_upper (lower_uri v) = true /\
    lower_uri (lower_uri v) = lower_uri v.
Proof.
  intros v. unfold lower_uri. split; [|split].
  - rewrite no_space_lower. apply no_space_join_split.
  - apply no_upper_lower.
  - rewrite (join_split_no_space (lower (join_split v))).
    + apply lower_idem.
    + rewrite no_space_lower. apply no_space_join_split.
Qed.

(** X2: the result of [end_of_uri] holds no slash and no capital letter,
    [end_of_uri] leaves it as it is, and one more slash at the end of the
    value does not change it. *)
Theorem X2_end_of_uri_segment :
  forall v,
    no_slash (end_of_uri v) = true /\
    no_upper (end_of_uri v) = true /\
    end_of_uri (end_of_uri v) = end_of_uri v /\
    end_of_uri (v ++ "/") = end_of_uri v.
Proof.
  intros v. split; [apply no_slash_end_of_uri|]. split; [apply no_upper_end_of_uri|]. split.
  - unfold end_of_uri at 1.
    rewrite (rstrip_none _ (end_of_uri v)) by apply no_slash_end_of_uri.
    rewrite (lower_no_upper _ (no_upper_end_of_uri v)).
    rewrite (sub_upto_slash_no_slash _ (no_slash_end_of_uri v)). reflexivity.
  - unfold end_of_uri. rewrite rstrip_app_one by reflexivity. reflexivity.
Qed.

End UriProperties.

(** ** The scalar normalisers *)

Module ScalarProperties.
Import Text Harmonise Notions LoopFacts TextFacts DigitFacts Rounding FixedPoints.

Lemma zeros_to_end_zeros n : zeros_to_end (zeros n) true = Some "".
Proof. induction n as [|n IH]; [reflexivity | exact IH]. Qed.

Lemma sub_dot_zeros_fraction (s : string) (n : nat) :
  forallb_str (fun c => negb (Ascii.eqb c ".")) s = true ->
  sub_dot_zeros (s ++ "." ++ zeros (S n)) = s.
Proof.
  induction s as [|c s IH]; intros H.
  - rewrite app_nil_l. change ("." ++ zeros (S n)) with (String "." (zeros (S n))).
    simpl. change (repeat_char "0" n) with (zeros n). rewrite zeros_to_end_zeros. reflexivity.
  - simpl in H. apply andb_true_iff in H as [Hc Hs]. apply negb_true_iff in Hc.
    rewrite app_cons. simpl. rewrite Hc, (IH Hs). reflexivity.
Qed.

Lemma str_of_Z_no_dot z :
  forallb_str (fun c => negb (Ascii.eqb c ".")) (str_of_Z z) = true.
Proof.
  destruct (str_of_Z_head z) as [[c [r [-> [Hc Hr]]]]|[c [r [-> [Hc Hr]]]]]; simpl;
    rewrite (digit_not_dot c Hc), (forallb_impl _ _ r digit_not_dot Hr); reflexivity.
Qed.

(** X4: an integer written with a fraction of zeros only is an integer for
    the Integer Normaliser: for an integer [z] of at most 4300 digits, the
    most that [int] reads, [str(z)] followed by a point and one or more
    zeros gives [str(z)], as [str(z)] itself does, and nothing is logged. *)
Theorem X4_integer_fraction_of_zeros :
  forall z n field g,
    ndigits (Z.abs_N z) <= 4300 ->
    normalise_integer field (str_of_Z z ++ "." ++ zeros (S n)) g = Return (str_of_Z z) g /\
    normalise_integer field (str_of_Z z) g = Return (str_of_Z z) g.
Proof.
  intros z n field g Hz. split; [|apply normalise_integer_fixed, Hz].
  unfold normalise_integer.
  rewrite (sub_dot_zeros_fraction _ n (str_of_Z_no_dot z)), (of_string_str_of_Z z Hz).
  reflexivity.
Qed.

Lemma X4_integer_fraction_of_zeros_witness :
  normalise_integer "MinNetDwellings" (str_of_Z (-12) ++ "." ++ zeros 3) Sample.nothing
  = Return (str_of_Z (-12)) Sample.nothing /\
  normalise_integer "MinNetDwellings" (str_of_Z (-12)) Sample.nothing
  = Return (str_of_Z (-12)) Sample.nothing.
Proof.
  apply (X4_integer_fraction_of_zeros (-12) 2 "MinNetDwellings" Sample.nothing).
  vm_compute. discriminate.
Defined.

Lemma read_digits_dot (s : string) :
  has_dot s = true -> forall prev acc, PyInt.read_digits s prev acc = None.
Proof.
  unfold has_dot. induction s as [|c s IH]; intros H prev acc; [discriminate H|].
  simpl in H. simpl.
  destruct (Ascii.eqb c ".") eqn:E.
  - apply Ascii.eqb_eq in E. subst c. reflexivity.
  - simpl in H. destruct (is_digit c); [apply IH, H|].
    destruct (Ascii.eqb c "_" && prev); [apply IH, H | reflexivity].
Qed.

Lemma has_dot_lstrip (s : string) :
  has_dot s = true -> has_dot (lstrip is_cspace s) = true.
Proof.
  unfold has_dot. induction s as [|c s IH]; intros H; [discriminate H|].
  simpl. destruct (is_cspace c) eqn:E; [|exact H].
  apply IH. simpl in H. destruct (Ascii.eqb c ".") eqn:Ed; [|exact H].
  apply Ascii.eqb_eq in Ed. subst c. discriminate E.
Qed.

Lemma has_dot_rstrip (s : string) :
  has_dot s = true -> has_dot (rstrip is_cspace s) = true.
Proof.
  unfold has_dot. induction s as [|c s IH]; intros H; [discriminate H|].
  simpl in H. simpl.
  destruct (Ascii.eqb c ".") eqn:Ed.
  - destruct (rstrip is_cspace s).
    + apply Ascii.eqb_eq in Ed. subst c. reflexivity.
    + simpl. rewrite Ed. reflexivity.
  - simpl in H. specialize (IH H).
    destruct (rstrip is_cspace s) as [|a r]; [discriminate IH|].
    simpl. rewrite Ed. exact IH.
Qed.

Lemma of_string_dot (s : string) : has_dot s = true -> PyInt.of_string s = None.
Proof.
  intros H. unfold PyInt.of_string.
  assert (Hlim : forall r, has_dot r = true -> PyInt.read_limited r = None).
  { intros r Hr. unfold PyInt.read_limited.
    destruct (_ <? _)%N; [reflexivity | apply read_digits_dot, Hr]. }
  pose proof (has_dot_rstrip _ (has_dot_lstrip _ H)) as Hd.
  destruct (rstrip is_cspace (lstrip is_cspace s)) as [|c r]; [discriminate Hd|].
  assert (Hall : PyInt.read_limited (String c r) = None) by (apply Hlim, Hd).
  assert (Htail : c <> "."%char -> PyInt.read_limited r = None).
  { intros Hc. apply Hlim. unfold has_dot in *. simpl in Hd.
    destruct (Ascii.eqb_spec c "."); [contradiction | exact Hd]. }
  destruct c as [[] [] [] [] [] [] [] []]; try (rewrite Hall; reflexivity);
    rewrite Htail by discriminate; reflexivity.
Qed.

(** X5: a value that still holds a decimal point once a trailing fraction
    of zeros is removed is no integer: the Integer Normaliser returns the
    empty text and logs one issue of datatype integer. *)
Theorem X5_integer_rejects_fraction :
  forall field value g,
    has_dot (sub_dot_zeros value) = true ->
    normalise_integer field value g
    = Return "" (with_issue g (Issue (row_number g) field "integer" (sub_dot_zeros value))).
Proof.
  intros field value g H. unfold normalise_integer.
  rewrite (of_string_dot _ H). reflexivity.
Qed.

Lemma X5_integer_rejects_fraction_witness :
  normalise_integer "MinNetDwellings" "12.50" Sample.nothing
  = Return "" (with_issue Sample.nothing (Issue 0 "MinNetDwellings" "integer" "12.50")).
Proof.
  apply (X5_integer_rejects_fraction "MinNetDwellings" "12.50" Sample.nothing). reflexivity.
Defined.

(** X3: the URI Normaliser never raises.  Either the validator accepts the
    value without its white space: that text is returned, nothing is
    logged, and the URI Normaliser returns it unchanged when given it
    again; or it returns the empty text and logs one issue of datatype uri
    that carries the value with its white space. *)
Theorem X3_normalise_uri_outcomes :
  forall validators_url field value g,
    (validators_url (join_split value) = true /\
     normalise_uri validators_url field value g = Return (join_split value) g /\
     no_space (join_split value) = true /\
     forall field' g', normalise_uri validators_url field' (join_split value) g'
                       = Return (join_split value) g')
    \/
    (validators_url (join_split value) = false /\
     normalise_uri validators_url field value g
     = Return "" (with_issue g (Issue (row_number g) field "uri" value))).
Proof.
  intros validators_url field value g. unfold normalise_uri.
  destruct (validators_url (join_split value)) eqn:E.
  - left. split; [reflexivity|]. split; [reflexivity|].
    split; [apply no_space_join_split|].
    intros field' g'. rewrite join_split_idem, E. reflexivity.
  - right. split; reflexivity.
Qed.

Lemma quantize_overflows d : overflows d = true -> Dec.quantize d 6 = None.
Proof.
  destruct d as [neg c e|neg|neg sig p]; unfold overflows; intros H.
  - destruct (Dec.quantize (Finite neg c e) 6) as [qd|] eqn:Hq; [|reflexivity].
    destruct (quantize_result _ _ Hq) as [[n [p [E _]]]|[n [c0 [e0 [E [_ Hlt]]]]]];
      [discriminate E|].
    injection E as _ <- <-. apply N.leb_le in H. lia.
  - reflexivity.
  - subst sig. reflexivity.
Qed.

Lemma format_decimal_fits d g :
  overflows d = false ->
  exists r, format_decimal (Dnum d) 6 g = Return r g /\ is_null r = false.
Proof.
  intros H.
  assert (Hq : exists qd, Dec.quantize d 6 = Some qd).
  { destruct d as [neg c e|neg|neg sig p]; unfold overflows in H.
    - apply N.leb_gt in H. rewrite (quantize_fits neg c e H). eexists. reflexivity.
    - discriminate H.
    - subst sig. eexists. reflexivity. }
  destruct Hq as [qd Hq].
  assert (Hn : exists d', Dec.normalize qd = Some d').
  { destruct (quantize_result _ _ Hq) as [[n [p [_ ->]]]|[n [c0 [e0 [_ [-> _]]]]]].
    - eexists. reflexivity.
    - unfold Dec.normalize. destruct (Dec.rescale c0 e0 (-6) =? 0)%N; [eexists; reflexivity|].
      destruct (Dec.strip_zeros _ _ _). eexists. reflexivity. }
  destruct Hn as [d' Hn].
  exists (Dec.to_string d'). split.
  - unfold format_decimal, bind, or_invalid, ret.
    change (Decimal_of_number (Dnum d)) with d. rewrite Hq. cbv beta iota. rewrite Hn.
    reflexivity.
  - apply (rounded_fixed d qd d' Hq Hn).
Qed.

(** X6: the three outcomes of the Decimal Normaliser.  A value [Decimal]
    does not read is logged under datatype decimal and blanked; a value it
    reads as an infinity, as a signalling NaN, or as a number that is
    10^22 or more once rounded to six places (its coefficient then has
    more than 28 digits) raises [InvalidOperation] and nothing is logged;
    any other value is returned as a text that is not blank and is no null
    value, and the state is unchanged. *)
Theorem X6_normalise_decimal_outcomes :
  forall field value precision g,
    match Dec.of_string value with
    | None =>
        normalise_decimal field value precision g
        = Return "" (with_issue g (Issue (row_number g) field "decimal" value))
    | Some d =>
        if overflows d
        then normalise_decimal field value precision g = Raise InvalidOperation g
        else exists r, normalise_decimal field value precision g = Return r g
                       /\ is_null r = false
    end.
Proof.
  intros field value precision g. unfold normalise_decimal.
  destruct (Dec.of_string value) as [d|]; [|reflexivity].
  destruct (overflows d) eqn:E.
  - unfold format_decimal, bind, or_invalid.
    change (Decimal_of_number (Dnum d)) with d. rewrite (quantize_overflows d E). reflexivity.
  - apply format_decimal_fits, E.
Qed.

End ScalarProperties.

(** ** What the Geometry Normaliser leaves alone *)

Module GeometryProperties.
Import Text Harmonise Notions LoopFacts TextFacts DigitFacts Rounding FixedPoints.
Import Issues ScalarProperties.

(** The two assignments that end [normalise_geometry] when a pair is
    accepted. *)
Lemma accept_result lon lat (row0 : gmap string string) g row' g' :
  (let* gx := format_decimal lon 6 in
   let* gy := format_decimal lat 6 in
   ret (<["GeoY" := gy]> (<["GeoX" := gx]> row0))) g = Return row' g' ->
  g' = g /\
  exists gx gy,
    format_decimal lon 6 g = Return gx g /\ format_decimal lat 6 g = Return gy g /\
    row' = <["GeoY" := gy]> (<["GeoX" := gx]> row0).
Proof.
  unfold bind.
  destruct (format_decimal lon 6 g) as [gx g1|e g1] eqn:Hx; [|discriminate].
  pose proof (format_decimal_state _ _ _ _ _ Hx) as ->.
  destruct (format_decimal lat 6 g) as [gy g2|e g2] eqn:Hy; [|discriminate].
  pose proof (format_decimal_state _ _ _ _ _ Hy) as ->.
  unfold ret. intros [= <- <-]. split; [reflexivity|]. exists gx, gy. repeat split.
Qed.

Lemma normalise_geometry_cases transform (row : gmap string string) g row' g' :
  normalise_geometry transform row g = Return row' g' ->
  (row' = row /\ g' = g) \/
  (exists x y, row !! "GeoX" = Some x /\ row !! "GeoY" = Some y /\
     ((g' = g /\ exists gx gy,
         row' = <["GeoY" := gy]> (<["GeoX" := gx]> (<["GeoY" := ""]> (<["GeoX" := ""]> row))))
      \/
      (g' = with_issue g (Issue (row_number g) "GeoX,GeoY" "OSGB" ",") /\
       row' = <["GeoY" := ""]> (<["GeoX" := ""]> row)))).
Proof.
  unfold normalise_geometry.
  destruct (String.eqb (default "" (row !! "GeoX")) "" || String.eqb (default "" (row !! "GeoY")) "").
  { unfold ret. intros [= <- <-]. left. split; reflexivity. }
  unfold getitem.
  destruct (row !! "GeoX") as [x|] eqn:Hx; [|discriminate].
  destruct (row !! "GeoY") as [y|] eqn:Hy;
    [|unfold bind, ret, or_invalid; destruct (Dec.of_string x); discriminate].
  intros H. right. exists x, y. split; [reflexivity|]. split; [reflexivity|].
  cbv zeta in H. unfold bind at 1 in H. unfold ret at 1 in H.
  unfold bind at 1 in H. destruct (or_invalid (Dec.of_string x) g) as [geox g1|e g1] eqn:Hgx;
    [|discriminate].
  assert (g1 = g) as -> by (unfold or_invalid, ret, raise in Hgx;
                            destruct (Dec.of_string x); congruence).
  unfold bind at 1 in H. unfold ret at 1 in H.
  unfold bind at 1 in H. destruct (or_invalid (Dec.of_string y) g) as [geoy g1|e g1] eqn:Hgy;
    [|discriminate].
  assert (g1 = g) as -> by (unfold or_invalid, ret, raise in Hgy;
                            destruct (Dec.of_string y); congruence).
  unfold bind at 1 in H.
  destruct (within_england (Dnum geox) (Dnum geoy)) as [[|]|]; unfold or_invalid at 1 in H;
    [| |discriminate]; unfold ret at 1 in H.
  { apply accept_result in H as [-> [gx [gy [_ [_ ->]]]]]. left. split; [reflexivity|].
    exists gx, gy. reflexivity. }
  unfold bind at 1 in H.
  destruct (within_england (Dnum geoy) (Dnum geox)) as [[|]|]; unfold or_invalid at 1 in H;
    [| |discriminate]; unfold ret at 1 in H.
  { apply accept_result in H as [-> [gx [gy [_ [_ ->]]]]]. left. split; [reflexivity|].
    exists gx, gy. reflexivity. }
  destruct (transform (Dnum geox) (Dnum geoy)) as [lat lon].
  unfold bind at 1 in H.
  destruct (within_england (Fnum lon) (Fnum lat)) as [[|]|]; unfold or_invalid at 1 in H;
    [| |discriminate]; unfold ret at 1 in H.
  { apply accept_result in H as [-> [gx [gy [_ [_ ->]]]]]. left. split; [reflexivity|].
    exists gx, gy. reflexivity. }
  destruct (transform (Dnum geoy) (Dnum geox)) as [lat' lon'].
  unfold bind at 1 in H.
  destruct (within_england (Fnum lon') (Fnum lat')) as [[|]|]; unfold or_invalid at 1 in H;
    [| |discriminate]; unfold ret at 1 in H.
  { apply accept_result in H as [-> [gx [gy [_ [_ ->]]]]]. left. split; [reflexivity|].
    exists gx, gy. reflexivity. }
  right. unfold bind, getitem in H.
  rewrite lookup_insert_ne in H by discriminate. rewrite !lookup_insert_eq in H.
  unfold ret, log_issue in H. injection H as <- <-. split; reflexivity.
Qed.

(** X7: what the Geometry Normaliser leaves alone.  When it returns, every
    field other than [GeoX] and [GeoY] is as it was and the row has the
    same fields; either nothing is logged, or one issue of kind OSGB is
    logged under [GeoX,GeoY] and both coordinates are blank. *)
Theorem X7_geometry_frame :
  forall transform (row : gmap string string) g row' g',
    normalise_geometry transform row g = Return row' g' ->
    (forall k, k <> "GeoX" -> k <> "GeoY" -> row' !! k = row !! k) /\
    (forall k, row' !! k = None <-> row !! k = None) /\
    (g' = g \/
     (g' = with_issue g (Issue (row_number g) "GeoX,GeoY" "OSGB" ",") /\
      row' !! "GeoX" = Some "" /\ row' !! "GeoY" = Some "")).
Proof.
  intros transform row g row' g' H.
  destruct (normalise_geometry_cases _ _ _ _ _ H)
    as [[-> ->]|[x [y [Hx [Hy [[-> [gx [gy ->]]]|[-> ->]]]]]]].
  - split; [reflexivity|]. split; [reflexivity|]. left. reflexivity.
  - split; [|split].
    + intros k Hkx Hky. rewrite !lookup_insert_ne by congruence. reflexivity.
    + intros k. destruct (decide (k = "GeoY")) as [->|Hky].
      { rewrite lookup_insert_eq, Hy. split; discriminate. }
      destruct (decide (k = "GeoX")) as [->|Hkx].
      { rewrite lookup_insert_ne by discriminate. rewrite lookup_insert_eq, Hx.
        split; discriminate. }
      rewrite !lookup_insert_ne by congruence. reflexivity.
    + left. reflexivity.
  - split; [|split].
    + intros k Hkx Hky. rewrite !lookup_insert_ne by congruence. reflexivity.
    + intros k. destruct (decide (k = "GeoY")) as [->|Hky].
      { rewrite lookup_insert_eq, Hy. split; discriminate. }
      destruct (decide (k = "GeoX")) as [->|Hkx].
      { rewrite lookup_insert_ne by discriminate. rewrite lookup_insert_eq, Hx.
        split; discriminate. }
      rewrite !lookup_insert_ne by congruence. reflexivity.
    + right. split; [reflexivity|]. split.
      * rewrite lookup_insert_ne by discriminate. apply lookup_insert_eq.
      * apply lookup_insert_eq.
Qed.

Lemma X7_geometry_frame_witness :
  <["GeoY" := ""]> (<["GeoX" := ""]>
    (Sample.row_of [("GeoX", "0"); ("GeoY", "0"); ("SiteReference", "BF-1")]))
    !! "SiteReference"
  = Sample.row_of [("GeoX", "0"); ("GeoY", "0"); ("SiteReference", "BF-1")] !! "SiteReference".
Proof.
  refine (proj1 (X7_geometry_frame Sample.to_origin
                   (Sample.row_of [("GeoX", "0"); ("GeoY", "0"); ("SiteReference", "BF-1")])
                   (Sample.in_loop "Notes") _
                   (with_issue (Sample.in_loop "Notes") (Issue 1 "GeoX,GeoY" "OSGB" ",")) _)
            "SiteReference" _ _).
  - vm_compute. reflexivity.
  - discriminate.
  - discriminate.
Defined.

End GeometryProperties.

(** ** Pairs inside the bounding box *)

Module BoxProperties.
Import Text Harmonise Notions LoopFacts TextFacts DigitFacts Rounding FixedPoints.
Import Issues ScalarProperties GeometryProperties.

Lemma pow10_of_N (k : Z) : 0 <= k -> Z.of_N (10 ^ Z.to_N k) = 10 ^ k.
Proof. intros Hk. rewrite N2Z.inj_pow, Z2N.id by exact Hk. reflexivity. Qed.

(** A finite number strictly between two bounds of at most 56 in absolute
    value has a coefficient of fewer than 28 digits at six places. *)
Lemma between_halves_fits d tlo thi :
  -112 <= tlo -> thi <= 112 ->
  Dec.gt_half d tlo = Some true -> Dec.lt_half d thi = Some true ->
  overflows d = false.
Proof.
  intros Hlo Hhi Hgt Hlt.
  destruct d as [neg c e|neg|neg sig p]; [| |discriminate Hgt].
  2:{ simpl in Hgt, Hlt. destruct neg; discriminate. }
  unfold Dec.gt_half, Dec.lt_half, Dec.scaled in Hgt, Hlt.
  injection Hgt as Hgt. injection Hlt as Hlt.
  apply Z.ltb_lt in Hgt. apply Z.ltb_lt in Hlt.
  set (num := 2 * Z.of_N c * 10 ^ Z.max e 0) in *.
  set (den := 10 ^ Z.max (- e) 0) in *.
  assert (Hden : 0 < den) by (apply Z.pow_pos_nonneg; lia).
  assert (Hnum0 : 0 <= num).
  { unfold num. apply Z.mul_nonneg_nonneg; [lia|]. apply Z.pow_nonneg. lia. }
  assert (Hnum : num < 112 * den) by (destruct neg; nia).
  unfold overflows. apply N.leb_gt.
  pose proof (rescale_nearest_even c e) as Hq. unfold nearest_even in Hq.
  set (q := Dec.rescale c e (-6)) in *.
  destruct (Z.leb_spec (-6) e) as [He|He].
  - rewrite Hq.
    destruct (Z.le_gt_cases 0 e) as [He0|He0].
    + (* the number is an integer below 56 *)
      assert (Hd : den = 1) by (unfold den; rewrite Z.max_r by lia; reflexivity).
      unfold num in Hnum. rewrite Z.max_l in Hnum by lia. rewrite Hd in Hnum.
      rewrite <- (pow10_of_N e He0) in Hnum.
      replace (Z.to_N (e + 6)) with (Z.to_N e + 6)%N by lia.
      rewrite N.pow_add_r.
      assert (c * 10 ^ Z.to_N e < 56)%N by lia.
      change (10 ^ 6)%N with 1000000%N. change (10 ^ 28)%N with 10000000000000000000000000000%N.
      lia.
    + unfold num in Hnum. rewrite Z.max_r in Hnum by lia. rewrite Z.mul_1_r in Hnum.
      assert (Hd : den <= 10 ^ 6).
      { unfold den. rewrite Z.max_l by lia. apply Z.pow_le_mono_r; lia. }
      assert (Hp : (10 ^ Z.to_N (e + 6) <= 10 ^ 6)%N) by (apply N.pow_le_mono_r; lia).
      change (10 ^ 6) with 1000000 in Hd. change (10 ^ 6)%N with 1000000%N in Hp.
      change (10 ^ 28)%N with 10000000000000000000000000000%N.
      nia.
  - destruct Hq as [Hq _].
    set (p := (10 ^ Z.to_N (- 6 - e))%N) in *.
    assert (Hp : (0 < p)%N) by apply pow10_pos.
    unfold num in Hnum. rewrite Z.max_r in Hnum by lia. rewrite Z.mul_1_r in Hnum.
    assert (Hd : den = 1000000 * Z.of_N p).
    { unfold den, p. rewrite Z.max_l by lia. rewrite pow10_of_N by lia.
      replace (- e) with (6 + (- 6 - e)) by lia. rewrite Z.pow_add_r by lia. reflexivity. }
    rewrite Hd in Hnum.
    change (10 ^ 28)%N with 10000000000000000000000000000%N.
    nia.
Qed.

Lemma within_england_fits a b :
  within_england (Dnum a) (Dnum b) = Some true -> overflows a = false /\ overflows b = false.
Proof.
  unfold within_england, num_gt_half, num_lt_half, and_then.
  destruct (Dec.gt_half b 99) as [[|]|] eqn:H1; try discriminate.
  destruct (Dec.lt_half b 112) as [[|]|] eqn:H2; try discriminate.
  destruct (Dec.gt_half a (-14)) as [[|]|] eqn:H3; try discriminate.
  intros H4. split.
  - apply (between_halves_fits a (-14) 4); [lia | lia | exact H3 | exact H4].
  - apply (between_halves_fits b 99 112); [lia | lia | exact H1 | exact H2].
Qed.

Lemma blanked_then_set (row : gmap string string) gx gy :
  <["GeoY" := gy]> (<["GeoX" := gx]> (<["GeoY" := ""]> (<["GeoX" := ""]> row)))
  = <["GeoY" := gy]> (<["GeoX" := gx]> row).
Proof.
  apply map_eq. intros k.
  destruct (decide (k = "GeoY")) as [->|Hy]; [rewrite !lookup_insert_eq; reflexivity|].
  rewrite !(lookup_insert_ne _ "GeoY") by congruence.
  destruct (decide (k = "GeoX")) as [->|Hx]; [rewrite !lookup_insert_eq; reflexivity|].
  repeat (rewrite lookup_insert_ne by congruence). reflexivity.
Qed.

Lemma parsed_not_blank x d : Dec.of_string x = Some d -> String.eqb x "" = false.
Proof. intros H. destruct (String.eqb_spec x ""); [subst x; discriminate H | reflexivity]. Qed.

Lemma geometry_direct transform (row : gmap string string) g x y geox geoy :
  row !! "GeoX" = Some x -> row !! "GeoY" = Some y ->
  Dec.of_string x = Some geox -> Dec.of_string y = Some geoy ->
  within_england (Dnum geox) (Dnum geoy) = Some true ->
  normalise_geometry transform row g =
  (let* gx := format_decimal (Dnum geox) 6 in
   let* gy := format_decimal (Dnum geoy) 6 in
   ret (<["GeoY" := gy]> (<["GeoX" := gx]> (<["GeoY" := ""]> (<["GeoX" := ""]> row))))) g.
Proof.
  intros Hx Hy Hpx Hpy Hin. unfold normalise_geometry. rewrite Hx, Hy.
  change (default "" (Some x)) with x. change (default "" (Some y)) with y.
  rewrite (parsed_not_blank x geox Hpx), (parsed_not_blank y geoy Hpy).
  simpl orb. cbv iota.
  unfold getitem, bind, or_invalid, ret. cbv beta iota zeta.
  rewrite Hx, Hy. cbv beta iota. rewrite Hpx, Hpy. cbv beta iota.
  rewrite Hin. reflexivity.
Qed.

Lemma geometry_swapped transform (row : gmap string string) g x y geox geoy :
  row !! "GeoX" = Some x -> row !! "GeoY" = Some y ->
  Dec.of_string x = Some geox -> Dec.of_string y = Some geoy ->
  within_england (Dnum geox) (Dnum geoy) = Some false ->
  within_england (Dnum geoy) (Dnum geox) = Some true ->
  normalise_geometry transform row g =
  (let* gx := format_decimal (Dnum geoy) 6 in
   let* gy := format_decimal (Dnum geox) 6 in
   ret (<["GeoY" := gy]> (<["GeoX" := gx]> (<["GeoY" := ""]> (<["GeoX" := ""]> row))))) g.
Proof.
  intros Hx Hy Hpx Hpy Hout Hin. unfold normalise_geometry. rewrite Hx, Hy.
  change (default "" (Some x)) with x. change (default "" (Some y)) with y.
  rewrite (parsed_not_blank x geox Hpx), (parsed_not_blank y geoy Hpy).
  simpl orb. cbv iota.
  unfold getitem, bind, or_invalid, ret. cbv beta iota zeta.
  rewrite Hx, Hy. cbv beta iota. rewrite Hpx, Hpy. cbv beta iota.
  rewrite Hout. cbv beta iota. rewrite Hin. reflexivity.
Qed.

Lemma accept_fits a b (row0 : gmap string string) g :
  overflows a = false -> overflows b = false ->
  exists gx gy,
    format_decimal (Dnum a) 6 g = Return gx g /\
    format_decimal (Dnum b) 6 g = Return gy g /\
    (let* gx := format_decimal (Dnum a) 6 in
     let* gy := format_decimal (Dnum b) 6 in
     ret (<["GeoY" := gy]> (<["GeoX" := gx]> row0))) g
    = Return (<["GeoY" := gy]> (<["GeoX" := gx]> row0)) g.
Proof.
  intros Ha Hb.
  destruct (format_decimal_fits a g Ha) as [gx [Hgx _]].
  destruct (format_decimal_fits b g Hb) as [gy [Hgy _]].
  exists gx, gy. split; [exact Hgx|]. split; [exact Hgy|].
  unfold bind. rewrite Hgx, Hgy. reflexivity.
Qed.

(** X8: a pair inside the bounding box is never lost.  When the pair read
    from [GeoX] and [GeoY] is inside the box as it stands, the Geometry
    Normaliser returns both coordinates rounded to six places, in their
    places; when it is inside the box only once swapped, it returns them
    swapped.  In both cases it does not raise, logs nothing, and the
    result does not depend on the transformation. *)
Theorem X8_geometry_inside_box :
  forall transform (row : gmap string string) g x y geox geoy,
    row !! "GeoX" = Some x -> row !! "GeoY" = Some y ->
    Dec.of_string x = Some geox -> Dec.of_string y = Some geoy ->
    (within_england (Dnum geox) (Dnum geoy) = Some true ->
     exists gx gy,
       format_decimal (Dnum geox) 6 g = Return gx g /\
       format_decimal (Dnum geoy) 6 g = Return gy g /\
       normalise_geometry transform row g
       = Return (<["GeoY" := gy]> (<["GeoX" := gx]> row)) g) /\
    (within_england (Dnum geox) (Dnum geoy) = Some false ->
     within_england (Dnum geoy) (Dnum geox) = Some true ->
     exists gx gy,
       format_decimal (Dnum geoy) 6 g = Return gx g /\
       format_decimal (Dnum geox) 6 g = Return gy g /\
       normalise_geometry transform row g
       = Return (<["GeoY" := gy]> (<["GeoX" := gx]> row)) g).
Proof.
  intros transform row g x y geox geoy Hx Hy Hpx Hpy.
  split.
  - intros Hin.
    destruct (within_england_fits _ _ Hin) as [Hfx Hfy].
    destruct (accept_fits geox geoy (<["GeoY" := ""]> (<["GeoX" := ""]> row)) g Hfx Hfy)
      as [gx [gy [Hgx [Hgy Hacc]]]].
    exists gx, gy. split; [exact Hgx|]. split; [exact Hgy|].
    rewrite (geometry_direct transform row g x y geox geoy Hx Hy Hpx Hpy Hin), Hacc.
    rewrite blanked_then_set. reflexivity.
  - intros Hout Hin.
    destruct (within_england_fits _ _ Hin) as [Hfy Hfx].
    destruct (accept_fits geoy geox (<["GeoY" := ""]> (<["GeoX" := ""]> row)) g Hfy Hfx)
      as [gx [gy [Hgx [Hgy Hacc]]]].
    exists gx, gy. split; [exact Hgx|]. split; [exact Hgy|].
    rewrite (geometry_swapped transform row g x y geox geoy Hx Hy Hpx Hpy Hout Hin), Hacc.
    rewrite blanked_then_set. reflexivity.
Qed.

Lemma X8_geometry_inside_box_witness :
  exists gx gy,
    format_decimal (Dnum (Finite true 1 (-1))) 6 Sample.nothing = Return gx Sample.nothing /\
    format_decimal (Dnum (Finite false 515 (-1))) 6 Sample.nothing = Return gy Sample.nothing /\
    normalise_geometry Sample.to_origin (Sample.row_of [("GeoX", "51.5"); ("GeoY", "-0.1")])
      Sample.nothing
    = Return (<["GeoY" := gy]>
                (<["GeoX" := gx]> (Sample.row_of [("GeoX", "51.5"); ("GeoY", "-0.1")])))
        Sample.nothing.
Proof.
  refine (proj2 (X8_geometry_inside_box Sample.to_origin
                   (Sample.row_of [("GeoX", "51.5"); ("GeoY", "-0.1")]) Sample.nothing
                   "51.5" "-0.1" (Finite false 515 (-1)) (Finite true 1 (-1)) _ _ _ _) _ _);
    vm_compute; reflexivity.
Defined.

End BoxProperties.

(** ** What the index holds *)

Module IndexProperties.
Import Text Harmonise Notions LoopFacts TextFacts UriFacts IndexFacts.

Lemma same_progress_refl g : same_progress g g.
Proof. repeat split. Qed.

Lemma same_progress_trans g1 g2 g3 :
  same_progress g1 g2 -> same_progress g2 g3 -> same_progress g1 g3.
Proof. unfold same_progress. intros [? [? ?]] [? [? ?]]. repeat split; congruence. Qed.

Lemma reference_row_result organisation row g o' g' :
  load_reference_row organisation row g = Return o' g' ->
  exists id, row !! "organisation" = Some id /\ o' = <[id := row]> organisation /\
             same_progress g g'.
Proof.
  unfold load_reference_row, getitem, bind.
  destruct (row !! "organisation") as [id|]; [|discriminate]. unfold ret at 1.
  intros H. exists id. split; [reflexivity|].
  destruct (row !! "opendatacommunities") as [raw|].
  2:{ unfold ret in H. injection H as <- <-. split; [reflexivity | apply same_progress_refl]. }
  unfold set_organisation_uri in H.
  destruct (row !! "statistical-geography") as [code|]; [|discriminate]. unfold ret at 1 in H.
  destruct (contains "local-authority-eng" id); unfold ret in H; injection H as <- <-;
    (split; [reflexivity | repeat split]).
Qed.

Lemma reference_rows_result refs :
  forall organisation g o' g',
    for_each refs load_reference_row organisation g = Return o' g' ->
    same_progress g g' /\
    (forall id row, o' !! id = Some row -> organisation !! id = Some row \/ In row refs) /\
    (forall k u, organisation_uri g' !! k = Some u ->
                 organisation_uri g !! k = Some u \/ from_reference refs u).
Proof.
  induction refs as [|row refs IH]; intros organisation g o' g' Hrun.
  - simpl in Hrun. unfold ret in Hrun. injection Hrun as <- <-.
    split; [apply same_progress_refl|]. split; intros; left; assumption.
  - simpl in Hrun. unfold bind at 1 in Hrun.
    destruct (load_reference_row organisation row g) as [o1 g1|e g1] eqn:Hrow; [|discriminate].
    destruct (IH o1 g1 o' g' Hrun) as [Hs [Hd Hi]].
    destruct (reference_row_result _ _ _ _ _ Hrow) as [id [Hid [-> Hs1]]].
    split; [exact (same_progress_trans _ _ _ Hs1 Hs)|]. split.
    + intros id' r Hr. destruct (Hd id' r Hr) as [H|H]; [|right; right; exact H].
      destruct (decide (id = id')) as [->|Hne].
      * rewrite lookup_insert_eq in H. injection H as <-. right. left. reflexivity.
      * rewrite lookup_insert_ne in H by exact Hne. left. exact H.
    + intros k u Hu. destruct (Hi k u Hu) as [H|[r [raw [Hin [Hraw Hcase]]]]].
      * rewrite (reference_row_index _ _ _ _ _ k Hrow) in H.
        destruct (ref_registers k row); [|left; exact H].
        right. destruct (row !! "opendatacommunities") as [raw|] eqn:Hraw; [|discriminate H].
        simpl in H. injection H as <-. exists row, raw.
        split; [left; reflexivity|]. split; [exact Hraw | left; reflexivity].
      * right. exists r, raw. split; [right; exact Hin|]. split; assumption.
Qed.

Lemma patch_row_result organisation row g o' g' :
  load_patch_row organisation row g = Return o' g' ->
  same_progress g g' /\
  (forall k u, organisation_uri g' !! k = Some u ->
     organisation_uri g !! k = Some u \/
     exists id entry, organisation !! id = Some entry /\
                      entry !! "opendatacommunities" = Some u).
Proof.
  unfold load_patch_row, getitem, bind.
  destruct (row !! "value") as [v|]; [|discriminate]. unfold ret at 1.
  destruct (row !! "organisation") as [id|]; [|discriminate]. unfold ret at 1.
  destruct (String.eqb id "").
  { unfold ret. intros [= _ <-]. split; [apply same_progress_refl|]. intros; left; assumption. }
  destruct (organisation !! id) as [entry|] eqn:He; [|discriminate]. unfold ret at 1.
  destruct (entry !! "opendatacommunities") as [uri|] eqn:Hu; [|discriminate]. unfold ret at 1.
  unfold set_organisation_uri, ret. intros [= _ <-]. split; [repeat split|].
  intros k u. simpl. rewrite lookup_insert_eqb.
  destruct (String.eqb (lower_uri v) k); [|intros H; left; exact H].
  intros [= <-]. right. exists id, entry. split; assumption.
Qed.

Lemma patch_rows_result patch :
  forall organisation g o' g',
    for_each patch load_patch_row organisation g = Return o' g' ->
    same_progress g g' /\
    (forall k u, organisation_uri g' !! k = Some u ->
       organisation_uri g !! k = Some u \/
       exists id entry, organisation !! id = Some entry /\
                        entry !! "opendatacommunities" = Some u).
Proof.
  induction patch as [|row patch IH]; intros organisation g o' g' Hrun.
  - simpl in Hrun. unfold ret in Hrun. injection Hrun as _ <-.
    split; [apply same_progress_refl|]. intros; left; assumption.
  - simpl in Hrun. unfold bind at 1 in Hrun.
    destruct (load_patch_row organisation row g) as [o1 g1|e g1] eqn:Hrow; [|discriminate].
    assert (o1 = organisation) as ->.
    { apply (Loading.patch_rows_keep_dictionary [row] organisation g o1 g1).
      simpl. unfold bind. rewrite Hrow. reflexivity. }
    destruct (IH organisation g1 o' g' Hrun) as [Hs Hi].
    destruct (patch_row_result _ _ _ _ _ Hrow) as [Hs1 Hi1].
    split; [exact (same_progress_trans _ _ _ Hs1 Hs)|].
    intros k u Hu. destruct (Hi k u Hu) as [H|H]; [apply Hi1, H | right; exact H].
Qed.

(** X9: the index holds nothing but URIs of the reference table.  When
    [load_organisations] returns, every entry of the index was there before
    or is the URI of a row of the reference table, as written or
    lower-cased; the issue log, the row number and the loop variable are
    untouched.  So, with an index built from nothing, the Organisation URI
    Resolver returns the empty text or such a URI. *)
Theorem X9_index_holds_reference_uris :
  forall refs patch g g',
    load_organisations refs patch g = Return tt g' ->
    same_progress g g' /\
    (forall k u, organisation_uri g' !! k = Some u ->
                 organisation_uri g !! k = Some u \/ from_reference refs u) /\
    (organisation_uri g = ∅ ->
     forall field v r g2,
       normalise_organisation_uri field v g' = Return r g2 ->
       r = "" \/ from_reference refs r).
Proof.
  intros refs patch g g' Hrun.
  unfold load_organisations, bind in Hrun.
  destruct (for_each refs load_reference_row ∅ g) as [o1 g1|e g1] eqn:Hrefs; [|discriminate].
  destruct (for_each patch load_patch_row o1 g1) as [o2 g2|e g2] eqn:Hpatch; [|discriminate].
  unfold ret in Hrun. injection Hrun as <-.
  destruct (reference_rows_result _ _ _ _ _ Hrefs) as [Hs1 [Hd Hi1]].
  destruct (patch_rows_result _ _ _ _ _ Hpatch) as [Hs2 Hi2].
  assert (Hindex : forall k u, organisation_uri g2 !! k = Some u ->
                     organisation_uri g !! k = Some u \/ from_reference refs u).
  { intros k u Hu. destruct (Hi2 k u Hu) as [H|[id [entry [He Hraw]]]]; [apply Hi1, H|].
    right. destruct (Hd id entry He) as [H|H]; [rewrite lookup_empty in H; discriminate H|].
    exists entry, u. split; [exact H|]. split; [exact Hraw | right; reflexivity]. }
  split; [exact (same_progress_trans _ _ _ Hs1 Hs2)|]. split; [exact Hindex|].
  intros Hempty field v r g3. unfold normalise_organisation_uri.
  destruct (organisation_uri g2 !! lower_uri v) as [u|] eqn:H1.
  { intros [= <- _]. destruct (Hindex _ _ H1) as [H|H]; [|right; exact H].
    rewrite Hempty, lookup_empty in H. discriminate H. }
  destruct (organisation_uri g2 !! end_of_uri (lower_uri v)) as [u|] eqn:H2.
  { intros [= <- _]. destruct (Hindex _ _ H2) as [H|H]; [|right; exact H].
    rewrite Hempty, lookup_empty in H. discriminate H. }
  unfold bind, log_issue, ret. intros [= <- _]. left. reflexivity.
Qed.

Lemma X9_index_holds_reference_uris_witness :
  same_progress Sample.nothing
    (Sample.loaded [Sample.council_a; Sample.council_b] [Sample.patch_name]).
Proof.
  refine (proj1 (X9_index_holds_reference_uris [Sample.council_a; Sample.council_b]
                   [Sample.patch_name] Sample.nothing _ _)).
  vm_compute. reflexivity.
Defined.

(** A row of the reference table leaves the entries of the local
    dictionary under the other ids as they are. *)
Lemma reference_rows_other_ids refs id :
  forall o g o' g',
    for_each refs load_reference_row o g = Return o' g' ->
    (forall r, In r refs -> r !! "organisation" <> Some id) ->
    o' !! id = o !! id.
Proof.
  induction refs as [|r l IH]; intros o g0 o3 g3 Hl Hno.
  - simpl in Hl. unfold ret in Hl. injection Hl as <- _. reflexivity.
  - simpl in Hl. unfold bind at 1 in Hl.
    destruct (load_reference_row o r g0) as [o4 g4|e g4] eqn:Hr; [|discriminate].
    rewrite (IH o4 g4 o3 g3 Hl) by (intros r' Hr'; apply Hno; right; exact Hr').
    destruct (reference_row_result _ _ _ _ _ Hr) as [rid [Hrid [-> _]]].
    apply lookup_insert_ne. intros ->. apply (Hno r); [left; reflexivity | exact Hrid].
Qed.

(** The local dictionary after the first loop maps an id to the last row
    of the reference table that carries it. *)
Lemma last_reference_row pre ref post :
  forall organisation g o' g' id,
    for_each (pre ++ ref :: post) load_reference_row organisation g = Return o' g' ->
    ref !! "organisation" = Some id ->
    (forall r, In r post -> r !! "organisation" <> Some id) ->
    o' !! id = Some ref.
Proof.
  intros organisation g o' g' id Hrun Hid Hpost.
  rewrite for_each_app in Hrun.
  destruct (for_each pre load_reference_row organisation g) as [o1 g1|e g1]; [|discriminate].
  simpl in Hrun. unfold bind at 1 in Hrun.
  destruct (load_reference_row o1 ref g1) as [o2 g2|e g2] eqn:Hrow; [|discriminate].
  destruct (reference_row_result _ _ _ _ _ Hrow) as [id' [Hid' [-> _]]].
  assert (id' = id) as -> by congruence.
  rewrite (reference_rows_other_ids post id _ _ _ _ Hrun Hpost).
  apply lookup_insert_eq.
Qed.

Lemma patch_row_hit organisation row g o' g' v id entry raw :
  load_patch_row organisation row g = Return o' g' ->
  row !! "value" = Some v -> row !! "organisation" = Some id -> id <> "" ->
  organisation !! id = Some entry -> entry !! "opendatacommunities" = Some raw ->
  organisation_uri g' !! lower_uri v = Some raw.
Proof.
  intros Hrun Hv Hid Hne He Hraw. unfold load_patch_row, getitem, bind in Hrun.
  rewrite Hv, Hid in Hrun. unfold ret at 1 in Hrun. unfold ret at 1 in Hrun.
  destruct (String.eqb_spec id "") as [E|_]; [contradiction|].
  rewrite He in Hrun. unfold ret at 1 in Hrun. rewrite Hraw in Hrun. unfold ret at 1 in Hrun.
  unfold set_organisation_uri, ret in Hrun. injection Hrun as _ <-. simpl.
  apply lookup_insert_eq.
Qed.

(** X10: what a patch row is for.  A patch row that names an organisation
    of the reference table makes its value, in any letter case and with any
    white space, resolve to the URI of that organisation as the last row
    of the reference table with this id writes it (not lower-cased),
    provided no later patch row writes the same key. *)
Theorem X10_patch_row_resolves :
  forall pre ref post before row after g g' v id raw,
    load_organisations (pre ++ ref :: post) (before ++ row :: after) g = Return tt g' ->
    ref !! "organisation" = Some id ->
    ref !! "opendatacommunities" = Some raw ->
    (forall r, In r post -> r !! "organisation" <> Some id) ->
    row !! "value" = Some v -> row !! "organisation" = Some id -> id <> "" ->
    (forall r, In r after -> patch_registers (lower_uri v) r = false) ->
    forall field w,
      lower_uri w = lower_uri v ->
      normalise_organisation_uri field w g' = Return raw g'.
Proof.
  intros pre ref post before row after g g' v id raw Hrun Hrid Hraw Hpost Hv Hid Hne Hafter
    field w Hw.
  unfold load_organisations, bind in Hrun.
  destruct (for_each (pre ++ ref :: post) load_reference_row ∅ g) as [o1 g1|e g1] eqn:Hrefs;
    [|discriminate].
  pose proof (last_reference_row pre ref post ∅ g o1 g1 id Hrefs Hrid Hpost) as Hentry.
  rewrite for_each_app in Hrun.
  destruct (for_each before load_patch_row o1 g1) as [o2 g2|e g2] eqn:Hbefore; [|discriminate].
  apply Loading.patch_rows_keep_dictionary in Hbefore. subst o2.
  simpl in Hrun. unfold bind at 1 in Hrun.
  destruct (load_patch_row o1 row g2) as [o3 g3|e g3] eqn:Hrow; [|discriminate].
  destruct (for_each after load_patch_row o3 g3) as [o4 g4|e g4] eqn:Hrest; [|discriminate].
  unfold ret in Hrun. injection Hrun as <-.
  apply resolver_hit. rewrite Hw.
  rewrite (patch_rows_index _ _ _ _ _ _ Hrest Hafter).
  apply (patch_row_hit o1 row g2 o3 g3 v id ref raw Hrow Hv Hid Hne Hentry Hraw).
Qed.

Lemma X10_patch_row_resolves_witness :
  normalise_organisation_uri "OrganisationURI" "AAA  district COUNCIL"
    (Sample.loaded [Sample.council_a; Sample.council_b] [Sample.patch_name])
  = Return "http://opendatacommunities.org/id/district-council/Aaa"
      (Sample.loaded [Sample.council_a; Sample.council_b] [Sample.patch_name]).
Proof.
  refine (X10_patch_row_resolves [] Sample.council_a [Sample.council_b] [] Sample.patch_name []
            Sample.nothing _ "Aaa District Council" "local-authority-eng:AAA"
            "http://opendatacommunities.org/id/district-council/Aaa"
            _ _ _ _ _ _ _ _ "OrganisationURI" "AAA  district COUNCIL" _).
  - vm_compute. reflexivity.
  - vm_compute. reflexivity.
  - vm_compute. reflexivity.
  - intros r [<-|[]]. vm_compute. discriminate.
  - vm_compute. reflexivity.
  - vm_compute. reflexivity.
  - discriminate.
  - intros r [].
  - vm_compute. reflexivity.
Defined.

End IndexProperties.

(** ** The run *)

Module RunProperties.
Import Text Harmonise Notions LoopFacts TextFacts.
Import Issues ScalarProperties GeometryProperties IndexProperties.

Lemma logged_refl lo hi g : logged_between lo hi g g.
Proof.
  split; [reflexivity|]. exists []. rewrite List.app_nil_r. split; [reflexivity | constructor].
Qed.

Lemma logged_trans lo hi g1 g2 g3 :
  logged_between lo hi g1 g2 -> logged_between lo hi g2 g3 -> logged_between lo hi g1 g3.
Proof.
  intros [Hi1 [l1 [Hl1 Hf1]]] [Hi2 [l2 [Hl2 Hf2]]]. split; [congruence|].
  exists (l1 ++ l2)%list. split.
  - rewrite Hl2, Hl1, <- List.app_assoc. reflexivity.
  - apply Forall_app. split; assumption.
Qed.

Lemma logged_weaken lo hi lo' hi' g g' :
  lo' <= lo -> hi <= hi' -> logged_between lo hi g g' -> logged_between lo' hi' g g'.
Proof.
  intros Hlo Hhi [Hi [l [Hl Hf]]]. split; [exact Hi|]. exists l. split; [exact Hl|].
  revert Hf. apply List.Forall_impl. intros i Hr. lia.
Qed.

Lemma stamped_refl g : stamped g g.
Proof. split; [reflexivity | apply logged_refl]. Qed.

Lemma stamped_trans g1 g2 g3 : stamped g1 g2 -> stamped g2 g3 -> stamped g1 g3.
Proof.
  intros [Hr1 Hl1] [Hr2 Hl2]. split; [congruence|].
  rewrite Hr1 in Hl2. exact (logged_trans _ _ _ _ _ Hl1 Hl2).
Qed.

Lemma stamped_issue g f d v : stamped g (with_issue g (Issue (row_number g) f d v)).
Proof.
  split; [reflexivity|]. split; [reflexivity|].
  exists [Issue (row_number g) f d v]. split; [reflexivity|].
  constructor; [simpl; lia | constructor].
Qed.

Lemma stamped_field g f :
  stamped g (Globals (organisation_uri g) (log g) (row_number g) f).
Proof.
  split; [reflexivity|]. split; [reflexivity|]. exists []. simpl. rewrite List.app_nil_r.
  split; [reflexivity | constructor].
Qed.

Lemma stamped_log g f0 i :
  issue_row_number i = row_number g ->
  stamped g (Globals (organisation_uri g) (log g ++ [i]) (row_number g) f0).
Proof.
  intros Hi. split; [reflexivity|]. split; [reflexivity|].
  exists [i]. split; [reflexivity|]. constructor; [simpl; lia | constructor].
Qed.

Ltac cases_of_state :=
  repeat match goal with
         | |- context [match ?X with _ => _ end] => destruct X
         end;
  simpl state_of;
  first [apply stamped_refl | apply stamped_log; reflexivity].

Lemma format_decimal_state_of x p g : state_of (format_decimal x p g) = g.
Proof.
  unfold format_decimal, bind, or_invalid, ret, raise.
  destruct (Dec.quantize (Decimal_of_number x) p); [|reflexivity].
  destruct (Dec.normalize d); reflexivity.
Qed.

Lemma normalise_stamped schema re_sub validators_url strftime_Y fieldname value g :
  stamped g (state_of (normalise schema re_sub validators_url strftime_Y fieldname value g)).
Proof.
  unfold normalise.
  destruct (string_in (lower value) null_values); [apply stamped_refl|].
  unfold getitem, bind.
  destruct (fields schema !! fieldname) as [fd|]; [|apply stamped_refl].
  unfold ret at 1.
  set (v := fold_left _ _ value). clearbody v.
  destruct (String.eqb fieldname "OrganisationURI").
  { unfold normalise_organisation_uri, bind, log_issue, ret. cases_of_state. }
  destruct (String.eqb (default "" (type fd)) "integer").
  { unfold normalise_integer, bind, log_issue, ret. cases_of_state. }
  destruct (String.eqb (default "" (type fd)) "number").
  { unfold normalise_decimal. destruct (Dec.of_string v).
    - rewrite format_decimal_state_of. apply stamped_refl.
    - apply stamped_issue. }
  destruct (String.eqb (default "" (format fd)) "uri").
  { unfold normalise_uri, bind, log_issue, ret. cases_of_state. }
  destruct (String.eqb (default "" (type fd)) "date").
  { unfold normalise_date. destruct (first_date _ _); [apply stamped_refl|].
    unfold bind, global_field. destruct (field g); [|apply stamped_refl].
    unfold log_issue, ret. simpl state_of. apply stamped_log. reflexivity. }
  apply stamped_refl.
Qed.

Ltac innermost_cases :=
  repeat (cbv beta iota;
          match goal with
          | |- context [match ?X with _ => _ end] =>
              lazymatch X with
              | context [match _ with _ => _ end] => fail
              | _ => destruct X
              end
          end).

Lemma geometry_stamped transform (row : gmap string string) g :
  stamped g (state_of (normalise_geometry transform row g)).
Proof.
  unfold normalise_geometry, format_decimal, getitem, bind, or_invalid, ret, raise, log_issue.
  cbv beta zeta.
  innermost_cases; simpl state_of;
    first [apply stamped_refl | apply stamped_log; reflexivity].
Qed.

Lemma field_step_stamped schema re_sub validators_url strftime_Y row o f g :
  stamped g (state_of (field_step schema re_sub validators_url strftime_Y row o f g)) /\
  forall o' g',
    field_step schema re_sub validators_url strftime_Y row o f g = Return o' g' ->
    exists v, o' = <[f := v]> o.
Proof.
  unfold field_step, bind, set_field, getitem.
  set (g1 := Globals (organisation_uri g) (log g) (row_number g) (Some f)).
  assert (H1 : stamped g g1) by apply stamped_field.
  destruct (row !! f) as [raw|]; [|split; [exact H1 | discriminate]].
  unfold ret. cbv beta iota.
  pose proof (normalise_stamped schema re_sub validators_url strftime_Y f raw g1) as H2.
  destruct (normalise schema re_sub validators_url strftime_Y f raw g1) as [v g2|e g2];
    simpl in H2.
  - split; [exact (stamped_trans _ _ _ H1 H2)|].
    intros o' g' [= <- _]. exists v. reflexivity.
  - split; [exact (stamped_trans _ _ _ H1 H2) | discriminate].
Qed.

Lemma for_each_cons {A S : Type} (x : A) (l : list A) (body : S -> A -> M S) (s : S) g :
  for_each (x :: l) body s g =
  match body s x g with
  | Return s' g' => for_each l body s' g'
  | Raise e g' => Raise e g'
  end.
Proof. reflexivity. Qed.

Lemma fields_loop schema re_sub validators_url strftime_Y row names :
  forall o g,
    stamped g (state_of (for_each names
                           (field_step schema re_sub validators_url strftime_Y row) o g)) /\
    forall o' g',
      for_each names (field_step schema re_sub validators_url strftime_Y row) o g
      = Return o' g' ->
      forall k, o' !! k <> None <-> (o !! k <> None \/ In k names).
Proof.
  induction names as [|f names IH]; intros o g.
  - simpl. split; [apply stamped_refl|]. unfold ret. intros o' g' [= <- _] k. tauto.
  - rewrite for_each_cons.
    destruct (field_step_stamped schema re_sub validators_url strftime_Y row o f g)
      as [Hs Hr].
    destruct (field_step schema re_sub validators_url strftime_Y row o f g) as [o1 g1|e g1];
      simpl in Hs.
    + destruct (IH o1 g1) as [Hs' Hk]. split; [exact (stamped_trans _ _ _ Hs Hs')|].
      intros o' g' Hrun k. rewrite (Hk o' g' Hrun k).
      destruct (Hr o1 g1 eq_refl) as [v ->].
      destruct (decide (f = k)) as [->|Hne].
      * rewrite lookup_insert_eq. simpl. split; [intros _; right; left; reflexivity|].
        intros _. left. discriminate.
      * rewrite lookup_insert_ne by exact Hne. simpl. split; [tauto|].
        intros [H|[H|H]]; [tauto | contradiction | tauto].
    + split; [exact Hs | discriminate].
Qed.

Lemma geometry_keys transform (row : gmap string string) g row' g' :
  normalise_geometry transform row g = Return row' g' ->
  forall k, row' !! k = None <-> row !! k = None.
Proof.
  intros H k.
  destruct (normalise_geometry_cases _ _ _ _ _ H)
    as [[-> ->]|[x [y [Hx [Hy [[-> [gx [gy ->]]]|[-> ->]]]]]]]; [reflexivity| |];
    (destruct (decide (k = "GeoY")) as [->|Hky];
     [rewrite lookup_insert_eq, Hy; split; discriminate|];
     destruct (decide (k = "GeoX")) as [->|Hkx];
     [rewrite lookup_insert_ne by discriminate; rewrite lookup_insert_eq, Hx;
      split; discriminate|];
     rewrite !lookup_insert_ne by congruence; reflexivity).
Qed.

Lemma process_row_eq schema re_sub validators_url transform strftime_Y written row g :
  process_row schema re_sub validators_url transform strftime_Y written row g =
  match for_each (fieldnames schema)
          (field_step schema re_sub validators_url strftime_Y row) ∅
          (Globals (organisation_uri g) (log g) (row_number g + 1) (field g)) with
  | Return o1 g2 =>
      match normalise_geometry transform o1 g2 with
      | Return o2 g3 => Return (written ++ [o2])%list g3
      | Raise e g3 => Raise e g3
      end
  | Raise e g2 => Raise e g2
  end.
Proof. reflexivity. Qed.

(** One turn of the loop over the rows. *)
Lemma process_row_step schema re_sub validators_url transform strftime_Y written row g :
  let o := process_row schema re_sub validators_url transform strftime_Y written row g in
  row_number (state_of o) = row_number g + 1 /\
  logged_between (row_number g) (row_number g + 1) g (state_of o) /\
  forall out g', o = Return out g' ->
    exists r, out = (written ++ [r])%list /\ has_fields schema r.
Proof.
  cbv zeta. rewrite process_row_eq.
  set (g1 := Globals (organisation_uri g) (log g) (row_number g + 1) (field g)).
  assert (Hrn : row_number g1 = row_number g + 1) by reflexivity.
  assert (Hlog : logged_between (row_number g) (row_number g + 1) g g1).
  { split; [reflexivity|]. exists []. simpl. rewrite List.app_nil_r.
    split; [reflexivity | constructor]. }
  assert (Hstep : forall g2, stamped g1 g2 ->
            row_number g2 = row_number g + 1 /\
            logged_between (row_number g) (row_number g + 1) g g2).
  { intros g2 [Hr [Hi [l [Hl Hf]]]]. split; [congruence|].
    apply (logged_trans _ _ _ g1); [exact Hlog|].
    split; [exact Hi|]. exists l. split; [exact Hl|].
    revert Hf. apply List.Forall_impl. intros i. rewrite Hrn. lia. }
  destruct (fields_loop schema re_sub validators_url strftime_Y row (fieldnames schema) ∅ g1)
    as [Hs Hk].
  destruct (for_each (fieldnames schema)
              (field_step schema re_sub validators_url strftime_Y row) ∅ g1)
    as [o1 g2|e g2]; simpl in Hs.
  2:{ simpl. destruct (Hstep g2 Hs) as [Ha Hb]. split; [exact Ha|]. split; [exact Hb|].
      discriminate. }
  pose proof (geometry_stamped transform o1 g2) as Hg.
  destruct (normalise_geometry transform o1 g2) as [o2 g3|e g3] eqn:Hgeo; simpl in Hg.
  2:{ simpl. destruct (Hstep g3 (stamped_trans _ _ _ Hs Hg)) as [Ha Hb].
      split; [exact Ha|]. split; [exact Hb | discriminate]. }
  simpl.
  destruct (Hstep g3 (stamped_trans _ _ _ Hs Hg)) as [Ha Hb].
  split; [exact Ha|]. split; [exact Hb|].
  intros out g' [= <- _]. exists o2. split; [reflexivity|].
  intros k. specialize (Hk o1 g2 eq_refl k).
  pose proof (geometry_keys _ _ _ _ _ Hgeo k) as Hkeys.
  rewrite lookup_empty in Hk. split.
  - intros H. assert (o1 !! k <> None) by tauto. tauto.
  - intros H. assert (o1 !! k <> None) by tauto. tauto.
Qed.

Lemma rows_loop schema re_sub validators_url transform strftime_Y rows :
  forall written g,
    let o := for_each rows
               (process_row schema re_sub validators_url transform strftime_Y) written g in
    row_number g <= row_number (state_of o) <= row_number g + Z.of_nat (length rows) /\
    logged_between (row_number g) (row_number g + Z.of_nat (length rows)) g (state_of o) /\
    forall out g', o = Return out g' ->
      row_number g' = row_number g + Z.of_nat (length rows) /\
      exists new, out = (written ++ new)%list /\ length new = length rows /\
                  Forall (has_fields schema) new.
Proof.
  induction rows as [|row rows IH]; intros written g.
  - simpl. split; [lia|]. split; [apply logged_refl|].
    unfold ret. intros out g' [= <- <-]. split; [lia|].
    exists []. rewrite List.app_nil_r. split; [reflexivity|]. split; [reflexivity | constructor].
  - cbv zeta. rewrite for_each_cons. simpl length.
    destruct (process_row_step schema re_sub validators_url transform strftime_Y written row g)
      as [Hrn [Hlog Hout]].
    destruct (process_row schema re_sub validators_url transform strftime_Y written row g)
      as [w1 g1|e g1]; simpl in Hrn, Hlog.
    2:{ simpl. split; [lia|]. split; [|discriminate].
        apply (logged_weaken (row_number g) (row_number g + 1)); [lia | lia | exact Hlog]. }
    specialize (IH w1 g1). cbv zeta in IH. destruct IH as [Hr2 [Hl2 Ho2]].
    split; [simpl length; lia|]. split.
    + apply (logged_trans _ _ _ g1).
      * apply (logged_weaken (row_number g) (row_number g + 1)); [lia | lia | exact Hlog].
      * apply (logged_weaken (row_number g1) (row_number g1 + Z.of_nat (length rows)));
          [lia | lia | exact Hl2].
    + intros out g' Hrun. destruct (Ho2 out g' Hrun) as [Hrn' [new [-> [Hlen Hall]]]].
      destruct (Hout w1 g1 eq_refl) as [r [-> Hr]].
      split; [simpl length; lia|].
      exists (r :: new). split; [rewrite <- List.app_assoc; reflexivity|].
      split; [simpl; lia|]. constructor; assumption.
Qed.

Lemma load_returns refs patch g g1 :
  load_organisations refs patch g = Return tt g1 -> same_progress g g1.
Proof.
  intros Hrun. unfold load_organisations, bind in Hrun.
  destruct (for_each refs load_reference_row ∅ g) as [o1 g0|e g0] eqn:Hrefs; [|discriminate].
  destruct (for_each patch load_patch_row o1 g0) as [o2 g2|e g2] eqn:Hpatch; [|discriminate].
  unfold ret in Hrun. injection Hrun as <-.
  destruct (reference_rows_result _ _ _ _ _ Hrefs) as [Hs1 _].
  destruct (patch_rows_result _ _ _ _ _ Hpatch) as [Hs2 _].
  exact (same_progress_trans _ _ _ Hs1 Hs2).
Qed.

(** X11: a run that ends has written one row for every row read, each
    with exactly the fields of the schema; the row number has gone up by
    the number of rows, and the index is as [load_organisations] left it. *)
Theorem X11_one_row_out_per_row_in :
  forall schema re_sub validators_url transform strftime_Y refs patch input g out g',
    main schema re_sub validators_url transform strftime_Y refs patch input g
    = Return out g' ->
    length out = length input /\
    Forall (has_fields schema) out /\
    row_number g' = row_number g + Z.of_nat (length input) /\
    exists g1, load_organisations refs patch g = Return tt g1 /\
               organisation_uri g' = organisation_uri g1.
Proof.
  intros schema re_sub validators_url transform strftime_Y refs patch input g out g' Hrun.
  unfold main, bind in Hrun.
  destruct (load_organisations refs patch g) as [[] g1|e g1] eqn:Hload; [|discriminate].
  destruct (load_returns _ _ _ _ Hload) as [_ [Hrn _]].
  destruct (rows_loop schema re_sub validators_url transform strftime_Y input [] g1)
    as [_ [[Hidx _] Hout]].
  destruct (Hout out g' Hrun) as [Hrn' [new [-> [Hlen Hall]]]].
  rewrite Hrun in Hidx. simpl in Hidx.
  split; [exact Hlen|]. split; [exact Hall|]. split; [lia|].
  exists g1. split; [reflexivity | exact Hidx].
Qed.

(** X12: the issues of a run carry the numbers of the rows read.  Once the
    tables are loaded, whether the run ends or a row raises, the log is the
    log of before followed by issues whose row numbers are above the
    initial row number and at most that number plus the number of rows
    read; no issue is dropped or rewritten. *)
Theorem X12_issue_row_numbers :
  forall schema re_sub validators_url transform strftime_Y refs patch input g g1,
    load_organisations refs patch g = Return tt g1 ->
    exists l,
      log (state_of (main schema re_sub validators_url transform strftime_Y
                       refs patch input g))
      = (log g ++ l)%list /\
      Forall (fun i => row_number g < issue_row_number i
                       <= row_number g + Z.of_nat (length input)) l.
Proof.
  intros schema re_sub validators_url transform strftime_Y refs patch input g g1 Hload.
  destruct (load_returns _ _ _ _ Hload) as [Hlog [Hrn _]].
  unfold main, bind. rewrite Hload.
  destruct (rows_loop schema re_sub validators_url transform strftime_Y input [] g1)
    as [_ [[_ [l [Hl Hf]]] _]].
  exists l. rewrite Hl, Hlog, Hrn in *. split; [reflexivity | exact Hf].
Qed.

Lemma X11_one_row_out_per_row_in_witness :
  length (returned (main site_schema Sample.sub_literal Sample.url_with_scheme
                      Sample.to_origin str_of_Z [] [] [site_row]
                      Sample.nothing) [])
  = length [site_row].
Proof.
  refine (proj1 (X11_one_row_out_per_row_in site_schema Sample.sub_literal
                   Sample.url_with_scheme Sample.to_origin str_of_Z [] []
                   [site_row] Sample.nothing _
                   (state_of (main site_schema Sample.sub_literal Sample.url_with_scheme
                                Sample.to_origin str_of_Z [] [] [site_row]
                                Sample.nothing)) _)).
  vm_compute. reflexivity.
Defined.

Lemma X12_issue_row_numbers_witness :
  exists l,
    log (state_of (main site_schema Sample.sub_literal Sample.url_with_scheme
                     Sample.to_origin str_of_Z [] [] [site_row]
                     Sample.nothing))
    = (log Sample.nothing ++ l)%list /\
    Forall (fun i => row_number Sample.nothing < issue_row_number i
                     <= row_number Sample.nothing + Z.of_nat (length [site_row])) l.
Proof.
  refine (X12_issue_row_numbers site_schema Sample.sub_literal Sample.url_with_scheme
            Sample.to_origin str_of_Z [] [] [site_row] Sample.nothing
            (Sample.loaded [] []) _).
  vm_compute. reflexivity.
Defined.

(** X13: what the exceptions of [normalise] tell.  When [normalise] raises
    [KeyError], [InvalidOperation] or [NameError], the value is not a null
    value, the state is left as it was, and: a [KeyError] names the field,
    which is not in the schema; an [InvalidOperation] comes from a field
    other than [OrganisationURI] of type number whose value, once stripped,
    is read by [Decimal] as an infinity, a signalling NaN or a number too
    large to round; a [NameError] names [field], and comes from a field
    other than [OrganisationURI], of type date and not of format [uri],
    whose stripped value no pattern reads while the loop variable [field]
    is unbound. *)
Theorem X13_normalise_raises :
  forall schema re_sub validators_url strftime_Y fieldname value g e g',
    normalise schema re_sub validators_url strftime_Y fieldname value g = Raise e g' ->
    g' = g /\ is_null value = false /\
    (forall k, e = KeyError k -> k = fieldname /\ fields schema !! fieldname = None) /\
    (e = InvalidOperation ->
     exists fd d,
       fields schema !! fieldname = Some fd /\ fieldname <> "OrganisationURI" /\
       default "" (type fd) = "number" /\
       Dec.of_string (stripped re_sub fd value) = Some d /\ overflows d = true) /\
    (forall n, e = NameError n ->
     n = "field" /\
     exists fd,
       fields schema !! fieldname = Some fd /\ fieldname <> "OrganisationURI" /\
       default "" (type fd) = "date" /\ default "" (format fd) <> "uri" /\
       date_read (stripped re_sub fd value) = None /\ field g = None).
Proof.
  intros schema re_sub validators_url strftime_Y fieldname value g e g'.
  unfold normalise. fold (is_null value).
  destruct (is_null value); [discriminate|].
  unfold getitem, bind.
  destruct (fields schema !! fieldname) as [fd|] eqn:Hfd.
  2:{ unfold raise. intros [= <- <-]. split; [reflexivity|]. split; [reflexivity|].
      split; [intros k [= <-]; split; reflexivity|].
      split; [discriminate | intros n; discriminate]. }
  unfold ret at 1. fold (stripped re_sub fd value).
  set (v := stripped re_sub fd value).
  destruct (String.eqb_spec fieldname "OrganisationURI") as [_|Hne].
  { unfold normalise_organisation_uri, bind, log_issue, ret.
    destruct (organisation_uri g !! lower_uri v); [discriminate|].
    destruct (organisation_uri g !! end_of_uri (lower_uri v)); discriminate. }
  destruct (String.eqb (default "" (type fd)) "integer").
  { unfold normalise_integer, bind, log_issue, ret.
    destruct (PyInt.of_string (sub_dot_zeros v)); discriminate. }
  destruct (String.eqb_spec (default "" (type fd)) "number") as [Hnum|_].
  { unfold normalise_decimal.
    destruct (Dec.of_string v) as [d|] eqn:Hd; [|discriminate].
    destruct (overflows d) eqn:Ho.
    - unfold format_decimal, bind, or_invalid.
      change (Decimal_of_number (Dnum d)) with d. rewrite (quantize_overflows d Ho).
      unfold raise. intros [= <- <-]. split; [reflexivity|]. split; [reflexivity|].
      split; [intros k; discriminate|]. split; [|intros n; discriminate].
      intros _. exists fd, d.
      split; [reflexivity|]. split; [exact Hne|]. split; [exact Hnum|].
      split; [exact Hd | exact Ho].
    - destruct (format_decimal_fits d g Ho) as [r [-> _]]. discriminate. }
  destruct (String.eqb_spec (default "" (format fd)) "uri") as [_|Hfmt].
  { unfold normalise_uri, bind, log_issue, ret.
    destruct (validators_url (join_split v)); discriminate. }
  destruct (String.eqb_spec (default "" (type fd)) "date") as [Hdate|_]; [|discriminate].
  unfold normalise_date. fold date_trim. fold (date_read v).
  destruct (date_read v) eqn:Hread; [discriminate|].
  unfold bind, global_field. destruct (field g) eqn:Hf; [discriminate|].
  intros [= <- <-]. split; [reflexivity|]. split; [reflexivity|].
  split; [intros k; discriminate|]. split; [discriminate|].
  intros n [= <-]. split; [reflexivity|]. exists fd.
  split; [reflexivity|]. split; [exact Hne|]. split; [exact Hdate|].
  split; [exact Hfmt|]. split; [exact Hread | reflexivity].
Qed.

Lemma X13_normalise_raises_witness :
  Sample.nothing = Sample.nothing /\ is_null "Infinity" = false.
Proof.
  refine ((fun H => conj (proj1 H) (proj1 (proj2 H)))
            (X13_normalise_raises Sample.schema Sample.sub_literal
               Sample.url_with_scheme str_of_Z "GeoX" "Infinity" Sample.nothing
               InvalidOperation Sample.nothing _)).
  vm_compute. reflexivity.
Defined.

End RunProperties.

(** ** What a run raises *)

Module SafetyProperties.
Import Text Harmonise Notions LoopFacts TextFacts DigitFacts.
Import Dates DateFacts Issues ScalarProperties GeometryProperties IndexProperties RunProperties.

Lemma for_each_raises {A S : Type} (l : list A) (body : S -> A -> M S) :
  forall s g e g',
    for_each l body s g = Raise e g' ->
    exists s0 x g0, In x l /\ body s0 x g0 = Raise e g'.
Proof.
  induction l as [|x l IH]; intros s g e g' H.
  - discriminate H.
  - rewrite for_each_cons in H.
    destruct (body s x g) as [s1 g1|e1 g1] eqn:Hb.
    + destruct (IH s1 g1 e g' H) as [s0 [y [g0 [Hin Hy]]]].
      exists s0, y, g0. split; [right; exact Hin | exact Hy].
    + injection H as <- <-. exists s, x, g. split; [left; reflexivity | exact Hb].
Qed.

Lemma reference_row_raises organisation row g e g' :
  load_reference_row organisation row g = Raise e g' -> exists k, e = KeyError k.
Proof.
  unfold load_reference_row, getitem, bind, set_organisation_uri, ret, raise.
  innermost_cases; intros H; try discriminate H; injection H as <- _; eexists; reflexivity.
Qed.

Lemma patch_row_raises organisation row g e g' :
  load_patch_row organisation row g = Raise e g' -> exists k, e = KeyError k.
Proof.
  unfold load_patch_row, getitem, bind, set_organisation_uri, ret, raise.
  innermost_cases; intros H; try discriminate H; injection H as <- _; eexists; reflexivity.
Qed.

Lemma geometry_raises transform (row : gmap string string) g e g' :
  normalise_geometry transform row g = Raise e g' ->
  e = InvalidOperation \/ exists k, e = KeyError k.
Proof.
  unfold normalise_geometry, format_decimal, getitem, bind, or_invalid, ret, raise, log_issue.
  cbv beta zeta.
  innermost_cases; intros H; try discriminate H; injection H as <- _;
    first [left; reflexivity | right; eexists; reflexivity].
Qed.

Lemma normalise_raises schema re_sub validators_url strftime_Y fieldname value g e g' :
  normalise schema re_sub validators_url strftime_Y fieldname value g = Raise e g' ->
  e = InvalidOperation \/ (exists k, e = KeyError k) \/ field g = None.
Proof.
  unfold normalise.
  destruct (string_in (lower value) null_values); [discriminate|].
  unfold getitem, bind.
  destruct (fields schema !! fieldname) as [fd|].
  2:{ unfold raise. intros [= <- _]. right. left. eexists. reflexivity. }
  unfold ret at 1. set (v := fold_left _ _ value). clearbody v.
  destruct (String.eqb fieldname "OrganisationURI").
  { unfold normalise_organisation_uri, bind, log_issue, ret.
    destruct (organisation_uri g !! lower_uri v); [discriminate|].
    destruct (organisation_uri g !! end_of_uri (lower_uri v)); discriminate. }
  destruct (String.eqb (default "" (type fd)) "integer").
  { unfold normalise_integer, bind, log_issue, ret.
    destruct (PyInt.of_string (sub_dot_zeros v)); discriminate. }
  destruct (String.eqb (default "" (type fd)) "number").
  { unfold normalise_decimal, format_decimal, bind, or_invalid, log_issue, ret, raise.
    innermost_cases; intros H; try discriminate H; injection H as <- _; left; reflexivity. }
  destruct (String.eqb (default "" (format fd)) "uri").
  { unfold normalise_uri, bind, log_issue, ret.
    destruct (validators_url (join_split v)); discriminate. }
  destruct (String.eqb (default "" (type fd)) "date"); [|discriminate].
  unfold normalise_date. destruct (first_date _ _); [discriminate|].
  unfold bind, global_field. destruct (field g); [discriminate|].
  intros _. right. right. reflexivity.
Qed.

Lemma field_step_raises schema re_sub validators_url strftime_Y row o f g e g' :
  field_step schema re_sub validators_url strftime_Y row o f g = Raise e g' ->
  e = InvalidOperation \/ exists k, e = KeyError k.
Proof.
  unfold field_step, bind, set_field, getitem.
  destruct (row !! f) as [raw|].
  2:{ unfold raise. intros [= <- _]. right. eexists. reflexivity. }
  unfold ret. cbv beta iota.
  destruct (normalise _ _ _ _ f raw _) as [v g2|e2 g2] eqn:Hn; [discriminate|].
  intros [= <- _].
  destruct (normalise_raises _ _ _ _ _ _ _ _ _ Hn) as [H|[H|H]];
    [left; exact H | right; exact H | discriminate H].
Qed.

(** X14: a run never raises the [NameError] of the Date Normaliser.  The
    Date Normaliser logs under the global [field] and not under its own
    argument, and raises [NameError] while that variable is unbound; in a
    run the loop over the field names binds it before [normalise] is
    called, so whatever a run raises, it is not that. *)
Theorem X14_run_no_name_error :
  forall schema re_sub validators_url transform strftime_Y refs patch input g e g',
    main schema re_sub validators_url transform strftime_Y refs patch input g
    = Raise e g' ->
    is_name_error e = false.
Proof.
  intros schema re_sub validators_url transform strftime_Y refs patch input g e g' Hrun.
  assert (Hcases : e = InvalidOperation \/ exists k, e = KeyError k).
  { unfold main, bind in Hrun.
    destruct (load_organisations refs patch g) as [[] g1|e1 g1] eqn:Hload.
    - destruct (for_each_raises _ _ _ _ _ _ Hrun) as [w [row [g0 [_ Hrow]]]].
      rewrite process_row_eq in Hrow.
      destruct (for_each (fieldnames schema) _ ∅ _) as [o1 g2|e2 g2] eqn:Hfields.
      + destruct (normalise_geometry transform o1 g2) as [o2 g3|e3 g3] eqn:Hgeo;
          [discriminate|].
        injection Hrow as <- _. exact (geometry_raises _ _ _ _ _ Hgeo).
      + injection Hrow as <- _.
        destruct (for_each_raises _ _ _ _ _ _ Hfields) as [o [f [g3 [_ Hf]]]].
        exact (field_step_raises _ _ _ _ _ _ _ _ _ _ Hf).
    - injection Hrun as <- _. right.
      unfold load_organisations, bind in Hload.
      destruct (for_each refs load_reference_row ∅ g) as [o1 g0|e0 g0] eqn:Hrefs.
      + destruct (for_each patch load_patch_row o1 g0) as [o2 g2|e2 g2] eqn:Hpatch;
          [discriminate|].
        injection Hload as <- _.
        destruct (for_each_raises _ _ _ _ _ _ Hpatch) as [o [row [g3 [_ Hr]]]].
        exact (patch_row_raises _ _ _ _ _ Hr).
      + injection Hload as <- _.
        destruct (for_each_raises _ _ _ _ _ _ Hrefs) as [o [row [g3 [_ Hr]]]].
        exact (reference_row_raises _ _ _ _ _ Hr). }
  destruct Hcases as [->|[k ->]]; reflexivity.
Qed.

Lemma X14_run_no_name_error_witness : is_name_error InvalidOperation = false.
Proof.
  refine (X14_run_no_name_error
            [Field "GeoX" (Some "number") None None; Field "GeoY" (Some "number") None None]
            Sample.sub_literal Sample.url_with_scheme Sample.to_origin str_of_Z [] []
            [Sample.row_of [("GeoX", "NaN"); ("GeoY", "51.5")]] Sample.nothing
            InvalidOperation (Globals ∅ [] 1 (Some "GeoY")) _).
  vm_compute. reflexivity.
Defined.

Lemma lstrip_all p (pre s : string) :
  forallb_str p pre = true -> lstrip p (pre ++ s) = lstrip p s.
Proof.
  induction pre as [|c pre IH]; intros H; [reflexivity|].
  simpl in H. apply andb_true_iff in H as [Hc Hp].
  rewrite app_cons. simpl. rewrite Hc. apply IH, Hp.
Qed.

Lemma rstrip_all p (post : string) : forallb_str p post = true -> rstrip p post = "".
Proof.
  induction post as [|c post IH]; intros H; [reflexivity|].
  simpl in H. apply andb_true_iff in H as [Hc Hp].
  simpl. rewrite (IH Hp), Hc. reflexivity.
Qed.

Lemma rstrip_wrapped p (s post : string) :
  forallb_str (fun c => negb (p c)) s = true -> forallb_str p post = true ->
  rstrip p (s ++ post) = s.
Proof.
  intros Hs Hpost. induction s as [|c s IH].
  - rewrite app_nil_l. apply rstrip_all, Hpost.
  - simpl in Hs. apply andb_true_iff in Hs as [Hc Hs]. apply negb_true_iff in Hc.
    rewrite app_cons. simpl. rewrite (IH Hs), Hc. destruct s; reflexivity.
Qed.

Lemma strip_wrapped p (pre s post : string) :
  forallb_str p pre = true -> forallb_str (fun c => negb (p c)) s = true ->
  forallb_str p post = true ->
  Text.strip p (pre ++ s ++ post) = s.
Proof.
  intros Hpre Hs Hpost. unfold Text.strip. rewrite (lstrip_all p pre _ Hpre).
  destruct s as [|c s].
  - rewrite app_nil_l.
    assert (Hl : forallb_str p (lstrip p post) = true) by (apply lstrip_forallb, Hpost).
    apply rstrip_all, Hl.
  - simpl in Hs. pose proof Hs as Hs'. apply andb_true_iff in Hs as [Hc _].
    apply negb_true_iff in Hc. rewrite app_cons, (lstrip_id p c _ Hc), <- app_cons.
    apply rstrip_wrapped; assumption.
Qed.

(** X15: a date in ISO form is found inside its wrapping.  A date with a
    year from 1000 on, written year-month-day and wrapped in any run of
    spaces, double quotes and commas on either side, is returned as the
    bare date by the Date Normaliser, and nothing is logged. *)
Theorem X15_wrapped_iso_date :
  forall strftime_Y d pre post context g,
    (forall y, 1000 <= y <= 9999 -> strftime_Y y = str_of_Z y) ->
    1000 <= Strptime.year d <= 9999 -> 1 <= Strptime.month d <= 12 ->
    1 <= Strptime.day d <= Strptime.days_in_month (Strptime.year d) (Strptime.month d) ->
    forallb_str date_trim pre = true -> forallb_str date_trim post = true ->
    normalise_date strftime_Y context (pre ++ Strptime.strftime strftime_Y d ++ post) g
    = Return (Strptime.strftime strftime_Y d) g.
Proof.
  intros strftime_Y d pre post context g HY Hy Hm Hd Hpre Hpost.
  pose proof (days_in_month_le (Strptime.year d) (Strptime.month d)) as Hle.
  pose proof (strftime_shape strftime_Y d HY Hy Hm ltac:(lia)) as Hshape.
  destruct (normalise_date_fixed strftime_Y context d g HY Hy Hm Hd) as [Hnull Hfix].
  unfold normalise_date in *. fold date_trim in *.
  rewrite (strip_wrapped date_trim pre _ post Hpre
             (forallb_impl _ _ _ date_char_not_trimmed (shape_chars _ Hshape)) Hpost).
  rewrite (strip_none date_trim _
             (forallb_impl _ _ _ date_char_not_trimmed (shape_chars _ Hshape))) in Hfix.
  destruct (first_date date_patterns (Strptime.strftime strftime_Y d)); [exact Hfix|].
  unfold bind, global_field, log_issue, ret in Hfix.
  destruct (field g); [|discriminate Hfix].
  injection Hfix as Hblank _. rewrite <- Hblank in Hnull. discriminate Hnull.
Qed.

Lemma X15_wrapped_iso_date_witness :
  normalise_date str_of_Z "FirstAddedDate"
    (String DQUOTE " " ++ Strptime.strftime str_of_Z (Strptime.Date 2020 1 31) ++ String DQUOTE ",")
    Sample.nothing
  = Return (Strptime.strftime str_of_Z (Strptime.Date 2020 1 31)) Sample.nothing.
Proof.
  apply (X15_wrapped_iso_date str_of_Z (Strptime.Date 2020 1 31) (String DQUOTE " ")
           (String DQUOTE ",") "FirstAddedDate" Sample.nothing).
  - intros y _. reflexivity.
  - simpl. lia.
  - simpl. lia.
  - vm_compute. split; discriminate.
  - reflexivity.
  - reflexivity.
Defined.

End SafetyProperties.

(** ** The Date Normaliser *)

Module DateNormaliser.
Import Text Harmonise Notions LoopFacts TextFacts DigitFacts.
Import Dates DateFacts SafetyProperties.

Lemma date_trim_spec c : date_trim c = trim_char c.
Proof. destruct c as [[] [] [] [] [] [] [] []]; reflexivity. Qed.

Lemma lstrip_ext p q (s : string) :
  (forall c, p c = q c) -> lstrip p s = lstrip q s.
Proof.
  intros H. induction s as [|c s IH]; [reflexivity|].
  simpl. rewrite <- H, IH. reflexivity.
Qed.

Lemma rstrip_ext p q (s : string) :
  (forall c, p c = q c) -> rstrip p s = rstrip q s.
Proof.
  intros H. induction s as [|c s IH]; [reflexivity|].
  simpl. rewrite <- H, IH. reflexivity.
Qed.

Lemma strip_date_trim (s : string) : Text.strip date_trim s = Text.strip trim_char s.
Proof.
  unfold Text.strip. rewrite (lstrip_ext _ _ s date_trim_spec).
  apply rstrip_ext, date_trim_spec.
Qed.

Lemma lstrip_split p (v : string) :
  exists pre, v = pre ++ lstrip p v /\ forallb_str p pre = true.
Proof.
  induction v as [|c v [pre [Hv Hp]]].
  - exists "". split; reflexivity.
  - simpl. destruct (p c) eqn:Hc.
    + exists (String c pre). rewrite app_cons, <- Hv. split; [reflexivity|].
      simpl. rewrite Hc, Hp. reflexivity.
    + exists "". split; reflexivity.
Qed.

Lemma rstrip_split p (s : string) :
  exists post, s = rstrip p s ++ post /\ forallb_str p post = true.
Proof.
  induction s as [|c s [post [Hs Hp]]].
  - exists "". split; reflexivity.
  - simpl. destruct (rstrip p s) as [|a t] eqn:E.
    + rewrite app_nil_l in Hs. subst post. destruct (p c) eqn:Hc.
      * exists (String c s). split; [reflexivity|]. simpl. rewrite Hc, Hp. reflexivity.
      * exists s. split; [reflexivity | exact Hp].
    + exists post. rewrite app_cons, <- Hs. split; [reflexivity | exact Hp].
Qed.

Lemma lstrip_head p (v : string) c r : lstrip p v = String c r -> p c = false.
Proof.
  induction v as [|a v IH]; [discriminate|].
  simpl. destruct (p a) eqn:Ha; [exact IH|]. intros [= <- _]. exact Ha.
Qed.

Lemma rstrip_head p (s : string) a c r : rstrip p (String a s) = String c r -> c = a.
Proof.
  simpl. destruct (rstrip p s); [destruct (p a); [discriminate|]|]; intros [= <- _]; reflexivity.
Qed.

Lemma rstrip_last p (s : string) : forall c r,
  rstrip p s = String c r -> p (last_char r c) = false.
Proof.
  induction s as [|a s IH]; intros c r; [discriminate|].
  simpl. destruct (rstrip p s) as [|b t] eqn:E.
  - destruct (p a) eqn:Ha; [discriminate|]. intros [= <- <-]. exact Ha.
  - intros [= <- <-]. simpl. apply (IH b t eq_refl).
Qed.

Lemma rstrip_keeps p (post : string) :
  forallb_str p post = true ->
  forall (s : string) c, p (last_char s c) = false ->
    rstrip p (String c s ++ post) = String c s.
Proof.
  intros Hpost. induction s as [|a s IH]; intros c Hc.
  - rewrite app_cons, app_nil_l. simpl. rewrite (rstrip_all p post Hpost).
    simpl in Hc. rewrite Hc. reflexivity.
  - change (rstrip p (String c (String a s) ++ post))
      with (match rstrip p (String a s ++ post) with
            | EmptyString => if p c then EmptyString else String c EmptyString
            | r => String c r
            end).
    rewrite (IH a Hc). reflexivity.
Qed.

(** Trimming takes the wrapping away and nothing else. *)
Lemma strip_bare (pre core post : string) :
  forallb_str trim_char pre = true -> forallb_str trim_char post = true ->
  bare core = true ->
  Text.strip trim_char (pre ++ core ++ post) = core.
Proof.
  intros Hpre Hpost Hcore. unfold Text.strip. rewrite (lstrip_all _ pre _ Hpre).
  destruct core as [|c r].
  - rewrite app_nil_l. apply rstrip_all, lstrip_forallb, Hpost.
  - simpl in Hcore. apply andb_true_iff in Hcore as [Hc Hl].
    apply negb_true_iff in Hc. apply negb_true_iff in Hl.
    rewrite app_cons, (lstrip_id _ c _ Hc), <- app_cons.
    apply rstrip_keeps; assumption.
Qed.

(** Every text is a bare text in a wrapping. *)
Lemma wrapping (value : string) :
  exists pre core post,
    value = pre ++ core ++ post /\
    forallb_str trim_char pre = true /\ forallb_str trim_char post = true /\
    bare core = true.
Proof.
  destruct (lstrip_split trim_char value) as [pre [Hv Hpre]].
  destruct (rstrip_split trim_char (lstrip trim_char value)) as [post [Hs Hpost]].
  exists pre, (rstrip trim_char (lstrip trim_char value)), post.
  split; [rewrite <- Hs; exact Hv|]. split; [exact Hpre|]. split; [exact Hpost|].
  destruct (rstrip trim_char (lstrip trim_char value)) as [|c r] eqn:E; [reflexivity|].
  simpl. rewrite (rstrip_last _ _ _ _ E).
  destruct (lstrip trim_char value) as [|a t] eqn:El; [discriminate E|].
  rewrite (rstrip_head _ _ _ _ _ E). rewrite (lstrip_head _ _ _ _ El). reflexivity.
Qed.

(** A number of [w] digits is written by [str] as by [fixed_width w]. *)
Lemma digits_fixed_width (w : nat) : forall n : N,
  (10 ^ N.of_nat w <= n)%N -> (n < 10 * 10 ^ N.of_nat w)%N ->
  digits n = fixed_width (S w) n.
Proof.
  induction w as [|w IH]; intros n Hlo Hhi.
  - change (10 ^ N.of_nat 0)%N with 1%N in Hhi.
    rewrite (digits_small n) by lia. simpl. rewrite app_nil_l.
    rewrite N.mod_small by lia. reflexivity.
  - rewrite Nat2N.inj_succ, N.pow_succ_r' in Hlo, Hhi.
    assert (HP : (0 < 10 ^ N.of_nat w)%N)
      by (pose proof (N.pow_nonzero 10 (N.of_nat w)); lia).
    pose proof (N.div_mod n 10 ltac:(lia)) as Hdm.
    pose proof (N.mod_lt n 10 ltac:(lia)) as Hmod.
    rewrite (digits_step n) by lia.
    change (fixed_width (S (S w)) n)
      with (fixed_width (S w) (n / 10) ++ String (digit_char (n mod 10)) "").
    remember (10 ^ N.of_nat w)%N as P eqn:EP.
    remember (n / 10)%N as q eqn:Eq. remember (n mod 10)%N as m eqn:Em.
    clear EP Eq Em. rewrite (IH q); [reflexivity | lia | lia].
Qed.

Lemma year_text y : 1000 <= y <= 9999 -> str_of_Z y = fixed_width 4 (Z.to_N y).
Proof.
  intros Hy. destruct y as [|p|p]; try lia.
  change (str_of_Z (Z.pos p)) with (digits (Npos p)).
  change (Z.to_N (Z.pos p)) with (Npos p).
  apply (digits_fixed_width 3); change (10 ^ N.of_nat 3)%N with 1000%N; lia.
Qed.

Lemma pad2_text z : 0 <= z <= 99 -> Strptime.pad2 z = fixed_width 2 (Z.to_N z).
Proof.
  intros Hz.
  apply String.eqb_eq.
  apply (range_check (fun z => String.eqb (Strptime.pad2 z) (fixed_width 2 (Z.to_N z))) 0 100);
    [vm_compute; reflexivity | lia].
Qed.

Lemma strftime_text strftime_Y d :
  1 <= Strptime.month d <= 12 -> 1 <= Strptime.day d <= 31 ->
  Strptime.strftime strftime_Y d = date_text strftime_Y d.
Proof.
  intros Hm Hd. unfold Strptime.strftime, date_text.
  rewrite (pad2_text (Strptime.month d)) by lia.
  rewrite (pad2_text (Strptime.day d)) by lia. reflexivity.
Qed.

Lemma date_text_iso strftime_Y d :
  (forall y, 1000 <= y <= 9999 -> strftime_Y y = str_of_Z y) ->
  1000 <= Strptime.year d <= 9999 ->
  date_text strftime_Y d = iso_text d.
Proof.
  intros HY Hy. unfold date_text, iso_text.
  rewrite (HY _ Hy), (year_text _ Hy). reflexivity.
Qed.

(** C8, as stated, fails for a year before 1000: where [%Y] is written
    without leading zeros, as the GNU C library does, the year 999 comes
    back with three digits, which is not YYYY-MM-DD. *)
Lemma C8_early_year_has_three_digits :
  normalise_date glibc_Y "FirstAddedDate" "0999-01-01" (Sample.in_loop "FirstAddedDate")
  = Return "999-01-01" (Sample.in_loop "FirstAddedDate")
  /\ iso_shape "999-01-01" = false
  /\ iso_text (Strptime.Date 999 1 1) = "0999-01-01".
Proof. split; [|split]; vm_compute; reflexivity. Qed.

(** C8, amended.  Every value is a bare text wrapped in spaces, double
    quotes and commas, and the Date Normaliser goes by the bare text alone:
    it tries the patterns in the order of the list and returns the date
    the first one that parses gives, written as year, month and day with
    hyphens between, month and day with two digits each and the year as
    the platform writes [%Y]: that is YYYY-MM-DD when the year is 1000 or
    later, where every platform writes the four digits;
    when no pattern parses it logs one issue of datatype date that carries
    the value with its wrapping, under the field of the loop over the field
    names, and returns the empty text.  So [2020-01-31] and [31/01/2020]
    both give [2020-01-31], also in a wrapping, and [not-a-date] is
    logged. *)
Theorem C8_normalise_date :
  forall strftime_Y,
    (forall y, 1000 <= y <= 9999 -> strftime_Y y = str_of_Z y) ->
    (forall value,
       exists pre core post,
         value = pre ++ core ++ post /\
         forallb_str trim_char pre = true /\ forallb_str trim_char post = true /\
         bare core = true) /\
    (forall context pre core post g,
       forallb_str trim_char pre = true -> forallb_str trim_char post = true ->
       bare core = true ->
       match first_date date_patterns core with
       | Some date =>
           (exists before p after,
              date_patterns = (before ++ p :: after)%list /\
              Forall (fun q => Strptime.strptime core q = None) before /\
              Strptime.strptime core p = Some date) /\
           normalise_date strftime_Y context (pre ++ core ++ post) g
           = Return (date_text strftime_Y date) g /\
           (1000 <= Strptime.year date -> date_text strftime_Y date = iso_text date)
       | None =>
           Forall (fun q => Strptime.strptime core q = None) date_patterns /\
           forall f, field g = Some f ->
             normalise_date strftime_Y context (pre ++ core ++ post) g
             = Return ""
                 (with_issue g (Issue (row_number g) f "date" (pre ++ core ++ post)))
       end) /\
    (forall context g,
       normalise_date strftime_Y context "2020-01-31" g = Return "2020-01-31" g /\
       normalise_date strftime_Y context "31/01/2020" g = Return "2020-01-31" g /\
       normalise_date strftime_Y context (String DQUOTE " 31/01/2020, ") g
       = Return "2020-01-31" g) /\
    (forall context g f, field g = Some f ->
       normalise_date strftime_Y context "not-a-date" g
       = Return "" (with_issue g (Issue (row_number g) f "date" "not-a-date"))).
Proof.
  intros strftime_Y HY.
  assert (Hgen : forall context pre core post g,
       forallb_str trim_char pre = true -> forallb_str trim_char post = true ->
       bare core = true ->
       match first_date date_patterns core with
       | Some date =>
           (exists before p after,
              date_patterns = (before ++ p :: after)%list /\
              Forall (fun q => Strptime.strptime core q = None) before /\
              Strptime.strptime core p = Some date) /\
           normalise_date strftime_Y context (pre ++ core ++ post) g
           = Return (date_text strftime_Y date) g /\
           (1000 <= Strptime.year date -> date_text strftime_Y date = iso_text date)
       | None =>
           Forall (fun q => Strptime.strptime core q = None) date_patterns /\
           forall f, field g = Some f ->
             normalise_date strftime_Y context (pre ++ core ++ post) g
             = Return ""
                 (with_issue g (Issue (row_number g) f "date" (pre ++ core ++ post)))
       end).
  { intros context pre core post g Hpre Hpost Hcore.
    pose proof (first_date_spec date_patterns core) as Hs.
    unfold normalise_date. fold date_trim.
    rewrite strip_date_trim, (strip_bare pre core post Hpre Hpost Hcore).
    destruct (first_date date_patterns core) as [d|] eqn:Hfd.
    - destruct (first_date_valid _ _ _ Hfd) as [Hy' [Hm Hd]].
      pose proof (days_in_month_le (Strptime.year d) (Strptime.month d)).
      split; [exact Hs|]. split; [rewrite strftime_text by lia; reflexivity|].
      intros Hy. apply date_text_iso; [exact HY | lia].
    - split; [exact Hs|]. intros f Hf.
      unfold bind, global_field. rewrite Hf. reflexivity. }
  assert (Hdate : forall context pre core post g,
            forallb_str trim_char pre = true -> forallb_str trim_char post = true ->
            bare core = true ->
            first_date date_patterns core = Some (Strptime.Date 2020 1 31) ->
            normalise_date strftime_Y context (pre ++ core ++ post) g
            = Return "2020-01-31" g).
  { intros context pre core post g Hpre Hpost Hcore Hfd.
    pose proof (Hgen context pre core post g Hpre Hpost Hcore) as H.
    rewrite Hfd in H. destruct H as [_ [-> Hiso]]. rewrite Hiso by (simpl; lia).
    reflexivity. }
  split; [exact wrapping|]. split; [exact Hgen|]. split.
  - intros context g. split; [|split].
    + apply (Hdate context "" "2020-01-31" "" g); vm_compute; reflexivity.
    + apply (Hdate context "" "31/01/2020" "" g); vm_compute; reflexivity.
    + apply (Hdate context (String DQUOTE " ") "31/01/2020" ", " g);
        vm_compute; reflexivity.
  - intros context g f Hf.
    pose proof (Hgen context "" "not-a-date" "" g eq_refl eq_refl eq_refl) as H.
    replace (first_date date_patterns "not-a-date")
      with (@None Strptime.date) in H by (vm_compute; reflexivity).
    destruct H as [_ H]. apply H, Hf.
Qed.

Lemma C8_normalise_date_witness :
  normalise_date glibc_Y "FirstAddedDate" (String DQUOTE " 31/01/2020, ")
    (Sample.in_loop "FirstAddedDate")
  = Return "2020-01-31" (Sample.in_loop "FirstAddedDate").
Proof.
  refine (proj2 (proj2 (proj1 (proj2 (proj2 (C8_normalise_date glibc_Y _)))
                   "FirstAddedDate" (Sample.in_loop "FirstAddedDate")))).
  intros y _. reflexivity.
Defined.

End DateNormaliser.

(** ** A second pass *)

Module SecondPass.
Import Text Harmonise Notions LoopFacts TextFacts DigitFacts.
Import UriFacts IndexFacts IndexProperties FixedPoints DateFacts Idempotence.










End SecondPass.
